(** * DeepAir: the tolerant CSV loader of [model_training.py]

    A shallow embedding of [find_best_csv], [_try_read] and [load_data],
    and the properties of the loader that the repository's specification
    states about them; then [prepare_data] and [train_model] up to its
    last check, with further properties of all five functions.

    Modelling conventions.
    - Python [str] values are [string], a character standing for the
      Unicode code point of its number, so that the text of the model is
      the text whose code points are below 256 (ASCII and the Latin-1
      supplement); [lower] and [strip] are [str.lower] and [str.strip] on
      these code points.
    - File contents are [list byte]; [os.path.getsize] is their length.
    - The operating system and pandas are outside the repository.  The
      file system is a value [FS] carried in the state, and the library
      functions the loader relies on ([pandas.read_csv], the text decoding
      done by [open(..., errors="ignore")], [pandas.to_numeric],
      [astype(float)]) are the fields of the class [Host]; every property
      below holds for every host.
    - Paths are joined as [posixpath.join] joins them.
    - Effects are explicit: a computation is a function from the state
      (file system and event log) to an outcome and a new state, so what
      was printed before an exception is raised stays in the log. *)

From Stdlib Require Import String Ascii List Bool Arith NArith Lia Permutation.
From Stdlib Require Import Strings.Byte.
Import ListNotations.

Local Open Scope string_scope.
Local Open Scope list_scope.
Local Open Scope nat_scope.

(* ===================================================================== *)
(** ** Python strings *)
(* ===================================================================== *)

Module PyStr.

(** [str.isspace] on one character, which is what [str.strip] removes:
    of the code points below 256, TAB, LF, VT, FF, CR (9 to 13), the four
    separators FS GS RS US and the space (28 to 32), NEXT LINE (133) and
    the no-break space (160). *)
Definition isspace (c : ascii) : bool :=
  let n := nat_of_ascii c in
  ((9 <=? n) && (n <=? 13)) || ((28 <=? n) && (n <=? 32)) || (n =? 133) || (n =? 160).

Fixpoint lstrip (s : string) : string :=
  match s with
  | EmptyString => EmptyString
  | String c s' => if isspace c then lstrip s' else s
  end.

(** [rstrip] keeps a character when it is not a space or when something
    that is kept follows it. *)
Fixpoint rstrip (s : string) : string :=
  match s with
  | EmptyString => EmptyString
  | String c s' =>
      match rstrip s' with
      | EmptyString => if isspace c then EmptyString else String c EmptyString
      | r => String c r
      end
  end.

Definition strip (s : string) : string := rstrip (lstrip s).

(** [str.lower] on one character: of the code points below 256 the
    capital letters are [A] to [Z] (65 to 90) and the Latin-1 capitals 192
    to 222 without the multiplication sign (215); the small letter of each
    is 32 further on. *)
Definition lower_char (c : ascii) : ascii :=
  let n := nat_of_ascii c in
  if ((65 <=? n) && (n <=? 90))
     || ((192 <=? n) && (n <=? 222) && negb (n =? 215))
  then ascii_of_nat (n + 32) else c.

Fixpoint lower (s : string) : string :=
  match s with
  | EmptyString => EmptyString
  | String c s' => String (lower_char c) (lower s')
  end.

(** [s.startswith(p)] *)
Fixpoint startswith (p s : string) : bool :=
  match p, s with
  | EmptyString, _ => true
  | String a p', String b s' => Ascii.eqb a b && startswith p' s'
  | String _ _, EmptyString => false
  end.

(** [sub in s] *)
Fixpoint contains (sub s : string) : bool :=
  startswith sub s ||
  match s with
  | EmptyString => false
  | String _ s' => contains sub s'
  end.

(** [s.replace(c, "")] for a one-character [c]. *)
Fixpoint remove_char (c : ascii) (s : string) : string :=
  match s with
  | EmptyString => EmptyString
  | String a s' => if Ascii.eqb a c then remove_char c s' else String a (remove_char c s')
  end.

(** [s.split(sep)] for a one-character separator: the fields between
    the occurrences of [sep]; never the empty list. *)
Fixpoint split (sep : ascii) (s : string) : list string :=
  match s with
  | EmptyString => [EmptyString]
  | String c s' =>
      if Ascii.eqb c sep then EmptyString :: split sep s'
      else match split sep s' with
           | [] => [String c EmptyString]
           | f :: fs => String c f :: fs
           end
  end.

(** Number of occurrences of a character. *)
Fixpoint count_char (c : ascii) (s : string) : nat :=
  match s with
  | EmptyString => 0
  | String a s' => (if Ascii.eqb a c then 1 else 0) + count_char c s'
  end.

(** ["".join(rows)] *)
Definition join_empty (rows : list string) : string := String.concat "" rows.

End PyStr.

(* ===================================================================== *)
(** ** Python dictionaries (insertion ordered) and [max] with a key *)
(* ===================================================================== *)

Module PyDict.
Section Dict.
Context {K V : Type} (eqb : K -> K -> bool).

Definition dict := list (K * V).

Fixpoint get (d : dict) (k : K) : option V :=
  match d with
  | [] => None
  | (k', v) :: d' => if eqb k k' then Some v else get d' k
  end.

Definition mem (d : dict) (k : K) : bool :=
  match get d k with Some _ => true | None => false end.

(** [d[k] = v]: an existing key keeps its place and takes the new
    value, a new key goes to the end. *)
Fixpoint set (d : dict) (k : K) (v : V) : dict :=
  match d with
  | [] => [(k, v)]
  | (k', v') :: d' => if eqb k k' then (k', v) :: d' else (k', v') :: set d' k v
  end.

(** [d.setdefault(k, v)] (the value it returns is not used by the
    loader). *)
Definition setdefault (d : dict) (k : K) (v : V) : dict :=
  if mem d k then d else set d k v.
End Dict.

(** [max(items, key=...)]: the first item whose key is maximal; [None]
    stands for the [ValueError] Python raises on an empty sequence. *)
Definition max_by {A : Type} (key : A -> nat) (l : list A) : option A :=
  match l with
  | [] => None
  | x :: l' => Some (fold_left (fun best y => if key best <? key y then y else best) l' x)
  end.
End PyDict.

(* ===================================================================== *)
(** ** Exceptions, events and the state *)
(* ===================================================================== *)

(** Python exceptions the loader raises or meets, one constructor per
    [raise] site of the source (the payload is what its message is built
    from), plus the library and interpreter exceptions that can cross the
    loader.  The specification's error tags are classes of these:
    NotFoundError is [FileNotFoundError], EmptyInputError is the
    [ValueError] of an empty file or directory, UnparsableInputError is
    [RuntimeError_Failed], ColumnNotFoundError is [KeyError_NoColumn] and
    EmptyResultError is [ValueError_NoNumeric]. *)
#[local] Set Warnings "-register-all".

Inductive exn : Type :=
| FileNotFoundError_NoCsv (base_dir : string)
| FileNotFoundError_DataFile (path : string)
| ValueError_AllEmpty (base_dir : string) (csvs : list string)
| ValueError_EmptyFile (path : string)
| ValueError_NoNumeric (found_col : string)
| ValueError_MaxEmpty
| EmptyDataError_NoColumns (label : string)
| EmptyDataError_Modal
| RuntimeError_ModalZero
| RuntimeError_Failed (path : string) (last_exc : option exn)
| KeyError_NoColumn (columns : list string)
| KeyError_Label (label : string)
| IndexError
| UnboundLocalError (name : string)
| TypeError_NotSeries
| StopIteration
| OSError (path : string)
| LibraryError (what : string).

Inductive exn_class : Type :=
| cls_FileNotFoundError | cls_ValueError | cls_EmptyDataError | cls_RuntimeError
| cls_KeyError | cls_IndexError | cls_UnboundLocalError | cls_TypeError
| cls_StopIteration | cls_OSError | cls_Other.

Definition class_of (e : exn) : exn_class :=
  match e with
  | FileNotFoundError_NoCsv _ | FileNotFoundError_DataFile _ => cls_FileNotFoundError
  | ValueError_AllEmpty _ _ | ValueError_EmptyFile _ | ValueError_NoNumeric _
  | ValueError_MaxEmpty => cls_ValueError
  | EmptyDataError_NoColumns _ | EmptyDataError_Modal => cls_EmptyDataError
  | RuntimeError_ModalZero | RuntimeError_Failed _ _ => cls_RuntimeError
  | KeyError_NoColumn _ | KeyError_Label _ => cls_KeyError
  | IndexError => cls_IndexError
  | UnboundLocalError _ => cls_UnboundLocalError
  | TypeError_NotSeries => cls_TypeError
  | StopIteration => cls_StopIteration
  | OSError _ => cls_OSError
  | LibraryError _ => cls_Other
  end.

(** Keyword arguments of [pandas.read_csv]; [None] is an argument the call
    does not pass. *)
Inductive encoding : Type := utf_8 | utf_8_sig | latin1.
Inductive engine : Type := python_engine.
Inductive sep_arg : Type := sep_None | sep_char (c : ascii).
Inductive bad_lines : Type := skip.
Inductive quoting_arg : Type := QUOTE_NONE.

Record read_kwargs : Type := mk_kwargs {
  kw_encoding : option encoding;
  kw_engine : option engine;
  kw_sep : option sep_arg;
  kw_on_bad_lines : option bad_lines;
  kw_quotechar : option ascii;
  kw_quoting : option quoting_arg
}.

(** What [read_csv] reads from: a path, or an in-memory [StringIO]. *)
Inductive source : Type :=
| SrcPath (path : string)
| SrcStringIO (text : string).

(** Lines the loader prints. *)
Inductive message : Type :=
| MsgReaderSuccess (label : string) (ncols nrows : nat)
| MsgSkipSuccess
| MsgQuoteNoneSuccess
| MsgModalAttempt
| MsgModalKept (kept total : nat) (sep : ascii) (cols : nat)
| MsgUsingFile (path : string) (size : N)
| MsgSingleNumeric (found_col : string)
| MsgLoaded (rows : nat) (found_col : string).

(** The log records what was printed, and each call of [read_csv] and of
    [open], in the order they happen. *)
Inductive event : Type :=
| EvPrint (m : message)
| EvReadCsv (src : source) (kw : read_kwargs)
| EvOpen (path : string).

(** A directory entry is a regular file with its bytes, or something that
    exists and has a size but cannot be read as a file (a directory, a file
    without read permission). *)
Inductive node : Type :=
| RegFile (content : list byte)
| Special (size : N).

Definition node_size (n : node) : N :=
  match n with
  | RegFile content => N.of_nat (length content)
  | Special size => size
  end.

(** The file system: what is at a path, and what [glob] lists for a
    pattern, in the order it lists it. *)
Record FS : Type := mk_FS {
  fs_node : string -> option node;
  fs_glob : string -> list string
}.

Record world : Type := mk_world {
  w_fs : FS;
  w_log : list event
}.

Inductive res (A : Type) : Type :=
| Ok (a : A)
| Raise (e : exn).
Arguments Ok {A} a.
Arguments Raise {A} e.

(** A computation of the loader. *)
Definition M (A : Type) : Type := world -> res A * world.

Definition ret {A} (a : A) : M A := fun w => (Ok a, w).

Definition raise {A} (e : exn) : M A := fun w => (Raise e, w).

Definition bind {A B} (m : M A) (k : A -> M B) : M B :=
  fun w => match m w with
           | (Ok a, w') => k a w'
           | (Raise e, w') => (Raise e, w')
           end.

(** [try: m  except Exception as e: h e] *)
Definition try_except {A} (m : M A) (h : exn -> M A) : M A :=
  fun w => match m w with
           | (Ok a, w') => (Ok a, w')
           | (Raise e, w') => h e w'
           end.

Declare Scope py_scope.
Delimit Scope py_scope with py.
Notation "x <- m ;; k" := (bind m (fun x => k))
  (at level 61, m at next level, right associativity) : py_scope.
Notation "m ;; k" := (bind m (fun _ => k))
  (at level 61, right associativity) : py_scope.
Local Open Scope py_scope.

Definition emit (e : event) : M unit :=
  fun w => (Ok tt, mk_world (w_fs w) (w_log w ++ [e])).

Definition print (m : message) : M unit := emit (EvPrint m).

(** What is at a path. *)
Definition stat (path : string) : M (option node) :=
  fun w => (Ok (fs_node (w_fs w) path), w).

(** [os.path.exists] *)
Definition os_path_exists (path : string) : M bool :=
  n <- stat path ;;
  ret (match n with Some _ => true | None => false end).

(** [os.path.getsize]; an [OSError] when nothing is at the path. *)
Definition os_path_getsize (path : string) : M N :=
  n <- stat path ;;
  match n with
  | Some n => ret (node_size n)
  | None => raise (OSError path)
  end.

Definition glob (pattern : string) : M (list string) :=
  fun w => (Ok (fs_glob (w_fs w) pattern), w).

(** [posixpath.join] of two components. *)
Definition endswith_slash (s : string) : bool :=
  match String.length s with
  | 0 => false
  | S n => match String.get n s with Some c => Ascii.eqb c "/" | None => false end
  end.

Definition os_path_join (a b : string) : string :=
  if PyStr.startswith "/" b then b
  else if (String.length a =? 0) || endswith_slash a then String.append a b
  else String.append a (String.append "/" b).

(** [open(path, "r", encoding="utf-8", errors="ignore")]: the bytes of a
    regular file; an [OSError] for anything else.  Decoding them to lines
    is the library's part, see [decode_lines] below. *)
Definition open_file (path : string) : M (list byte) :=
  emit (EvOpen path) ;;
  n <- stat path ;;
  match n with
  | Some (RegFile content) => ret content
  | _ => raise (OSError path)
  end.

(** A local variable of a Python function: not yet assigned, or holding a
    value. *)
Inductive pyvar (A : Type) : Type :=
| Unbound
| Bound (a : A).
Arguments Unbound {A}.
Arguments Bound {A} a.

(** [[next(f) for _ in range(n)]] on the lines [f] still has: the first
    [n] lines, or [None] for the [StopIteration] of an exhausted file. *)
Fixpoint next_lines (n : nat) (f : list string) : option (list string) :=
  match n with
  | 0 => Some []
  | S n' =>
      match f with
      | [] => None
      | ln :: f' =>
          match next_lines n' f' with
          | Some ls => Some (ln :: ls)
          | None => None
          end
      end
  end.

(** [list.sort(key=lambda t: t[1], reverse=True)]: stable, so entries of
    equal size keep the order they had. *)
Fixpoint insert_desc (x : string * N) (l : list (string * N)) : list (string * N) :=
  match l with
  | [] => [x]
  | y :: l' => if (snd x <? snd y)%N then y :: insert_desc x l' else x :: y :: l'
  end.

Fixpoint sort_desc (l : list (string * N)) : list (string * N) :=
  match l with
  | [] => []
  | x :: l' => insert_desc x (sort_desc l')
  end.

(* ===================================================================== *)
(** ** Tables *)
(* ===================================================================== *)

Record Column (cell : Type) : Type := mk_Column {
  col_numeric : bool;
  col_cells : list cell
}.
Arguments mk_Column {cell} col_numeric col_cells.
Arguments col_numeric {cell} c.
Arguments col_cells {cell} c.

(** A [DataFrame]: its column labels with their columns, in order. *)
Record DataFrame (cell : Type) : Type := mk_DataFrame {
  df_cols : list (string * Column cell)
}.
Arguments mk_DataFrame {cell} df_cols.
Arguments df_cols {cell} d.

Definition columns {cell} (df : DataFrame cell) : list string := map fst (df_cols df).

(** [df.shape[1]] and [len(df)] *)
Definition ncols {cell} (df : DataFrame cell) : nat := length (df_cols df).

Definition nrows {cell} (df : DataFrame cell) : nat :=
  match df_cols df with
  | [] => 0
  | (_, c) :: _ => length (col_cells c)
  end.

(** [df.columns = labels] *)
Definition set_columns {cell} (df : DataFrame cell) (labels : list string)
  : DataFrame cell :=
  mk_DataFrame (combine labels (map snd (df_cols df))).

(** [df[c]]: a Series when one column carries the label, a frame when
    several do, a [KeyError] when none does. *)
Inductive selection (cell : Type) : Type :=
| Series (c : Column cell)
| Frame (cs : list (Column cell)).
Arguments Series {cell} c.
Arguments Frame {cell} cs.

Definition getitem {cell} (df : DataFrame cell) (c : string) : res (selection cell) :=
  match filter (fun kc => String.eqb (fst kc) c) (df_cols df) with
  | [] => Raise (KeyError_Label c)
  | [(_, col)] => Ok (Series col)
  | kcs => Ok (Frame (map snd kcs))
  end.

(** What [read_csv] is given to parse. *)
Inductive input : Type :=
| InBytes (content : list byte)
| InText (text : string).

Definition lift {A} (r : res A) : M A := fun w => (r, w).

(* ===================================================================== *)
(** ** What lies outside the repository *)
(* ===================================================================== *)

(** The Python installation the module runs in.  Its fields are the
    cells of a parsed table, the numbers [pandas.to_numeric] produces and
    the floats of the final array; [pandas.to_numeric(_, errors="coerce")]
    on one cell, with [None] for NaN; [astype(float)] on one number;
    [pandas.read_csv] on given data with given keyword arguments; the lines
    a text-mode file object yields for given bytes, decoded as UTF-8 with
    undecodable bytes ignored; and [BASE_DIR], the directory of the module
    file. *)
Class Host : Type := mk_Host {
  cell : Type;
  num : Type;
  float : Type;
  to_numeric : cell -> option num;
  astype_float : num -> float;
  pandas_read_csv : input -> read_kwargs -> res (DataFrame cell);
  decode_lines : list byte -> list string;
  BASE_DIR : string
}.

(* ===================================================================== *)
(** ** The loader *)
(* ===================================================================== *)

Section Loader.
Context {hst : Host}.

Definition PREFERRED_FILENAME : string := "live_air_quality.csv".
Definition DATA_FILE : string := os_path_join BASE_DIR "air_quality_data.csv".

(** [pd.read_csv(src, **kw)] *)
Definition pd_read_csv (src : source) (kw : read_kwargs) : M (DataFrame cell) :=
  emit (EvReadCsv src kw) ;;
  match src with
  | SrcStringIO text => lift (pandas_read_csv (InText text) kw)
  | SrcPath path =>
      n <- stat path ;;
      match n with
      | Some (RegFile content) => lift (pandas_read_csv (InBytes content) kw)
      | _ => raise (OSError path)
      end
  end.

(** *** [find_best_csv] *)

(** [os.path.exists(p) and os.path.getsize(p) > 0] *)
Definition exists_nonempty (p : string) : M bool :=
  e <- os_path_exists p ;;
  if e then (sz <- os_path_getsize p ;; ret (0 <? sz)%N) else ret false.

(** [[(p, os.path.getsize(p)) for p in csvs if os.path.getsize(p) > 0]] *)
Fixpoint non_empty_of (csvs : list string) : M (list (string * N)) :=
  match csvs with
  | [] => ret []
  | p :: rest =>
      sz <- os_path_getsize p ;;
      if (0 <? sz)%N then
        sz' <- os_path_getsize p ;;
        tl <- non_empty_of rest ;;
        ret ((p, sz') :: tl)
      else non_empty_of rest
  end.

Definition find_best_csv (base_dir preferred : string) : M string :=
  let pref_path := os_path_join base_dir preferred in
  c <- exists_nonempty pref_path ;;
  if c then ret pref_path else
  c <- exists_nonempty DATA_FILE ;;
  if c then ret DATA_FILE else
  csvs <- glob (os_path_join base_dir "*.csv") ;;
  match csvs with
  | [] => raise (FileNotFoundError_NoCsv base_dir)
  | _ =>
      non_empty <- non_empty_of csvs ;;
      match non_empty with
      | [] => raise (ValueError_AllEmpty base_dir csvs)
      | _ =>
          match sort_desc non_empty with
          | t :: _ => ret (fst t)
          | [] => raise IndexError
          end
      end
  end.

(** *** [_try_read] *)

Record attempt : Type := mk_attempt {
  att_kwargs : read_kwargs;
  att_label : string
}.

Definition attempts : list attempt :=
  [ mk_attempt (mk_kwargs (Some utf_8) None None None None None) "utf-8 (default engine)";
    mk_attempt (mk_kwargs (Some utf_8_sig) None None None None None) "utf-8-sig (BOM)";
    mk_attempt (mk_kwargs (Some latin1) None None None None None) "latin1";
    mk_attempt (mk_kwargs None (Some python_engine) (Some sep_None) None None None)
               "python engine, auto-sep" ].

Definition kwargs_skip : read_kwargs :=
  mk_kwargs (Some utf_8) (Some python_engine) (Some sep_None) (Some skip) None None.

Definition kwargs_quote_none : read_kwargs :=
  mk_kwargs (Some latin1) (Some python_engine) (Some sep_None) (Some skip)
            (Some "034"%char) (Some QUOTE_NONE).

Definition kwargs_sep (chosen_sep : ascii) : read_kwargs :=
  mk_kwargs None None (Some (sep_char chosen_sep)) None None None.

(** The result of one block of [_try_read]: [inl df] when the block
    executes [return df], [inr last_exc] when control goes on to the next
    block with that value of the variable [last_exc]. *)
Definition flow : Type := (DataFrame cell + option exn)%type.

(** Running the blocks in sequence: a block that returns ends the
    function. *)
Definition and_then (m : M flow) (next : option exn -> M flow) : M flow :=
  r <- m ;;
  match r with
  | inl df => ret (inl df)
  | inr last_exc => next last_exc
  end.

(** The body of the [for att in attempts] loop. *)
Definition attempt_strict (path : string) (att : attempt) : M flow :=
  try_except
    (df <- pd_read_csv (SrcPath path) (att_kwargs att) ;;
     if ncols df =? 0 then raise (EmptyDataError_NoColumns (att_label att))
     else
       print (MsgReaderSuccess (att_label att) (length (columns df)) (nrows df)) ;;
       ret (inl df))
    (fun e => ret (inr (Some e))).

(** The loop: a round that does not return goes on to the next one. *)
Fixpoint attempts_loop (path : string) (atts : list attempt) (last_exc : option exn)
  : M flow :=
  match atts with
  | [] => ret (inr last_exc)
  | att :: rest => and_then (attempt_strict path att) (attempts_loop path rest)
  end.

(** The two blocks that skip bad lines: a table without columns is passed
    over without touching [last_exc]. *)
Definition attempt_lenient (path : string) (kw : read_kwargs) (success : message)
    (last_exc : option exn) : M flow :=
  try_except
    (df <- pd_read_csv (SrcPath path) kw ;;
     if 0 <? ncols df then print success ;; ret (inl df)
     else ret (inr last_exc))
    (fun e => ret (inr (Some e))).

(** The first [try] of the last resort: the variable [sample_lines]
    afterwards.  The assignment is reached only when all 2000 calls of
    [next] return; [StopIteration] is passed over; any other exception
    assigns [None]. *)
Definition read_sample (path : string) : M (pyvar (option (list string))) :=
  try_except
    (print MsgModalAttempt ;;
     content <- open_file path ;;
     match next_lines 2000 (decode_lines content) with
     | Some sample_lines => ret (Bound (Some sample_lines))
     | None => raise StopIteration
     end)
    (fun e => match e with
              | StopIteration => ret Unbound
              | _ => ret (Bound None)
              end).

(** [modal_count(lines, sep)]: the first most frequent field count with its
    frequency. *)
Definition count_fields (sep : ascii) (counts : list (nat * nat)) (ln : string)
  : list (nat * nat) :=
  let n := length (PyStr.split sep ln) in
  let counts := PyDict.setdefault Nat.eqb counts n 0 in
  PyDict.set Nat.eqb counts n
    (match PyDict.get Nat.eqb counts n with Some v => v + 1 | None => 1 end).

Definition modal_count (lines : list string) (sep : ascii) : option (nat * nat) :=
  PyDict.max_by snd (fold_left (count_fields sep) lines []).

(** The streaming pass: [(cleaned_rows, kept, total)] after the lines. *)
Definition keep_row (chosen_sep : ascii) (modal_cols : nat)
    (st : list string * nat * nat) (line : string) : list string * nat * nat :=
  let '(cleaned_rows, kept, total) := st in
  let total := total + 1 in
  if length (PyStr.split chosen_sep line) =? modal_cols
  then (cleaned_rows ++ [line], kept + 1, total)
  else (cleaned_rows, kept, total).

Definition stream_rows (chosen_sep : ascii) (modal_cols : nat) (f : list string)
  : list string * nat * nat :=
  fold_left (keep_row chosen_sep modal_cols) f ([], 0, 0).

(** The body of [if sample_lines:]. *)
Definition modal_clean (path : string) (sample_lines : list string) : M flow :=
  match modal_count sample_lines ",", modal_count sample_lines ";" with
  | Some comma_mode, Some semi_mode =>
      let chosen_sep := if snd semi_mode <=? snd comma_mode then ","%char else ";"%char in
      let modal_cols :=
        if Ascii.eqb chosen_sep "," then fst comma_mode else fst semi_mode in
      content <- open_file path ;;
      let '(cleaned_rows, kept, total) :=
        stream_rows chosen_sep modal_cols (decode_lines content) in
      if kept =? 0 then ret (inr (Some RuntimeError_ModalZero))
      else
        try_except
          (df <- pd_read_csv (SrcStringIO (PyStr.join_empty cleaned_rows))
                             (kwargs_sep chosen_sep) ;;
           print (MsgModalKept kept total chosen_sep modal_cols) ;;
           if ncols df =? 0 then raise EmptyDataError_Modal
           else ret (inl df))
          (fun e => ret (inr (Some e)))
  | _, _ => raise ValueError_MaxEmpty
  end.

(** The last resort from [if sample_lines:] on: reading an unbound
    variable is an [UnboundLocalError]; [None] and the empty list are
    false. *)
Definition modal_stage (path : string) (sample_lines : pyvar (option (list string)))
    (last_exc : option exn) : M flow :=
  match sample_lines with
  | Unbound => raise (UnboundLocalError "sample_lines")
  | Bound None => ret (inr last_exc)
  | Bound (Some []) => ret (inr last_exc)
  | Bound (Some lines) => modal_clean path lines
  end.

Definition _try_read (path : string) : M (DataFrame cell) :=
  r <- and_then (attempts_loop path attempts None) (fun last_exc =>
       and_then (attempt_lenient path kwargs_skip MsgSkipSuccess last_exc) (fun last_exc =>
       and_then (attempt_lenient path kwargs_quote_none MsgQuoteNoneSuccess last_exc)
         (fun last_exc =>
            sample_lines <- read_sample path ;;
            modal_stage path sample_lines last_exc))) ;;
  match r with
  | inl df => ret df
  | inr last_exc => raise (RuntimeError_Failed path last_exc)
  end.

(** *** [load_data] *)

Definition candidates : list string :=
  [ "pm25"; "pm_25"; "pm2_5"; "pm2.5"; "pm2_5(ug/m3)"; "pm2.5(ug/m3)";
    "pm2_5_ug_m3"; "pm25_ugm3"; "pm2_5_ugm3"; "pm_2_5"; "pm25 (ug/m3)";
    "pm2.5_ugm3"; "pm2_5_ug/m3" ].

(** [{col.lower(): col for col in df.columns}] *)
Definition make_col_map (cols : list string) : list (string * string) :=
  fold_left (fun col_map col => PyDict.set String.eqb col_map (PyStr.lower col) col) cols [].

(** The [for cand in candidates] loop with its [break]: [found_col]
    afterwards. *)
Fixpoint match_candidates (col_map : list (string * string)) (cands : list string)
  : option string :=
  match cands with
  | [] => None
  | cand :: rest =>
      if PyDict.mem String.eqb col_map (PyStr.lower cand)
      then PyDict.get String.eqb col_map (PyStr.lower cand)
      else match_candidates col_map rest
  end.

(** The test of the [for col in df.columns] loop. *)
Definition looks_like_pm25 (col : string) : bool :=
  let lc := PyStr.lower col in
  PyStr.contains "pm2" lc || PyStr.contains "pm 2" lc || PyStr.contains "pm2.5" lc
  || PyStr.startswith "pm25" (PyStr.remove_char "_" (PyStr.remove_char "." lc)).

(** [pd.api.types.is_numeric_dtype(df[c])]; a frame has no dtype. *)
Definition is_numeric_dtype (df : DataFrame cell) (c : string) : M bool :=
  s <- lift (getitem df c) ;;
  match s with
  | Series col => ret (col_numeric col)
  | Frame _ => ret false
  end.

(** [[c for c in cols if pd.api.types.is_numeric_dtype(df[c])]] *)
Fixpoint numeric_cols_of (df : DataFrame cell) (cols : list string) : M (list string) :=
  match cols with
  | [] => ret []
  | c :: rest =>
      b <- is_numeric_dtype df c ;;
      tl <- numeric_cols_of df rest ;;
      ret (if b then c :: tl else tl)
  end.

(** Lines 146 to 183: the column labels are trimmed, then [found_col] is
    looked for; the result is the table with its new labels and the
    column found. *)
Definition select_column (df : DataFrame cell) : M (DataFrame cell * string) :=
  let df := set_columns df (map PyStr.strip (columns df)) in
  let col_map := make_col_map (columns df) in
  let found_col := match_candidates col_map candidates in
  let found_col :=
    match found_col with
    | None => find looks_like_pm25 (columns df)
    | Some _ => found_col
    end in
  found_col <-
    match found_col with
    | None =>
        numeric_cols <- numeric_cols_of df (columns df) ;;
        match numeric_cols with
        | [c] => print (MsgSingleNumeric c) ;; ret (Some c)
        | _ =>
            if PyDict.mem String.eqb col_map "value"
            then ret (PyDict.get String.eqb col_map "value")
            else if PyDict.mem String.eqb col_map "measurement"
            then ret (PyDict.get String.eqb col_map "measurement")
            else ret None
        end
    | Some _ => ret found_col
    end ;;
  match found_col with
  | None => raise (KeyError_NoColumn (columns df))
  | Some c => ret (df, c)
  end.

(** [series.dropna()] after [pd.to_numeric(series, errors="coerce")] *)
Fixpoint coerce_dropna (cells : list cell) : list num :=
  match cells with
  | [] => []
  | x :: rest =>
      match to_numeric x with
      | Some v => v :: coerce_dropna rest
      | None => coerce_dropna rest
      end
  end.

(** Lines 185 to 193.  The n-by-1 array returned is represented by the
    list of its n entries. *)
Definition coerce_column (df : DataFrame cell) (found_col : string) : M (list float) :=
  sel <- lift (getitem df found_col) ;;
  match sel with
  | Frame _ => raise TypeError_NotSeries
  | Series col =>
      let series := coerce_dropna (col_cells col) in
      match series with
      | [] => raise (ValueError_NoNumeric found_col)
      | _ =>
          let arr := map astype_float series in
          print (MsgLoaded (length arr) found_col) ;;
          ret arr
      end
  end.

Definition load_data (path : option string) : M (list float) :=
  path <- match path with
          | None => find_best_csv BASE_DIR PREFERRED_FILENAME
          | Some p => ret p
          end ;;
  e <- os_path_exists path ;;
  if negb e then raise (FileNotFoundError_DataFile path) else
  sz <- os_path_getsize path ;;
  if (sz =? 0)%N then raise (ValueError_EmptyFile path) else
  sz <- os_path_getsize path ;;
  print (MsgUsingFile path sz) ;;
  df <- _try_read path ;;
  sel <- select_column df ;;
  coerce_column (fst sel) (snd sel).

(* ===================================================================== *)
(** ** Notions of the specification *)
(* ===================================================================== *)

(** *** The state *)

(** The state after some more events. *)
Definition extend (w : world) (evs : list event) : world :=
  mk_world (w_fs w) (w_log w ++ evs).

(** A computation reads nothing but the file system and writes nothing but
    new events at the end of the log: its outcome and the events it adds
    are functions of the file system alone. *)
Definition reads_only_fs {A} (m : M A) : Prop :=
  forall fs, exists r evs, forall log, m (mk_world fs log) = (r, mk_world fs (log ++ evs)).

(** *** The ladder of parsing strategies *)

(** The seven strategies of the specification, in its order. *)
Inductive strategy : Type :=
| strict_utf8
| strict_utf8_bom
| strict_latin1
| lenient_auto
| lenient_auto_skip
| lenient_quote_literal
| modal_reconstruction.

Definition ladder : list strategy :=
  [ strict_utf8; strict_utf8_bom; strict_latin1; lenient_auto; lenient_auto_skip;
    lenient_quote_literal; modal_reconstruction ].

(** What the specification says of each strategy that is a [read_csv] of
    the file: strict parses name an encoding and leave the delimiter at its
    default, the comma; lenient parses use the Python engine and detect the
    delimiter; two of them skip malformed rows; the last one also takes
    quote characters literally and reads Latin-1. *)
Definition strategy_kwargs (s : strategy) : option read_kwargs :=
  match s with
  | strict_utf8 => Some (mk_kwargs (Some utf_8) None None None None None)
  | strict_utf8_bom => Some (mk_kwargs (Some utf_8_sig) None None None None None)
  | strict_latin1 => Some (mk_kwargs (Some latin1) None None None None None)
  | lenient_auto => Some (mk_kwargs None (Some python_engine) (Some sep_None) None None None)
  | lenient_auto_skip =>
      Some (mk_kwargs (Some utf_8) (Some python_engine) (Some sep_None) (Some skip) None None)
  | lenient_quote_literal =>
      Some (mk_kwargs (Some latin1) (Some python_engine) (Some sep_None) (Some skip)
                      (Some "034"%char) (Some QUOTE_NONE))
  | modal_reconstruction => None
  end.

(** The event with which a strategy begins: its [read_csv] of the file, or
    the announcement of the modal cleaner. *)
Definition start_event (path : string) (s : strategy) : event :=
  match strategy_kwargs s with
  | Some kw => EvReadCsv (SrcPath path) kw
  | None => EvPrint MsgModalAttempt
  end.

Definition is_start (e : event) : bool :=
  match e with
  | EvReadCsv (SrcPath _) _ => true
  | EvPrint MsgModalAttempt => true
  | _ => false
  end.

(** What [read_csv] makes of the file at a path. *)
Definition read_outcome (fs : FS) (path : string) (kw : read_kwargs) : res (DataFrame cell) :=
  match fs_node fs path with
  | Some (RegFile content) => pandas_read_csv (InBytes content) kw
  | _ => Raise (OSError path)
  end.

(** The variable [sample_lines] after the first [try] of the last resort. *)
Definition sample_of (fs : FS) (path : string) : pyvar (option (list string)) :=
  match fs_node fs path with
  | Some (RegFile content) =>
      match next_lines 2000 (decode_lines content) with
      | Some sample_lines => Bound (Some sample_lines)
      | None => Unbound
      end
  | _ => Bound None
  end.

(** The last resort taken alone, on an empty log. *)
Definition modal_outcome (fs : FS) (path : string) : res flow :=
  fst ((sample_lines <- read_sample path ;; modal_stage path sample_lines None)
         (mk_world fs [])).

(** A strategy yields a table: it returns one that has a column. *)
Definition yields (fs : FS) (path : string) (s : strategy) (df : DataFrame cell) : Prop :=
  match strategy_kwargs s with
  | Some kw => read_outcome fs path kw = Ok df /\ 0 < ncols df
  | None => modal_outcome fs path = Ok (inl df)
  end.

Definition fails (fs : FS) (path : string) (s : strategy) : Prop :=
  forall df, ~ yields fs path s df.

(** A block of [_try_read] goes through the strategies [ss] in order: the
    strategies it begins are a prefix [done] of [ss]; when it returns a
    table, that table is what the last strategy begun yields and all
    before it failed; otherwise all of [ss] were begun and failed.  Only a
    block for which [may_raise] holds lets an exception out. *)
Definition goes_through (fs : FS) (path : string) (may_raise : Prop)
    (m : M flow) (ss : list strategy) : Prop :=
  forall log, exists done rest evs,
    ss = done ++ rest /\
    snd (m (mk_world fs log)) = mk_world fs (log ++ evs) /\
    filter is_start evs = map (start_event path) done /\
    match fst (m (mk_world fs log)) with
    | Ok (inl df) =>
        exists failed last, done = failed ++ [last] /\
          Forall (fails fs path) failed /\ yields fs path last df
    | Ok (inr _) => Forall (fails fs path) done /\ rest = []
    | Raise _ => Forall (fails fs path) done /\ rest = [] /\ may_raise
    end.

(** *** The modal column count *)

(** The test of the streaming pass: the line splits into [n] fields. *)
Definition has_fields (sep : ascii) (n : nat) (line : string) : bool :=
  length (PyStr.split sep line) =? n.

(** The separator and the column count the cleaner settles on. *)
Definition chosen (comma_mode semi_mode : nat * nat) : ascii * nat :=
  if snd semi_mode <=? snd comma_mode then (","%char, fst comma_mode)
  else (";"%char, fst semi_mode).

(** The number of fields of a line is one more than the number of
    separators in it. *)
Definition nfields (sep : ascii) (ln : string) : nat := S (PyStr.count_char sep ln).

(** How many lines of the sample have [n] fields. *)
Definition frequency (sep : ascii) (sample : list string) (n : nat) : nat :=
  length (filter (fun ln => nfields sep ln =? n) sample).

(** [n] is a most frequent field count of the sample, occurring [f] times. *)
Definition is_mode (sep : ascii) (sample : list string) (n f : nat) : Prop :=
  f = frequency sep sample n /\ 0 < f /\ forall m, frequency sep sample m <= f.

(** *** Usable files *)

(** The size of what is at a path, 0 when nothing is there; a path is a
    usable file when that size is positive, which is the test
    [os.path.exists(p) and os.path.getsize(p) > 0]. *)
Definition size_of (fs : FS) (p : string) : N :=
  match fs_node fs p with
  | Some n => node_size n
  | None => 0%N
  end.

Definition usable (fs : FS) (p : string) : bool := (0 <? size_of fs p)%N.

(** Every path [glob] lists for the pattern is present. *)
Definition glob_sound (fs : FS) (pattern : string) : Prop :=
  forall p, In p (fs_glob fs pattern) -> fs_node fs p <> None.

(** *** The rules for the target column, on the trimmed headers *)

Definition is_some {A} (o : option A) : bool :=
  match o with Some _ => true | None => false end.

(** The last header whose lowercase form is [k]. *)
Definition last_with_lower (cols : list string) (k : string) : option string :=
  find (fun h => String.eqb (PyStr.lower h) k) (rev cols).

(** Rule 1: the first alias, in the order of the list, that some header
    equals when case is ignored; it resolves to the last such header. *)
Definition rule_alias (cols : list string) : option string :=
  match find (fun a => existsb (fun h => String.eqb (PyStr.lower h) (PyStr.lower a)) cols)
             candidates with
  | Some a => last_with_lower cols (PyStr.lower a)
  | None => None
  end.

(** Rule 2: the first header whose lowercase form contains [pm2] or
    [pm 2], or begins with [pm25] once dots and underscores are removed. *)
Definition rule_substring (cols : list string) : option string :=
  find looks_like_pm25 cols.

(** Rule 3: the header of the only numeric column, when exactly one
    column of the table is numeric. *)
Definition numeric_columns (df : DataFrame cell) : list string :=
  map fst (filter (fun kc => col_numeric (snd kc)) (df_cols df)).

Definition rule_single_numeric (df : DataFrame cell) : option string :=
  match numeric_columns df with
  | [c] => Some c
  | _ => None
  end.

(** The list [numeric_cols] of line 168, read off the table: the labels
    [c], one entry for each column, for which [df[c]] is a numeric
    Series. *)
Definition numeric_label (df : DataFrame cell) (c : string) : bool :=
  match getitem df c with
  | Ok (Series col) => col_numeric col
  | _ => false
  end.

Definition numeric_cols (df : DataFrame cell) : list string :=
  filter (numeric_label df) (columns df).

(** Its only entry, when [len(numeric_cols) == 1] (line 169). *)
Definition single_numeric_col (df : DataFrame cell) : option string :=
  match numeric_cols df with
  | [c] => Some c
  | _ => None
  end.

(** Rule 4: a header [value], else a header [measurement], case ignored. *)
Definition rule_generic (cols : list string) : option string :=
  match last_with_lower cols "value" with
  | Some h => Some h
  | None => last_with_lower cols "measurement"
  end.

End Loader.

(* ===================================================================== *)
(** ** Preparing the training data and training *)
(* ===================================================================== *)

(** An n-by-1 array is the list of its n entries, as for [load_data].
    The step [time_step] is taken to be a non-negative number. *)

(** [data[i:j, 0]]: the entries from [i] up to [j], as far as there are
    any. *)
Definition slice {A} (data : list A) (i j : nat) : list A :=
  firstn (j - i) (skipn i data).

(** [data[i, 0]]; an [IndexError] beyond the end. *)
Definition item {A} (data : list A) (i : nat) : res A :=
  match nth_error data i with
  | Some v => Ok v
  | None => Raise IndexError
  end.

(** The [for i in range(...)] loop of [prepare_data]: [X] and [y] after
    the rounds for the indices given. *)
Fixpoint prepare_loop {A} (data : list A) (time_step : nat) (range : list nat)
    (X : list (list A)) (y : list A) : res (list (list A) * list A) :=
  match range with
  | [] => Ok (X, y)
  | i :: rest =>
      let X := X ++ [slice data i (i + time_step)] in
      match item data (i + time_step) with
      | Ok v => prepare_loop data time_step rest X (y ++ [v])
      | Raise e => Raise e
      end
  end.

(** [range(len(data) - time_step - 1)] is empty when the difference is
    not positive, as the subtraction on [nat] has it. *)
Definition prepare_data {A} (data : list A) (time_step : nat)
  : res (list (list A) * list A) :=
  prepare_loop data time_step (seq 0 (length data - time_step - 1)) [] [].

(** [np.array(X).size] for a list of rows. *)
Definition array_size {A} (X : list (list A)) : nat :=
  list_sum (map (@length A) X).

(** scikit-learn, for [train_model]:
    [MinMaxScaler(feature_range=(0, 1)).fit(data)] gives the transform of
    one value of the single column, or [None] when it refuses the data. *)
Class Sklearn {hst : Host} : Type := mk_Sklearn {
  fit_scaler : list float -> option (float -> float)
}.

(** Where a call of [train_model] ends: in an exception of [load_data], of
    the scaler or of [prepare_data], in its own [ValueError] for too little
    data, or at line 224 with the training set. *)
Inductive train_outcome (R : Type) : Type :=
| LoadFailed (e : exn)
| ScalerFailed
| PrepareFailed (e : exn)
| NotEnoughData
| Reached (r : R).
Arguments LoadFailed {R} e.
Arguments ScalerFailed {R}.
Arguments PrepareFailed {R} e.
Arguments NotEnoughData {R}.
Arguments Reached {R} r.

Section Training.
Context {hst : Host} {skl : Sklearn}.

(** [train_model] up to its last check.  What follows it (lines 224 to
    231: Keras builds and fits the model, the model and the scaler are
    saved) is the parameter [fit_and_save], which is given the scaler, [X],
    [y] and the state. *)
Definition train_model {R : Type}
    (fit_and_save : (float -> float) -> list (list float) -> list float -> world -> R)
    (w : world) : train_outcome R * world :=
  match load_data None w with
  | (Raise e, w') => (LoadFailed e, w')
  | (Ok data, w') =>
      match fit_scaler data with
      | None => (ScalerFailed, w')
      | Some scaler =>
          let scaled_data := map scaler data in
          let time_step := 10 in
          match prepare_data scaled_data time_step with
          | Raise e => (PrepareFailed e, w')
          | Ok (X, y) =>
              if array_size X =? 0 then (NotEnoughData, w')
              else (Reached (fit_and_save scaler X y w'), w')
          end
      end
  end.

End Training.

(* ===================================================================== *)
(** ** Concrete files and runs *)
(* ===================================================================== *)

(** A small stand-in for the libraries, to run the loader on concrete
    files: cells are strings, a cell is numeric when it is a non-empty
    string of decimal digits, and a text file is ASCII with lines ending
    in LF. *)
Definition digit_of (c : ascii) : option N :=
  let n := nat_of_ascii c in
  if (48 <=? n) && (n <=? 57) then Some (N.of_nat (n - 48)) else None.

Fixpoint digits_value (s : string) (acc : N) : option N :=
  match s with
  | EmptyString => Some acc
  | String c s' =>
      match digit_of c with
      | Some d => digits_value s' (10 * acc + d)%N
      | None => None
      end
  end.

Definition digits_to_numeric (s : string) : option N :=
  match s with
  | EmptyString => None
  | _ => digits_value s 0%N
  end.

Definition keep_number (n : N) : N := n.

Fixpoint lines_of (content : list byte) : list string :=
  match content with
  | [] => []
  | b :: rest =>
      let c := ascii_of_byte b in
      if Ascii.eqb c "010" then String c EmptyString :: lines_of rest
      else match lines_of rest with
           | [] => [String c EmptyString]
           | ln :: lns => String c ln :: lns
           end
  end.

Definition bytes_of (s : string) : list byte := list_byte_of_string s.

(** A file system given by its entries and by what [glob] lists for each
    pattern. *)
Definition fs_of (entries : list (string * node)) (listings : list (string * list string))
  : FS :=
  mk_FS (fun p => PyDict.get String.eqb entries p)
        (fun pattern => match PyDict.get String.eqb listings pattern with
                        | Some l => l
                        | None => []
                        end).

(** A [read_csv] that refuses everything. *)
Definition pandas_refuses : input -> read_kwargs -> res (DataFrame string) :=
  fun _ _ => Raise (LibraryError "ParserError").

(** A stand-in for [read_csv] that refuses what pandas refuses in two
    well-known cases and reads the rest as text.  The default engine
    skips blank lines and takes the first line left as the header; it
    raises a [ParserError] ("Expected n fields in line k, saw m") when a
    line after the first data line has more fields than the header and
    the first data line have.  With [sep=None] the Python engine detects
    the delimiter from the very first line of the file and raises a
    [csv.Error] ("Could not determine delimiter") when that line is
    blank.  A column is numeric when all its cells are numbers. *)
Fixpoint chomp (ln : string) : string :=
  match ln with
  | EmptyString => EmptyString
  | String c EmptyString => if Ascii.eqb c "010" then EmptyString else ln
  | String c rest => String c (chomp rest)
  end.

Definition is_blank (ln : string) : bool :=
  match chomp ln with
  | EmptyString => true
  | _ => false
  end.

Definition fields_of (sep : ascii) (lines : list string) : list (list string) :=
  map (fun ln => PyStr.split sep (chomp ln)) (filter (fun ln => negb (is_blank ln)) lines).

Definition too_many_fields (rows : list (list string)) : bool :=
  match rows with
  | header :: first :: rest =>
      existsb (fun r => Nat.max (length header) (length first) <? length r) rest
  | _ => false
  end.

Definition table_of (rows : list (list string)) : DataFrame string :=
  match rows with
  | [] => mk_DataFrame []
  | header :: data =>
      mk_DataFrame
        (map (fun j =>
                let cells := map (fun r => nth j r EmptyString) data in
                (nth j header EmptyString,
                 mk_Column (forallb (fun x => is_some (digits_to_numeric x)) cells) cells))
             (seq 0 (length header)))
  end.

Definition parse_rows (sep : ascii) (lines : list string) : res (DataFrame string) :=
  match fields_of sep lines with
  | [] => Raise (LibraryError "EmptyDataError")
  | rows => if too_many_fields rows then Raise (LibraryError "ParserError")
            else Ok (table_of rows)
  end.

Definition pandas_like : input -> read_kwargs -> res (DataFrame string) :=
  fun i kw =>
    let lines := lines_of (match i with
                           | InBytes content => content
                           | InText text => bytes_of text
                           end) in
    match kw_sep kw with
    | Some sep_None =>
        match lines with
        | [] => Raise (LibraryError "EmptyDataError")
        | first :: _ =>
            if is_blank first then Raise (LibraryError "csv.Error")
            else parse_rows "," lines
        end
    | Some (sep_char c) => parse_rows c lines
    | None => parse_rows "," lines
    end.

(** A [read_csv] that reads every file as one given table. *)
Definition pandas_returns (df : DataFrame string)
  : input -> read_kwargs -> res (DataFrame string) :=
  fun i _ =>
    match i with
    | InBytes _ => Ok df
    | InText _ => Raise (LibraryError "ParserError")
    end.

(** A file of one empty line. *)
Definition fs_blank : FS := fs_of [("/data/blank.csv", RegFile (bytes_of "
"))] [].

(** A file of 2001 lines: a blank line, 400 rows of four fields, then
    1600 rows of five fields. *)
Definition ragged_content : list byte :=
  bytes_of "
" ++ concat (repeat (bytes_of "1,2,3,4
") 400) ++ concat (repeat (bytes_of "1,2,3,4,5
") 1600).

Definition fs_ragged : FS := fs_of [("/data/ragged.csv", RegFile ragged_content)] [].

(** The stand-in host with a given [read_csv]; the module lives in
    [/app]. *)
Definition toy_host (pandas : input -> read_kwargs -> res (DataFrame string)) : Host :=
  mk_Host string N N digits_to_numeric keep_number pandas lines_of "/app".

(** A table with a column [pm25] before a column [pm2_5]. *)
Definition df_both : DataFrame string :=
  mk_DataFrame
    [ ("pm25", mk_Column true ["1"; "2"]);
      ("pm2_5", mk_Column true ["3"; "4"]) ].

(** A table with a column [pm2_5] and no other alias. *)
Definition df_plain : DataFrame string :=
  mk_DataFrame
    [ ("timestamp", mk_Column false ["t1"; "t2"]);
      (" pm2_5", mk_Column true ["12"; "15"]);
      ("pm10", mk_Column true ["20"; "22"]) ].

(** A table whose measurement header is [PM2.5 (ug/m3)]. *)
Definition df_units : DataFrame string :=
  mk_DataFrame
    [ (" timestamp", mk_Column false ["t1"; "t2"]);
      ("PM2.5 (ug/m3) ", mk_Column false ["12"; "N/A"]) ].

(** A table read from the header [reading, reading]: the two headers
    differ by a space, and only the first column is numeric. *)
Definition df_repeated : DataFrame string :=
  mk_DataFrame
    [ ("reading", mk_Column true ["1"; "2"]);
      (" reading", mk_Column false ["a"; "b"]) ].


(** The file that table is read from. *)
Definition fs_repeated : FS :=
  fs_of [("/data/repeated.csv", RegFile (bytes_of "reading, reading
1,a
2,b
"))] [].

Definition fs_table : FS := fs_of [("/data/table.csv", RegFile (bytes_of "x"))] [].

(** Directories for [find_best_csv]; the module lives in [/app]. *)
Definition fs_empty_fallback : FS :=
  fs_of [("/app/air_quality_data.csv", RegFile [])] [].

Definition fs_empty_preferred : FS :=
  fs_of [("/app/readings.txt", RegFile [])] [].

Definition fs_three : FS :=
  fs_of [ ("/data/a.csv", RegFile (bytes_of "abc"));
          ("/data/b.csv", RegFile (bytes_of "abcdefghij"));
          ("/data/c.csv", RegFile []) ]
        [ ("/data/*.csv", ["/data/a.csv"; "/data/b.csv"; "/data/c.csv"]) ].

Definition fs_two_fallbacks : FS :=
  fs_of [ ("/app/air_quality_data.csv", RegFile (bytes_of "pm25"));
          ("/data/air_quality_data.csv", RegFile (bytes_of "pm25,pm10")) ]
        [ ("/data/*.csv", ["/data/air_quality_data.csv"]) ].

Definition fs_one_empty : FS := fs_of [("/data/empty.csv", RegFile [])] [].

(** A table of fourteen readings in a column [pm25], and a directory in
    which it is the preferred file. *)
Definition readings : list string :=
  [ "12"; "15"; "11"; "18"; "21"; "19"; "14"; "13"; "17"; "22"; "25"; "20"; "16"; "10" ].

Definition df_readings : DataFrame string :=
  mk_DataFrame [ ("pm25", mk_Column true readings) ].

Definition fs_live : FS :=
  fs_of [ ("/app/live_air_quality.csv", RegFile (bytes_of "x")) ] [].

(** A stand-in scaler: fitting needs a value, and the fitted scaler
    leaves the values as they are. *)
Definition toy_sklearn (pandas : input -> read_kwargs -> res (DataFrame string))
  : @Sklearn (toy_host pandas) :=
  @mk_Sklearn (toy_host pandas)
    (fun data => match data with
                 | [] => None
                 | _ => Some (fun x => x)
                 end).

(** A directory with two largest files. *)
Definition fs_ties : FS :=
  fs_of [ ("/data/a.csv", RegFile (bytes_of "abc"));
          ("/data/b.csv", RegFile (bytes_of "abcde"));
          ("/data/c.csv", RegFile (bytes_of "vwxyz"));
          ("/data/d.csv", RegFile []) ]
        [ ("/data/*.csv", ["/data/a.csv"; "/data/b.csv"; "/data/c.csv"; "/data/d.csv"]) ].

(** A directory whose listing names a path at which nothing is present. *)
Definition fs_dangling : FS :=
  fs_of [ ("/data/a.csv", RegFile (bytes_of "abc"));
          ("/data/b.csv", RegFile (bytes_of "abcde")) ]
        [ ("/data/*.csv", ["/data/a.csv"; "/data/gone.csv"; "/data/b.csv"]) ].

(** A path to a directory. *)
Definition fs_directory : FS := fs_of [ ("/data/readings", Special 4096) ] [].

(* ===================================================================== *)
(** * Properties *)
(* ===================================================================== *)

Section Properties.
Context {hst : Host}.

(* ===================================================================== *)
(** ** The Python operations on small inputs *)
(* ===================================================================== *)

Example strip_example : PyStr.strip "  PM2.5 (ug/m3)	 " = "PM2.5 (ug/m3)".
Proof. reflexivity. Qed.

Example lower_example : PyStr.lower "PM2.5 (ug/m3)" = "pm2.5 (ug/m3)".
Proof. reflexivity. Qed.

Example contains_example :
  PyStr.contains "pm2" "my pm2.5" = true /\ PyStr.contains "pm2" "p.m.2" = false.
Proof. split; reflexivity. Qed.

Example split_example : PyStr.split "," "a,b,,c" = ["a"; "b"; EmptyString; "c"].
Proof. reflexivity. Qed.

Example split_empty_example : PyStr.split "," EmptyString = [EmptyString].
Proof. reflexivity. Qed.

Example join_example :
  os_path_join "/data" "*.csv" = "/data/*.csv" /\
  os_path_join "/data/" "x.csv" = "/data/x.csv" /\
  os_path_join "/data" "/tmp/x.csv" = "/tmp/x.csv" /\
  os_path_join "" "x.csv" = "x.csv".
Proof. repeat split; reflexivity. Qed.

Example sort_example :
  sort_desc [("a", 3%N); ("b", 7%N); ("c", 3%N); ("d", 7%N)]
  = [("b", 7%N); ("d", 7%N); ("a", 3%N); ("c", 3%N)].
Proof. reflexivity. Qed.

Example max_by_example :
  PyDict.max_by snd [(5, 2); (4, 3); (6, 3)] = Some (4, 3).
Proof. reflexivity. Qed.

Example modal_count_example :
  modal_count ["a,b,c"; "a,b"; "x,y,z"; "p;q"] "," = Some (3, 2) /\
  modal_count ["a,b,c"; "a,b"; "x,y,z"; "p;q"] ";" = Some (1, 3).
Proof. split; reflexivity. Qed.

Example next_lines_example :
  next_lines 2 ["a"; "b"; "c"] = Some ["a"; "b"] /\ next_lines 2 ["a"] = None.
Proof. split; reflexivity. Qed.

(* ===================================================================== *)
(** ** What a computation does to the state *)
(* ===================================================================== *)

Lemma extend_nil w : extend w [] = w.
Proof. destruct w; unfold extend; simpl; now rewrite app_nil_r. Qed.

Lemma extend_extend w evs evs' : extend (extend w evs) evs' = extend w (evs ++ evs').
Proof. unfold extend; simpl; now rewrite app_assoc. Qed.

Lemma reads_only_fs_ret {A} (a : A) : reads_only_fs (ret a).
Proof. intros fs; exists (Ok a), []; intros; unfold ret; now rewrite app_nil_r. Qed.

Lemma reads_only_fs_raise {A} e : reads_only_fs (@raise A e).
Proof. intros fs; exists (Raise e), []; intros; unfold raise; now rewrite app_nil_r. Qed.

Lemma reads_only_fs_lift {A} (r : res A) : reads_only_fs (lift r).
Proof. intros fs; exists r, []; intros; unfold lift; now rewrite app_nil_r. Qed.

Lemma reads_only_fs_bind {A B} (m : M A) (k : A -> M B) :
  reads_only_fs m -> (forall a, reads_only_fs (k a)) -> reads_only_fs (bind m k).
Proof.
  intros Hm Hk fs. destruct (Hm fs) as (r & evs & Hr).
  destruct r as [a|e].
  - destruct (Hk a fs) as (r' & evs' & Hr').
    exists r', (evs ++ evs'); intros log.
    unfold bind; rewrite Hr, Hr'; now rewrite app_assoc.
  - exists (Raise e), evs; intros log. unfold bind; now rewrite Hr.
Qed.

Lemma reads_only_fs_try {A} (m : M A) (h : exn -> M A) :
  reads_only_fs m -> (forall e, reads_only_fs (h e)) -> reads_only_fs (try_except m h).
Proof.
  intros Hm Hh fs. destruct (Hm fs) as (r & evs & Hr).
  destruct r as [a|e].
  - exists (Ok a), evs; intros log. unfold try_except; now rewrite Hr.
  - destruct (Hh e fs) as (r' & evs' & Hr').
    exists r', (evs ++ evs'); intros log.
    unfold try_except; rewrite Hr, Hr'; now rewrite app_assoc.
Qed.

Lemma reads_only_fs_emit e : reads_only_fs (emit e).
Proof. intros fs; exists (Ok tt), [e]; intros; reflexivity. Qed.

Lemma reads_only_fs_stat p : reads_only_fs (stat p).
Proof.
  intros fs; eexists _, []; intros; unfold stat; simpl.
  rewrite app_nil_r; reflexivity.
Qed.

Lemma reads_only_fs_glob p : reads_only_fs (glob p).
Proof.
  intros fs; eexists _, []; intros; unfold glob; simpl.
  rewrite app_nil_r; reflexivity.
Qed.

Create HintDb fsdb.
#[local] Hint Resolve reads_only_fs_ret reads_only_fs_raise reads_only_fs_lift
  reads_only_fs_emit reads_only_fs_stat reads_only_fs_glob : fsdb.

(** One step of the proof that a computation built from the operations
    above only reads the file system. *)
Ltac fs_step :=
  match goal with
  | |- reads_only_fs (bind _ _) => apply reads_only_fs_bind; [ | intros ]
  | |- reads_only_fs (try_except _ _) => apply reads_only_fs_try; [ | intros ]
  | |- reads_only_fs (print _) => apply reads_only_fs_emit
  | |- reads_only_fs (match ?x with _ => _ end) => destruct x
  | |- reads_only_fs (let '(_, _) := ?x in _) => destruct x
  | |- reads_only_fs _ => solve [ auto with fsdb ]
  end.

Ltac fs_solve := repeat fs_step.

Lemma reads_only_fs_exists p : reads_only_fs (os_path_exists p).
Proof. unfold os_path_exists; fs_solve. Qed.

Lemma reads_only_fs_getsize p : reads_only_fs (os_path_getsize p).
Proof. unfold os_path_getsize; fs_solve. Qed.

Lemma reads_only_fs_open p : reads_only_fs (open_file p).
Proof. unfold open_file; fs_solve. Qed.

Lemma reads_only_fs_pd_read_csv src kw : reads_only_fs (pd_read_csv src kw).
Proof. unfold pd_read_csv; fs_solve. Qed.

#[local] Hint Resolve reads_only_fs_exists reads_only_fs_getsize
  reads_only_fs_open reads_only_fs_pd_read_csv : fsdb.

Lemma reads_only_fs_exists_nonempty p : reads_only_fs (exists_nonempty p).
Proof. unfold exists_nonempty; fs_solve. Qed.

Lemma reads_only_fs_non_empty_of csvs : reads_only_fs (non_empty_of csvs).
Proof. induction csvs; simpl; fs_solve. Qed.

#[local] Hint Resolve reads_only_fs_exists_nonempty reads_only_fs_non_empty_of : fsdb.

Lemma reads_only_fs_find_best_csv base_dir preferred :
  reads_only_fs (find_best_csv base_dir preferred).
Proof. unfold find_best_csv; fs_solve. Qed.

Lemma reads_only_fs_attempts_loop path atts last_exc :
  reads_only_fs (attempts_loop path atts last_exc).
Proof.
  revert last_exc; induction atts; intros; simpl; unfold and_then, attempt_strict; fs_solve.
Qed.

Lemma reads_only_fs_attempt_lenient path kw msg last_exc :
  reads_only_fs (attempt_lenient path kw msg last_exc).
Proof. unfold attempt_lenient; fs_solve. Qed.

Lemma reads_only_fs_read_sample path : reads_only_fs (read_sample path).
Proof. unfold read_sample; fs_solve. Qed.

Lemma reads_only_fs_modal_clean path lines : reads_only_fs (modal_clean path lines).
Proof. unfold modal_clean; fs_solve. Qed.

#[local] Hint Resolve reads_only_fs_find_best_csv reads_only_fs_attempts_loop
  reads_only_fs_attempt_lenient reads_only_fs_read_sample reads_only_fs_modal_clean : fsdb.

Lemma reads_only_fs_modal_stage path sample last_exc :
  reads_only_fs (modal_stage path sample last_exc).
Proof. unfold modal_stage; fs_solve. Qed.

#[local] Hint Resolve reads_only_fs_modal_stage : fsdb.

Lemma reads_only_fs_and_then m next :
  reads_only_fs m -> (forall le, reads_only_fs (next le)) -> reads_only_fs (and_then m next).
Proof. intros; unfold and_then; fs_solve; auto. Qed.

Lemma reads_only_fs_try_read path : reads_only_fs (_try_read path).
Proof.
  unfold _try_read.
  fs_step; [ | fs_solve ].
  repeat (apply reads_only_fs_and_then; [ auto with fsdb | intros ]).
  fs_solve.
Qed.

Lemma reads_only_fs_numeric_cols_of (df : DataFrame cell) cols : reads_only_fs (numeric_cols_of df cols).
Proof. induction cols; simpl; [ fs_solve | ]. unfold is_numeric_dtype. fs_solve. Qed.

#[local] Hint Resolve reads_only_fs_try_read reads_only_fs_numeric_cols_of : fsdb.

Lemma reads_only_fs_select_column (df : DataFrame cell) : reads_only_fs (select_column df).
Proof. unfold select_column; fs_solve. Qed.

Lemma reads_only_fs_coerce_column (df : DataFrame cell) c : reads_only_fs (coerce_column df c).
Proof. unfold coerce_column; fs_solve. Qed.

#[local] Hint Resolve reads_only_fs_select_column reads_only_fs_coerce_column : fsdb.

Lemma reads_only_fs_load_data path : reads_only_fs (load_data path).
Proof. unfold load_data; fs_solve. Qed.

(* ===================================================================== *)
(** ** Running the blocks of [_try_read] *)
(* ===================================================================== *)

Lemma bind_unfold {A B} (m : M A) (k : A -> M B) w :
  bind m k w = match m w with
               | (Ok a, w') => k a w'
               | (Raise e, w') => (Raise e, w')
               end.
Proof. reflexivity. Qed.

Lemma pd_read_csv_path_run path kw fs log :
  pd_read_csv (SrcPath path) kw (mk_world fs log)
  = (read_outcome fs path kw, mk_world fs (log ++ [EvReadCsv (SrcPath path) kw])).
Proof.
  unfold pd_read_csv, read_outcome, bind, emit, stat, lift, raise; simpl.
  destruct (fs_node fs path) as [[c|sz]|]; reflexivity.
Qed.

Lemma pd_read_csv_text_run text kw fs log :
  pd_read_csv (SrcStringIO text) kw (mk_world fs log)
  = (pandas_read_csv (InText text) kw,
     mk_world fs (log ++ [EvReadCsv (SrcStringIO text) kw])).
Proof. reflexivity. Qed.

Lemma open_file_run path fs log :
  open_file path (mk_world fs log)
  = (match fs_node fs path with
     | Some (RegFile content) => Ok content
     | _ => Raise (OSError path)
     end, mk_world fs (log ++ [EvOpen path])).
Proof.
  unfold open_file, bind, emit, stat, raise, ret; simpl.
  destruct (fs_node fs path) as [[c|sz]|]; reflexivity.
Qed.

Lemma attempt_strict_run path att fs log :
  attempt_strict path att (mk_world fs log)
  = match read_outcome fs path (att_kwargs att) with
    | Ok df =>
        if ncols df =? 0
        then (Ok (inr (Some (EmptyDataError_NoColumns (att_label att)))),
              mk_world fs (log ++ [EvReadCsv (SrcPath path) (att_kwargs att)]))
        else (Ok (inl df),
              mk_world fs (log ++ [EvReadCsv (SrcPath path) (att_kwargs att);
                                   EvPrint (MsgReaderSuccess (att_label att)
                                              (length (columns df)) (nrows df))]))
    | Raise e =>
        (Ok (inr (Some e)), mk_world fs (log ++ [EvReadCsv (SrcPath path) (att_kwargs att)]))
    end.
Proof.
  unfold attempt_strict, try_except, bind. rewrite pd_read_csv_path_run.
  destruct (read_outcome fs path (att_kwargs att)) as [df|e]; [ | reflexivity ].
  destruct (ncols df =? 0); [ reflexivity | ].
  unfold print, emit, ret; simpl. now rewrite <- app_assoc.
Qed.

Lemma attempt_lenient_run path kw msg last_exc fs log :
  attempt_lenient path kw msg last_exc (mk_world fs log)
  = match read_outcome fs path kw with
    | Ok df =>
        if 0 <? ncols df
        then (Ok (inl df), mk_world fs (log ++ [EvReadCsv (SrcPath path) kw; EvPrint msg]))
        else (Ok (inr last_exc), mk_world fs (log ++ [EvReadCsv (SrcPath path) kw]))
    | Raise e => (Ok (inr (Some e)), mk_world fs (log ++ [EvReadCsv (SrcPath path) kw]))
    end.
Proof.
  unfold attempt_lenient, try_except, bind. rewrite pd_read_csv_path_run.
  destruct (read_outcome fs path kw) as [df|e]; [ | reflexivity ].
  destruct (0 <? ncols df); [ | reflexivity ].
  unfold print, emit, ret; simpl. now rewrite <- app_assoc.
Qed.

Lemma read_sample_run path fs log :
  read_sample path (mk_world fs log)
  = (Ok (sample_of fs path), mk_world fs (log ++ [EvPrint MsgModalAttempt; EvOpen path])).
Proof.
  unfold read_sample, sample_of, try_except, bind, print.
  change (emit (EvPrint MsgModalAttempt) (mk_world fs log))
    with (Ok tt, mk_world fs (log ++ [EvPrint MsgModalAttempt])).
  cbv beta iota. rewrite open_file_run, <- app_assoc.
  destruct (fs_node fs path) as [[c|sz]|]; try reflexivity.
  cbv beta iota. destruct (next_lines 2000 (decode_lines c)); reflexivity.
Qed.

Lemma stream_rows_from sep cols f rows kept total :
  fold_left (keep_row sep cols) f (rows, kept, total)
  = (rows ++ filter (has_fields sep cols) f,
     kept + length (filter (has_fields sep cols) f),
     total + length f).
Proof.
  revert rows kept total; induction f as [|ln f IH]; intros; simpl.
  - now rewrite app_nil_r, !Nat.add_0_r.
  - unfold keep_row at 1. fold (has_fields sep cols ln).
    destruct (has_fields sep cols ln); rewrite IH; cbn [length].
    + rewrite <- app_assoc. cbn [app]. f_equal; [ f_equal | ]; lia.
    + f_equal; lia.
Qed.

Lemma stream_rows_spec sep cols f :
  stream_rows sep cols f
  = (filter (has_fields sep cols) f, length (filter (has_fields sep cols) f), length f).
Proof. unfold stream_rows; now rewrite stream_rows_from. Qed.

Lemma modal_clean_run path lines fs log :
  modal_clean path lines (mk_world fs log)
  = match modal_count lines ",", modal_count lines ";" with
    | Some comma_mode, Some semi_mode =>
        let sep := fst (chosen comma_mode semi_mode) in
        let cols := snd (chosen comma_mode semi_mode) in
        match fs_node fs path with
        | Some (RegFile content) =>
            let rows := filter (has_fields sep cols) (decode_lines content) in
            if length rows =? 0
            then (Ok (inr (Some RuntimeError_ModalZero)), mk_world fs (log ++ [EvOpen path]))
            else
              let call := EvReadCsv (SrcStringIO (PyStr.join_empty rows)) (kwargs_sep sep) in
              match pandas_read_csv (InText (PyStr.join_empty rows)) (kwargs_sep sep) with
              | Ok df =>
                  (if ncols df =? 0 then Ok (inr (Some EmptyDataError_Modal)) else Ok (inl df),
                   mk_world fs
                     (log ++ [EvOpen path; call;
                              EvPrint (MsgModalKept (length rows)
                                         (length (decode_lines content)) sep cols)]))
              | Raise e => (Ok (inr (Some e)), mk_world fs (log ++ [EvOpen path; call]))
              end
        | _ => (Raise (OSError path), mk_world fs (log ++ [EvOpen path]))
        end
    | _, _ => (Raise ValueError_MaxEmpty, mk_world fs log)
    end.
Proof.
  unfold modal_clean.
  destruct (modal_count lines ",") as [cm|]; [ | reflexivity ].
  destruct (modal_count lines ";") as [sm|]; [ | reflexivity ].
  unfold bind at 1. rewrite open_file_run.
  assert (Hc : (if snd sm <=? snd cm then ","%char else ";"%char) = fst (chosen cm sm)
               /\ (if Ascii.eqb (if snd sm <=? snd cm then ","%char else ";"%char) ","
                   then fst cm else fst sm) = snd (chosen cm sm)).
  { unfold chosen; destruct (snd sm <=? snd cm); split; reflexivity. }
  destruct Hc as [-> ->].
  destruct (fs_node fs path) as [[content|sz]|]; try reflexivity.
  cbv zeta. rewrite stream_rows_spec.
  destruct (length (filter _ (decode_lines content)) =? 0); [ reflexivity | ].
  unfold try_except, bind. rewrite pd_read_csv_text_run.
  destruct (pandas_read_csv _ _) as [df|e].
  - unfold print, emit; cbn [w_fs w_log]. rewrite <- !app_assoc. cbn [app].
    destruct (ncols df =? 0); reflexivity.
  - rewrite <- !app_assoc; reflexivity.
Qed.

(* ===================================================================== *)
(** ** The order of the fallbacks *)
(* ===================================================================== *)

Lemma goes_through_nil fs path last_exc :
  goes_through fs path False (ret (inr last_exc)) [].
Proof.
  intros log. exists [], [], []. unfold ret; simpl. rewrite app_nil_r.
  repeat split; auto.
Qed.

Lemma goes_through_and_then fs path may_raise m next ss1 ss2 :
  goes_through fs path False m ss1 ->
  (forall last_exc, goes_through fs path may_raise (next last_exc) ss2) ->
  goes_through fs path may_raise (and_then m next) (ss1 ++ ss2).
Proof.
  intros Hm Hn log.
  destruct (Hm log) as (done & rest & evs & Hss & Hsnd & Hfil & Hres).
  unfold and_then, bind.
  destruct (m (mk_world fs log)) as [r w'] eqn:E. cbn [fst snd] in *. subst w'.
  destruct r as [[df|last_exc]|e].
  - exists done, (rest ++ ss2), evs. unfold ret; cbn [fst snd].
    repeat split; auto. subst ss1; now rewrite app_assoc.
  - destruct Hres as [Hfail ->]. rewrite app_nil_r in Hss; subst ss1.
    destruct (Hn last_exc (log ++ evs)) as (done2 & rest2 & evs2 & Hss2 & Hsnd2 & Hfil2 & Hres2).
    exists (done ++ done2), rest2, (evs ++ evs2).
    split; [ subst ss2; now rewrite app_assoc | ].
    split; [ rewrite Hsnd2; now rewrite app_assoc | ].
    split; [ rewrite filter_app, map_app; congruence | ].
    destruct (fst (next last_exc (mk_world fs (log ++ evs)))) as [[df|le]|e].
    + destruct Hres2 as (failed & last & -> & Hf2 & Hy).
      exists (done ++ failed), last. rewrite app_assoc. repeat split; auto.
      apply Forall_app; auto.
    + destruct Hres2 as [Hf2 ->]. split; auto. apply Forall_app; auto.
    + destruct Hres2 as (Hf2 & -> & Hp). repeat split; auto. apply Forall_app; auto.
  - destruct Hres as (_ & _ & []).
Qed.

Lemma goes_through_strict fs path att s :
  strategy_kwargs s = Some (att_kwargs att) ->
  goes_through fs path False (attempt_strict path att) [s].
Proof.
  intros Hs log. rewrite attempt_strict_run.
  assert (Hstart : start_event path s = EvReadCsv (SrcPath path) (att_kwargs att))
    by (unfold start_event; now rewrite Hs).
  destruct (read_outcome fs path (att_kwargs att)) as [df|e] eqn:E.
  - destruct (ncols df =? 0) eqn:En.
    + exists [s], [], [EvReadCsv (SrcPath path) (att_kwargs att)]. cbn [fst snd].
      repeat split; simpl; try congruence.
      constructor; [ | constructor ]. intros df' Hy. unfold yields in Hy. rewrite Hs in Hy.
      destruct Hy as [Hy Hn]. rewrite E in Hy. inversion Hy; subst.
      apply Nat.eqb_eq in En. lia.
    + eexists [s], [], _. cbn [fst snd]. split; [ reflexivity | ].
      split; [ reflexivity | ]. split; [ simpl; congruence | ].
      exists [], s. repeat split; auto. unfold yields. rewrite Hs. split; auto.
      apply Nat.eqb_neq in En. lia.
  - exists [s], [], [EvReadCsv (SrcPath path) (att_kwargs att)]. cbn [fst snd].
    repeat split; simpl; try congruence.
    constructor; [ | constructor ]. intros df' Hy. unfold yields in Hy. rewrite Hs in Hy.
    destruct Hy as [Hy _]. congruence.
Qed.

Lemma goes_through_lenient fs path kw msg last_exc s :
  strategy_kwargs s = Some kw ->
  msg <> MsgModalAttempt ->
  goes_through fs path False (attempt_lenient path kw msg last_exc) [s].
Proof.
  intros Hs Hmsg log. rewrite attempt_lenient_run.
  assert (Hstart : start_event path s = EvReadCsv (SrcPath path) kw)
    by (unfold start_event; now rewrite Hs).
  destruct (read_outcome fs path kw) as [df|e] eqn:E.
  - destruct (0 <? ncols df) eqn:En.
    + eexists [s], [], _. cbn [fst snd]. split; [ reflexivity | ].
      split; [ reflexivity | ].
      split; [ simpl; destruct msg; try congruence; now rewrite Hstart | ].
      exists [], s. repeat split; auto. unfold yields. rewrite Hs. split; auto.
      now apply Nat.ltb_lt.
    + exists [s], [], [EvReadCsv (SrcPath path) kw]. cbn [fst snd].
      repeat split; simpl; try congruence.
      constructor; [ | constructor ]. intros df' Hy. unfold yields in Hy. rewrite Hs in Hy.
      destruct Hy as [Hy Hn]. rewrite E in Hy. inversion Hy; subst.
      apply Nat.ltb_ge in En. lia.
  - exists [s], [], [EvReadCsv (SrcPath path) kw]. cbn [fst snd].
    repeat split; simpl; try congruence.
    constructor; [ | constructor ]. intros df' Hy. unfold yields in Hy. rewrite Hs in Hy.
    destruct Hy as [Hy _]. congruence.
Qed.

(** The events of the last resort after its announcement begin no other
    strategy, and whether it returns a table does not depend on the log or
    on [last_exc]. *)
Lemma modal_stage_run fs path sample last_exc log :
  exists evs,
    snd (modal_stage path sample last_exc (mk_world fs log)) = mk_world fs (log ++ evs) /\
    filter is_start evs = [] /\
    forall last_exc' log' df,
      fst (modal_stage path sample last_exc (mk_world fs log)) = Ok (inl df) <->
      fst (modal_stage path sample last_exc' (mk_world fs log')) = Ok (inl df).
Proof.
  destruct sample as [|[[|ln lines]|]]; cbn [modal_stage].
  1,2,4: exists []; unfold raise, ret; cbn [fst snd]; rewrite app_nil_r;
         repeat split; auto; intros; discriminate.
  remember (ln :: lines) as ls.
  assert (E : forall log0, modal_clean path ls (mk_world fs log0) = _)
    by (intros; apply modal_clean_run).
  assert (Hdone : forall evs (r : res flow),
             (forall log0, modal_clean path ls (mk_world fs log0)
                           = (r, mk_world fs (log0 ++ evs))) ->
             filter is_start evs = [] ->
             exists evs,
               snd (modal_clean path ls (mk_world fs log)) = mk_world fs (log ++ evs) /\
               filter is_start evs = [] /\
               forall (last_exc' : option exn) log' df,
                 fst (modal_clean path ls (mk_world fs log)) = Ok (inl df) <->
                 fst (modal_clean path ls (mk_world fs log')) = Ok (inl df)).
  { intros evs r H Hf. exists evs. rewrite H. repeat split; auto; intros; now rewrite H in *. }
  destruct (modal_count ls ",") as [cm|]; [ destruct (modal_count ls ";") as [sm|] | ].
  2-3: apply (Hdone [] (Raise ValueError_MaxEmpty));
       [ intros; rewrite E, app_nil_r; reflexivity | reflexivity ].
  cbv zeta in E.
  destruct (fs_node fs path) as [[content|sz]|].
  2-3: eapply Hdone; [ intros; rewrite E; reflexivity | reflexivity ].
  destruct (length (filter _ (decode_lines content)) =? 0).
  { eapply Hdone; [ intros; rewrite E; reflexivity | reflexivity ]. }
  destruct (pandas_read_csv _ _) as [df|e];
    (eapply Hdone; [ intros; rewrite E; reflexivity | reflexivity ]).
Qed.

Lemma goes_through_modal fs path last_exc :
  goes_through fs path True
    (sample_lines <- read_sample path ;; modal_stage path sample_lines last_exc)
    [modal_reconstruction].
Proof.
  intros log. unfold bind at 1 2. rewrite read_sample_run.
  destruct (modal_stage_run fs path (sample_of fs path) last_exc
              (log ++ [EvPrint MsgModalAttempt; EvOpen path])) as (evs & Hsnd & Hfil & Hres).
  exists [modal_reconstruction], [], ([EvPrint MsgModalAttempt; EvOpen path] ++ evs).
  split; [ reflexivity | ].
  split; [ rewrite Hsnd; now rewrite <- app_assoc | ].
  split; [ rewrite filter_app, Hfil; reflexivity | ].
  assert (Hy : forall df,
             fst (modal_stage path (sample_of fs path) last_exc
                    (mk_world fs (log ++ [EvPrint MsgModalAttempt; EvOpen path])))
             = Ok (inl df) <-> yields fs path modal_reconstruction df).
  { intros df. unfold yields, modal_outcome; cbn [strategy_kwargs].
    unfold bind. rewrite read_sample_run. apply Hres. }
  destruct (fst (modal_stage path (sample_of fs path) last_exc _)) as [[df|le]|e].
  - exists [], modal_reconstruction. repeat split; auto. now apply Hy.
  - split; auto. constructor; [ | constructor ]. intros df H. apply Hy in H. discriminate.
  - repeat split; auto. constructor; [ | constructor ]. intros df H. apply Hy in H. discriminate.
Qed.

Lemma goes_through_try_read_blocks fs path :
  goes_through fs path True
    (and_then (attempts_loop path attempts None) (fun last_exc =>
     and_then (attempt_lenient path kwargs_skip MsgSkipSuccess last_exc) (fun last_exc =>
     and_then (attempt_lenient path kwargs_quote_none MsgQuoteNoneSuccess last_exc)
       (fun last_exc =>
          sample_lines <- read_sample path ;;
          modal_stage path sample_lines last_exc))))
    ladder.
Proof.
  change ladder with
    (([strict_utf8] ++ [strict_utf8_bom] ++ [strict_latin1] ++ [lenient_auto] ++ [])
       ++ [lenient_auto_skip] ++ [lenient_quote_literal] ++ [modal_reconstruction]).
  apply goes_through_and_then.
  - unfold attempts. cbn [attempts_loop].
    repeat (apply goes_through_and_then; [ now apply goes_through_strict | intros ]).
    apply goes_through_nil.
  - intros. apply goes_through_and_then;
      [ apply goes_through_lenient; [ reflexivity | discriminate ] | intros ].
    apply goes_through_and_then;
      [ apply goes_through_lenient; [ reflexivity | discriminate ] | intros ].
    apply goes_through_modal.
Qed.

Lemma yields_has_column fs path s df : yields fs path s df -> 0 < ncols df.
Proof.
  unfold yields. destruct (strategy_kwargs s); [ tauto | ].
  unfold modal_outcome, bind. rewrite read_sample_run.
  destruct (sample_of fs path) as [|[[|ln lines]|]]; cbn [modal_stage];
    try (unfold raise, ret; cbn [fst]; discriminate).
  rewrite modal_clean_run.
  destruct (modal_count _ ","); [ | cbn [fst]; discriminate ].
  destruct (modal_count _ ";"); [ | cbn [fst]; discriminate ].
  cbv zeta. destruct (fs_node fs path) as [[content|sz]|]; try (cbn [fst]; discriminate).
  destruct (length _ =? 0); [ cbn [fst]; discriminate | ].
  destruct (pandas_read_csv _ _) as [df'|e]; [ | cbn [fst]; discriminate ].
  cbn [fst]. destruct (ncols df' =? 0) eqn:E; [ discriminate | ].
  intros H; inversion H; subst. apply Nat.eqb_neq in E. lia.
Qed.

(** C2: [_try_read] begins the strategies in the documented order
    (strict UTF-8 with the default comma, strict UTF-8 with BOM, strict
    Latin-1, lenient with detected delimiter, the same skipping malformed
    rows, lenient Latin-1 with literal quotes skipping malformed rows, the
    modal cleaner): the strategies begun are [failed ++ [last]], a prefix
    of the ladder; every strategy before the last one begun raised or
    returned a table without columns; when [_try_read] returns a table it
    is the one the last strategy begun yields, it has a column, and no
    later strategy [rest] was begun; when it raises, all seven were begun
    and failed. *)
Theorem try_read_fallback_order path w :
  exists failed last rest evs,
    ladder = failed ++ last :: rest /\
    snd (_try_read path w) = extend w evs /\
    filter is_start evs = map (start_event path) (failed ++ [last]) /\
    Forall (fails (w_fs w) path) failed /\
    match fst (_try_read path w) with
    | Ok df => yields (w_fs w) path last df /\ 0 < ncols df
    | Raise _ => fails (w_fs w) path last /\ rest = []
    end.
Proof.
  destruct w as [fs log]. unfold extend; cbn [w_fs w_log].
  destruct (goes_through_try_read_blocks fs path log)
    as (done & rest & evs & Hss & Hsnd & Hfil & Hres).
  unfold _try_read. rewrite !bind_unfold.
  match type of Hsnd with
  | snd ?t = _ => destruct t as [r w'] eqn:E
  end.
  cbn [fst snd] in *. subst w'.
  assert (Hall : Forall (fails fs path) done -> rest = [] ->
                 exists failed, done = failed ++ [modal_reconstruction] /\
                                Forall (fails fs path) failed /\
                                fails fs path modal_reconstruction).
  { intros Hf ->. rewrite app_nil_r in Hss. subst done.
    exists (firstn 6 ladder). split; [ reflexivity | ].
    split.
    - apply Forall_forall. intros s Hs. rewrite Forall_forall in Hf. apply Hf.
      simpl in Hs |- *. tauto.
    - rewrite Forall_forall in Hf. apply Hf. simpl. tauto. }
  destruct r as [[df|last_exc]|e].
  - destruct Hres as (failed & last & -> & Hf & Hy).
    exists failed, last, rest, evs. unfold ret; cbn [fst snd].
    repeat split; auto.
    + rewrite Hss, <- app_assoc. reflexivity.
    + eapply yields_has_column; eauto.
  - destruct Hres as [Hf Hr]. destruct (Hall Hf Hr) as (failed & -> & Hf' & Hm).
    exists failed, modal_reconstruction, [], evs. unfold raise; cbn [fst snd].
    repeat split; auto. subst rest. now rewrite Hss, app_nil_r.
  - destruct Hres as (Hf & Hr & _). destruct (Hall Hf Hr) as (failed & -> & Hf' & Hm).
    exists failed, modal_reconstruction, [], evs. cbn [fst snd].
    repeat split; auto. subst rest. now rewrite Hss, app_nil_r.
Qed.

(* ===================================================================== *)
(** ** When the first six strategies fail *)
(* ===================================================================== *)

Lemma and_then_continue m next w last_exc w' :
  m w = (Ok (inr last_exc), w') -> and_then m next w = next last_exc w'.
Proof. intros H. unfold and_then. rewrite bind_unfold, H. reflexivity. Qed.

Lemma attempt_strict_fails fs path att s log :
  strategy_kwargs s = Some (att_kwargs att) ->
  fails fs path s ->
  exists e, attempt_strict path att (mk_world fs log)
            = (Ok (inr (Some e)), mk_world fs (log ++ [start_event path s])).
Proof.
  intros Hs Hf. rewrite attempt_strict_run. unfold start_event; rewrite Hs.
  destruct (read_outcome fs path (att_kwargs att)) as [df|e] eqn:E; [ | eauto ].
  destruct (ncols df =? 0) eqn:En; [ eauto | ].
  exfalso. apply (Hf df). unfold yields; rewrite Hs. split; auto.
  apply Nat.eqb_neq in En; lia.
Qed.

Lemma attempt_lenient_fails fs path kw msg last_exc s log :
  strategy_kwargs s = Some kw ->
  fails fs path s ->
  exists last_exc',
    attempt_lenient path kw msg last_exc (mk_world fs log)
    = (Ok (inr last_exc'), mk_world fs (log ++ [start_event path s])) /\
    (last_exc = None \/ exists e, last_exc' = Some e).
Proof.
  intros Hs Hf. rewrite attempt_lenient_run. unfold start_event; rewrite Hs.
  destruct (read_outcome fs path kw) as [df|e] eqn:E; [ | eauto ].
  destruct (0 <? ncols df) eqn:En.
  - exfalso. apply (Hf df). unfold yields; rewrite Hs. split; auto.
    now apply Nat.ltb_lt.
  - exists last_exc. split; auto. destruct last_exc; eauto.
Qed.

(** With the first six strategies failing, [_try_read] reaches the last
    resort after exactly their six [read_csv] calls, with an exception
    recorded in [last_exc]. *)
Lemma first_six_fail fs path log (next : option exn -> M flow) :
  (forall s, In s (firstn 6 ladder) -> fails fs path s) ->
  exists e,
    and_then (attempts_loop path attempts None) (fun last_exc =>
    and_then (attempt_lenient path kwargs_skip MsgSkipSuccess last_exc) (fun last_exc =>
    and_then (attempt_lenient path kwargs_quote_none MsgQuoteNoneSuccess last_exc) next))
      (mk_world fs log)
    = next (Some e) (mk_world fs (log ++ map (start_event path) (firstn 6 ladder))).
Proof.
  intros Hf.
  assert (H1 : fails fs path strict_utf8) by (apply Hf; simpl; tauto).
  assert (H2 : fails fs path strict_utf8_bom) by (apply Hf; simpl; tauto).
  assert (H3 : fails fs path strict_latin1) by (apply Hf; simpl; tauto).
  assert (H4 : fails fs path lenient_auto) by (apply Hf; simpl; tauto).
  assert (H5 : fails fs path lenient_auto_skip) by (apply Hf; simpl; tauto).
  assert (H6 : fails fs path lenient_quote_literal) by (apply Hf; simpl; tauto).
  unfold attempts. cbn [attempts_loop].
  assert (Hloop : exists e4,
             and_then (attempt_strict path (nth 0 attempts (mk_attempt kwargs_skip "")))
               (fun _ => and_then (attempt_strict path (nth 1 attempts (mk_attempt kwargs_skip "")))
               (fun _ => and_then (attempt_strict path (nth 2 attempts (mk_attempt kwargs_skip "")))
               (fun _ => and_then (attempt_strict path (nth 3 attempts (mk_attempt kwargs_skip "")))
               (fun last_exc => ret (inr last_exc))))) (mk_world fs log)
             = (Ok (inr (Some e4)),
                mk_world fs (log ++ map (start_event path) (firstn 4 ladder)))).
  { set (d := mk_attempt kwargs_skip "").
    destruct (attempt_strict_fails fs path (nth 0 attempts d) strict_utf8 log eq_refl H1)
      as (e1 & E1).
    erewrite and_then_continue by exact E1.
    destruct (attempt_strict_fails fs path (nth 1 attempts d) strict_utf8_bom
                (log ++ [start_event path strict_utf8]) eq_refl H2) as (e2 & E2).
    erewrite and_then_continue by exact E2.
    destruct (attempt_strict_fails fs path (nth 2 attempts d) strict_latin1
                ((log ++ [start_event path strict_utf8]) ++ [start_event path strict_utf8_bom])
                eq_refl H3) as (e3 & E3).
    erewrite and_then_continue by exact E3.
    destruct (attempt_strict_fails fs path (nth 3 attempts d) lenient_auto
                (((log ++ [start_event path strict_utf8]) ++ [start_event path strict_utf8_bom])
                   ++ [start_event path strict_latin1])
                eq_refl H4) as (e4 & E4).
    erewrite and_then_continue by exact E4.
    exists e4. unfold ret. rewrite <- !app_assoc. reflexivity. }
  destruct Hloop as (e4 & E4). cbn [nth attempts] in E4.
  erewrite and_then_continue by exact E4.
  destruct (attempt_lenient_fails fs path kwargs_skip MsgSkipSuccess (Some e4)
              lenient_auto_skip (log ++ map (start_event path) (firstn 4 ladder))
              eq_refl H5) as (le5 & E5 & [Hn | (e5 & ->)]); [ discriminate | ].
  erewrite and_then_continue by exact E5.
  destruct (attempt_lenient_fails fs path kwargs_quote_none MsgQuoteNoneSuccess (Some e5)
              lenient_quote_literal
              ((log ++ map (start_event path) (firstn 4 ladder))
                 ++ [start_event path lenient_auto_skip])
              eq_refl H6) as (le6 & E6 & [Hn | (e6 & ->)]); [ discriminate | ].
  erewrite and_then_continue by exact E6.
  exists e6. rewrite <- !app_assoc. reflexivity.
Qed.

Lemma next_lines_short n f : length f < n -> next_lines n f = None.
Proof.
  revert f; induction n as [|n IH]; intros f H; [ lia | ].
  destruct f as [|ln f]; [ reflexivity | ]. simpl in *.
  rewrite IH by lia. reflexivity.
Qed.

Lemma next_lines_long n f : n <= length f -> next_lines n f = Some (firstn n f).
Proof.
  revert f; induction n as [|n IH]; intros f H; [ reflexivity | ].
  destruct f as [|ln f]; simpl in *; [ lia | ].
  rewrite IH by lia. reflexivity.
Qed.

(** A file of fewer than 2000 lines on which the first six strategies
    fail: the sample is never assigned, and [_try_read] ends in the
    [UnboundLocalError] of reading it. *)
Lemma try_read_short_file fs path content log :
  fs_node fs path = Some (RegFile content) ->
  length (decode_lines content) < 2000 ->
  (forall s, In s (firstn 6 ladder) -> fails fs path s) ->
  fst (_try_read path (mk_world fs log)) = Raise (UnboundLocalError "sample_lines").
Proof.
  intros Hnode Hlen Hf. unfold _try_read. rewrite bind_unfold.
  destruct (first_six_fail fs path log
              (fun last_exc => sample_lines <- read_sample path ;;
                               modal_stage path sample_lines last_exc) Hf) as (e & ->).
  rewrite bind_unfold, read_sample_run.
  unfold sample_of. rewrite Hnode, next_lines_short by assumption.
  reflexivity.
Qed.

(* ===================================================================== *)
(** ** Dictionaries and [max] *)
(* ===================================================================== *)

Section DictFacts.
Context {K V : Type} (eqb : K -> K -> bool).
Hypothesis eqb_eq : forall a b, eqb a b = true <-> a = b.

Lemma eqb_refl_K k : eqb k k = true.
Proof. now apply eqb_eq. Qed.

Lemma eqb_neq_K a b : a <> b -> eqb a b = false.
Proof. intros H. destruct (eqb a b) eqn:E; [ apply eqb_eq in E; contradiction | reflexivity ]. Qed.

Lemma get_set_same (d : list (K * V)) k v : PyDict.get eqb (PyDict.set eqb d k v) k = Some v.
Proof.
  induction d as [|[k' v'] d IH]; simpl.
  - now rewrite eqb_refl_K.
  - destruct (eqb k k') eqn:E; simpl; rewrite E; auto.
Qed.

Lemma get_set_other (d : list (K * V)) k v k' :
  k' <> k -> PyDict.get eqb (PyDict.set eqb d k v) k' = PyDict.get eqb d k'.
Proof.
  intros Hne. induction d as [|[k0 v0] d IH]; simpl.
  - now rewrite eqb_neq_K.
  - destruct (eqb k k0) eqn:E; simpl.
    + apply eqb_eq in E; subst k0. now rewrite eqb_neq_K.
    + now rewrite IH.
Qed.

Lemma keys_set (d : list (K * V)) k v :
  map fst (PyDict.set eqb d k v)
  = if PyDict.mem eqb d k then map fst d else map fst d ++ [k].
Proof.
  unfold PyDict.mem. induction d as [|[k' v'] d IH]; simpl; [ reflexivity | ].
  destruct (eqb k k') eqn:E; simpl; [ reflexivity | ].
  rewrite IH. destruct (PyDict.get eqb d k); reflexivity.
Qed.

Lemma get_In (d : list (K * V)) k v : PyDict.get eqb d k = Some v -> In (k, v) d.
Proof.
  induction d as [|[k' v'] d IH]; simpl; [ discriminate | ].
  destruct (eqb k k') eqn:E.
  - apply eqb_eq in E; subst. intros H; inversion H; auto.
  - auto.
Qed.

Lemma get_None_keys (d : list (K * V)) k : PyDict.get eqb d k = None -> ~ In k (map fst d).
Proof.
  induction d as [|[k' v'] d IH]; simpl; [ tauto | ].
  destruct (eqb k k') eqn:E; [ discriminate | ].
  intros H [Hk | Hk]; [ subst; rewrite eqb_refl_K in E; discriminate | now apply IH ].
Qed.

Lemma In_get (d : list (K * V)) k v :
  NoDup (map fst d) -> In (k, v) d -> PyDict.get eqb d k = Some v.
Proof.
  induction d as [|[k' v'] d IH]; simpl; [ tauto | ].
  intros Hnd [H | H].
  - inversion H; subst. now rewrite eqb_refl_K.
  - inversion Hnd; subst. destruct (eqb k k') eqn:E; [ | auto ].
    apply eqb_eq in E; subst. exfalso. apply H2. now apply (in_map fst) in H.
Qed.

Lemma NoDup_keys_set (d : list (K * V)) k v :
  NoDup (map fst d) -> NoDup (map fst (PyDict.set eqb d k v)).
Proof.
  intros H. rewrite keys_set. unfold PyDict.mem.
  destruct (PyDict.get eqb d k) eqn:E; [ assumption | ].
  apply NoDup_app; [ assumption | constructor; [ simpl; tauto | constructor ] | ].
  intros a Ha [<- | []]. now apply get_None_keys in E.
Qed.

End DictFacts.

Lemma max_by_fold {A} (key : A -> nat) (l : list A) (x : A) :
  let m := fold_left (fun best y => if key best <? key y then y else best) l x in
  In m (x :: l) /\ forall y, In y (x :: l) -> key y <= key m.
Proof.
  revert x; induction l as [|a l IH]; intros x; simpl.
  - split; [ auto | intros y [<- | []]; lia ].
  - destruct (IH (if key x <? key a then a else x)) as [Hin Hmax].
    split.
    + destruct Hin as [Hin | Hin]; [ | auto ].
      rewrite <- Hin. destruct (key x <? key a); auto.
    + intros y Hy.
      assert (Hx : key x <= key (if key x <? key a then a else x)
                   /\ key a <= key (if key x <? key a then a else x)).
      { destruct (key x <? key a) eqn:E;
          [ apply Nat.ltb_lt in E | apply Nat.ltb_ge in E ]; lia. }
      pose proof (Hmax _ (or_introl eq_refl)) as H0.
      destruct Hy as [<- | [<- | Hy]]; [ lia | lia | ].
      apply Hmax. now right.
Qed.

Lemma max_by_spec {A} (key : A -> nat) (l : list A) x :
  PyDict.max_by key l = Some x -> In x l /\ forall y, In y l -> key y <= key x.
Proof.
  destruct l as [|a l]; simpl; [ discriminate | ].
  intros H; inversion H; subst. apply max_by_fold.
Qed.

(* ===================================================================== *)
(** ** The modal column count *)
(* ===================================================================== *)

Lemma split_length sep s : length (PyStr.split sep s) = nfields sep s.
Proof.
  unfold nfields. induction s as [|c s IH]; simpl; [ reflexivity | ].
  destruct (Ascii.eqb c sep); simpl; [ now rewrite IH | ].
  destruct (PyStr.split sep s); simpl in *; lia.
Qed.

Lemma has_fields_nfields sep n ln : has_fields sep n ln = (nfields sep ln =? n).
Proof. unfold has_fields. now rewrite split_length. Qed.

Lemma nat_eqb_eq a b : Nat.eqb a b = true <-> a = b.
Proof. apply Nat.eqb_eq. Qed.

Lemma get_count_fields sep counts ln k :
  PyDict.get Nat.eqb (count_fields sep counts ln) k
  = if k =? nfields sep ln
    then Some (match PyDict.get Nat.eqb counts k with Some v => v + 1 | None => 1 end)
    else PyDict.get Nat.eqb counts k.
Proof.
  unfold count_fields. rewrite split_length.
  set (n := nfields sep ln).
  assert (Hd : PyDict.get Nat.eqb (PyDict.setdefault Nat.eqb counts n 0) n
               = match PyDict.get Nat.eqb counts n with Some v => Some v | None => Some 0 end).
  { unfold PyDict.setdefault, PyDict.mem.
    destruct (PyDict.get Nat.eqb counts n) eqn:E; [ assumption | ].
    apply (get_set_same Nat.eqb nat_eqb_eq). }
  destruct (k =? n) eqn:Ek.
  - apply Nat.eqb_eq in Ek; subst k.
    rewrite (get_set_same Nat.eqb nat_eqb_eq), Hd.
    destruct (PyDict.get Nat.eqb counts n); reflexivity.
  - apply Nat.eqb_neq in Ek.
    rewrite (get_set_other Nat.eqb nat_eqb_eq) by assumption.
    unfold PyDict.setdefault. destruct (PyDict.mem Nat.eqb counts n); [ reflexivity | ].
    now rewrite (get_set_other Nat.eqb nat_eqb_eq).
Qed.

Lemma NoDup_count_fields sep counts ln :
  NoDup (map fst counts) -> NoDup (map fst (count_fields sep counts ln)).
Proof.
  intros H. unfold count_fields. apply NoDup_keys_set; [ apply nat_eqb_eq | ].
  unfold PyDict.setdefault. destruct (PyDict.mem _ _ _); [ assumption | ].
  apply NoDup_keys_set; [ apply nat_eqb_eq | assumption ].
Qed.

Lemma frequency_snoc sep sample ln k :
  frequency sep (sample ++ [ln]) k
  = frequency sep sample k + (if k =? nfields sep ln then 1 else 0).
Proof.
  unfold frequency. rewrite filter_app, length_app. cbn [filter].
  rewrite (Nat.eqb_sym k). destruct (nfields sep ln =? k); reflexivity.
Qed.

(** The dictionary [counts] after the loop of [modal_count]. *)
Lemma counts_spec sep sample :
  let counts := fold_left (count_fields sep) sample [] in
  NoDup (map fst counts) /\
  forall k, PyDict.get Nat.eqb counts k
            = if frequency sep sample k =? 0 then None else Some (frequency sep sample k).
Proof.
  induction sample as [|ln sample IH] using rev_ind; simpl.
  - split; [ constructor | reflexivity ].
  - rewrite fold_left_app; simpl. destruct IH as [Hnd Hget].
    split; [ now apply NoDup_count_fields | ].
    intros k. rewrite get_count_fields, Hget, frequency_snoc.
    destruct (k =? nfields sep ln).
    + destruct (frequency sep sample k) as [|f]; simpl; [ reflexivity | ].
      replace (f + 1) with (S f) by lia. simpl. f_equal.
    + rewrite Nat.add_0_r. reflexivity.
Qed.

Lemma modal_count_spec sep sample :
  sample <> [] ->
  exists n f, modal_count sample sep = Some (n, f) /\ is_mode sep sample n f.
Proof.
  intros Hne. unfold modal_count.
  destruct (counts_spec sep sample) as [Hnd Hget].
  set (counts := fold_left (count_fields sep) sample []) in *.
  assert (Hcn : counts <> []).
  { destruct sample as [|ln sample]; [ contradiction | ].
    intros Hc. specialize (Hget (nfields sep ln)). rewrite Hc in Hget. simpl in Hget.
    unfold frequency in Hget. simpl in Hget. rewrite Nat.eqb_refl in Hget.
    simpl in Hget. discriminate. }
  destruct (PyDict.max_by snd counts) as [[n f]|] eqn:E;
    [ | destruct counts; [ contradiction | discriminate ] ].
  exists n, f. split; [ reflexivity | ].
  apply max_by_spec in E. destruct E as [Hin Hmax].
  apply (In_get Nat.eqb nat_eqb_eq _ _ _ Hnd) in Hin.
  rewrite Hget in Hin.
  destruct (frequency sep sample n =? 0) eqn:E0; [ discriminate | ].
  inversion Hin; subst f. apply Nat.eqb_neq in E0.
  split; [ reflexivity | ]. split; [ lia | ].
  intros m. destruct (frequency sep sample m =? 0) eqn:Em.
  - apply Nat.eqb_eq in Em. lia.
  - specialize (Hget m). rewrite Em in Hget.
    apply (get_In Nat.eqb nat_eqb_eq) in Hget. apply Hmax in Hget. exact Hget.
Qed.

Lemma frequency_prefix_kept sep n cols lines :
  0 < frequency sep (firstn n lines) cols ->
  length (filter (has_fields sep cols) lines) <> 0.
Proof.
  unfold frequency. intros H.
  destruct (filter _ (firstn n lines)) as [|ln l] eqn:E; [ simpl in H; lia | ].
  assert (Hin : In ln (filter (fun ln => nfields sep ln =? cols) (firstn n lines)))
    by (rewrite E; now left).
  apply filter_In in Hin. destruct Hin as [Hin Hc].
  assert (Hin' : In ln (filter (has_fields sep cols) lines)).
  { apply filter_In. split; [ | now rewrite has_fields_nfields ].
    rewrite <- (firstn_skipn n lines). apply in_or_app; now left. }
  destruct (filter (has_fields sep cols) lines); [ contradiction | discriminate ].
Qed.

(** In a sample without semicolons every line has one field under the
    semicolon, so the semicolon's most frequent count occurs in every
    line.  Unless all sampled lines have the same number of commas, the
    cleaner therefore settles on the semicolon with one column, and keeps
    every line. *)
Lemma semicolon_free_mode sample :
  sample <> [] ->
  (forall ln, In ln sample -> PyStr.count_char ";" ln = 0) ->
  forall n f, is_mode ";" sample n f -> n = 1 /\ f = length sample.
Proof.
  intros Hne Hfree n f (Hf & Hpos & Hmax).
  assert (H1 : frequency ";" sample 1 = length sample).
  { unfold frequency. clear -Hfree. induction sample as [|ln l IH]; [ reflexivity | ].
    cbn [filter]. unfold nfields at 1. rewrite (Hfree ln) by now left.
    cbn [Nat.eqb length]. f_equal. apply IH. intros; apply Hfree; now right. }
  assert (Hn : forall m, m <> 1 -> frequency ";" sample m = 0).
  { intros m Hm. unfold frequency. clear -Hfree Hm.
    induction sample as [|ln l IH]; [ reflexivity | ].
    cbn [filter]. unfold nfields at 1. rewrite (Hfree ln) by now left.
    destruct (1 =? m) eqn:E; [ apply Nat.eqb_eq in E; congruence | ].
    apply IH. intros; apply Hfree; now right. }
  destruct (Nat.eq_dec n 1) as [-> | Hne1]; [ split; congruence | ].
  rewrite Hn in Hf by assumption. lia.
Qed.

(** What the last resort does, for a file of at least 2000 lines on which
    the first six strategies fail: it takes the first 2000 lines as sample;
    [nc] and [ns] are most frequent field counts of the sample under the
    comma and under the semicolon, occurring [fc] and [fs'] times; the
    comma is chosen when [fs' <= fc], the semicolon otherwise; every line
    of the whole file whose field count under the chosen separator is the
    chosen count is kept, in order, and no other; the kept lines are
    parsed with that separator; when the parse returns, the numbers of
    kept and of all lines are printed, and its table is returned if it has
    a column.  When no line of the file holds a semicolon and the sampled
    lines do not all have the same number of commas, the semicolon is
    chosen with one column and every line of the file is kept. *)
Lemma modal_cleaner_long_file path w content :
  fs_node (w_fs w) path = Some (RegFile content) ->
  2000 <= length (decode_lines content) ->
  (forall s, In s (firstn 6 ladder) -> fails (w_fs w) path s) ->
  let lines := decode_lines content in
  let sample := firstn 2000 lines in
  exists nc fc ns fs' sep cols,
    is_mode "," sample nc fc /\ is_mode ";" sample ns fs' /\
    (sep, cols) = (if fs' <=? fc then (","%char, nc) else (";"%char, ns)) /\
    ((forall ln, In ln lines -> PyStr.count_char ";" ln = 0) -> fc < 2000 ->
       sep = ";"%char /\ cols = 1 /\
       filter (fun ln => nfields sep ln =? cols) lines = lines) /\
    let rows := filter (fun ln => nfields sep ln =? cols) lines in
    let text := PyStr.join_empty rows in
    let before :=
      map (start_event path) (firstn 6 ladder)
      ++ [EvPrint MsgModalAttempt; EvOpen path; EvOpen path;
          EvReadCsv (SrcStringIO text) (kwargs_sep sep)] in
    match pandas_read_csv (InText text) (kwargs_sep sep) with
    | Ok df =>
        _try_read path w
        = (if ncols df =? 0
           then Raise (RuntimeError_Failed path (Some EmptyDataError_Modal))
           else Ok df,
           extend w (before ++ [EvPrint (MsgModalKept (length rows) (length lines) sep cols)]))
    | Raise e =>
        _try_read path w = (Raise (RuntimeError_Failed path (Some e)), extend w before)
    end.
Proof.
  destruct w as [fs log]. intros Hnode Hlen Hf lines sample.
  unfold extend; cbn [w_fs w_log] in *.
  assert (Hsample : sample <> []).
  { intros E. assert (H : length sample = 2000) by (apply firstn_length_le; exact Hlen).
    rewrite E in H. discriminate. }
  destruct (modal_count_spec "," sample Hsample) as (nc & fc & Ec & Hc).
  destruct (modal_count_spec ";" sample Hsample) as (ns & fs' & Es & Hs).
  exists nc, fc, ns, fs'.
  exists (fst (chosen (nc, fc) (ns, fs'))), (snd (chosen (nc, fc) (ns, fs'))).
  split; [ exact Hc | ]. split; [ exact Hs | ].
  split; [ unfold chosen; cbn [fst snd]; destruct (fs' <=? fc); reflexivity | ].
  split.
  { intros Hfree Hmixed.
    assert (Hin : forall ln, In ln sample -> In ln lines).
    { intros ln Hln. rewrite <- (firstn_skipn 2000 lines). apply in_or_app; now left. }
    destruct (semicolon_free_mode sample Hsample (fun ln Hln => Hfree ln (Hin ln Hln))
                ns fs' Hs) as [-> ->].
    assert (Hlen' : length sample = 2000) by (apply firstn_length_le; exact Hlen).
    unfold chosen; cbn [fst snd]. rewrite Hlen'.
    destruct (2000 <=? fc) eqn:E; [ apply Nat.leb_le in E; lia | ]. cbn [fst snd].
    repeat split.
    clear -Hfree. induction lines as [|ln l IH]; [ reflexivity | ].
    cbn [filter]. unfold nfields at 1. rewrite (Hfree ln) by now left.
    cbn [Nat.eqb]. f_equal. apply IH. intros; apply Hfree; now right. }
  set (sep := fst (chosen (nc, fc) (ns, fs'))).
  set (cols := snd (chosen (nc, fc) (ns, fs'))).
  cbv zeta.
  assert (Hrows : filter (fun ln => nfields sep ln =? cols) lines
                  = filter (has_fields sep cols) lines)
    by (apply filter_ext; intros; now rewrite has_fields_nfields).
  rewrite Hrows.
  assert (Hkept : (length (filter (has_fields sep cols) lines) =? 0) = false).
  { apply Nat.eqb_neq. apply (frequency_prefix_kept sep 2000).
    fold sample. subst sep cols. unfold chosen; cbn [fst snd].
    destruct (fs' <=? fc); cbn [fst snd].
    - destruct Hc as (-> & Hpos & _). exact Hpos.
    - destruct Hs as (-> & Hpos & _). exact Hpos. }
  assert (Hrun : _try_read path (mk_world fs log)
                 = match modal_clean path sample
                           (mk_world fs ((log ++ map (start_event path) (firstn 6 ladder))
                                           ++ [EvPrint MsgModalAttempt; EvOpen path])) with
                   | (Ok (inl df), w') => (Ok df, w')
                   | (Ok (inr last_exc), w') => (Raise (RuntimeError_Failed path last_exc), w')
                   | (Raise e, w') => (Raise e, w')
                   end).
  { unfold _try_read. rewrite bind_unfold.
    destruct (first_six_fail fs path log
                (fun last_exc => sample_lines <- read_sample path ;;
                                 modal_stage path sample_lines last_exc) Hf) as (e & ->).
    rewrite bind_unfold, read_sample_run.
    unfold sample_of. rewrite Hnode. fold lines. rewrite next_lines_long by exact Hlen.
    fold sample. unfold modal_stage.
    destruct sample as [|ln sample'] eqn:Esample; [ contradiction | ].
    destruct (modal_clean path (ln :: sample') _) as [[[df|le]|e'] w']; reflexivity. }
  rewrite Hrun, modal_clean_run, Ec, Es. cbv zeta. fold sep cols.
  rewrite Hnode. fold lines. rewrite Hkept.
  destruct (pandas_read_csv _ _) as [df|e].
  - rewrite <- !app_assoc. cbn [app]. destruct (ncols df =? 0); reflexivity.
  - rewrite <- !app_assoc. reflexivity.
Qed.

(* ===================================================================== *)
(** ** Choosing the file *)
(* ===================================================================== *)

Lemma os_path_getsize_run p fs log :
  os_path_getsize p (mk_world fs log)
  = (match fs_node fs p with
     | Some n => Ok (node_size n)
     | None => Raise (OSError p)
     end, mk_world fs log).
Proof.
  unfold os_path_getsize, bind, stat, ret, raise; cbn [w_fs].
  destruct (fs_node fs p); reflexivity.
Qed.

Lemma os_path_exists_run p fs log :
  os_path_exists p (mk_world fs log)
  = (Ok (match fs_node fs p with Some _ => true | None => false end), mk_world fs log).
Proof. reflexivity. Qed.

Lemma exists_nonempty_run p fs log :
  exists_nonempty p (mk_world fs log) = (Ok (usable fs p), mk_world fs log).
Proof.
  unfold exists_nonempty, usable, size_of.
  rewrite bind_unfold, os_path_exists_run.
  destruct (fs_node fs p) as [n|] eqn:E; [ | reflexivity ].
  rewrite bind_unfold, os_path_getsize_run, E. reflexivity.
Qed.

Lemma non_empty_of_run csvs fs log :
  (forall p, In p csvs -> fs_node fs p <> None) ->
  non_empty_of csvs (mk_world fs log)
  = (Ok (map (fun p => (p, size_of fs p)) (filter (usable fs) csvs)), mk_world fs log).
Proof.
  induction csvs as [|p csvs IH]; intros Hex; [ reflexivity | ].
  cbn [non_empty_of filter].
  rewrite bind_unfold, os_path_getsize_run.
  destruct (fs_node fs p) as [n|] eqn:E; [ | exfalso; apply (Hex p); [ now left | exact E ] ].
  assert (Hsz : size_of fs p = node_size n) by (unfold size_of; now rewrite E).
  unfold usable at 1. rewrite Hsz.
  destruct (0 <? node_size n)%N eqn:Epos.
  - rewrite bind_unfold, os_path_getsize_run, E.
    rewrite bind_unfold, IH by (intros; apply Hex; now right).
    unfold ret. cbn [map]. rewrite Hsz. reflexivity.
  - apply IH. intros; apply Hex; now right.
Qed.

Lemma insert_desc_perm x l : Permutation (x :: l) (insert_desc x l).
Proof.
  induction l as [|y l IH]; cbn [insert_desc]; [ reflexivity | ].
  destruct (snd x <? snd y)%N; [ | reflexivity ].
  rewrite perm_swap. now constructor.
Qed.

(** Sorting rearranges the entries and loses none. *)
Lemma sort_desc_perm l : Permutation l (sort_desc l).
Proof.
  induction l as [|x l IH]; cbn [sort_desc]; [ constructor | ].
  rewrite <- insert_desc_perm. now constructor.
Qed.

(** The head of the sorted list is an entry of largest size. *)
Lemma sort_desc_head l :
  l <> [] ->
  exists t rest, sort_desc l = t :: rest /\ In t l /\ forall u, In u l -> (snd u <= snd t)%N.
Proof.
  induction l as [|x l IH]; [ congruence | intros _ ].
  cbn [sort_desc]. destruct l as [|y l'].
  - exists x, []. simpl. repeat split; auto. intros u [<- | []]. lia.
  - destruct IH as (t & rest & Es & Hin & Hmax); [ discriminate | ].
    rewrite Es. cbn [insert_desc].
    destruct (snd x <? snd t)%N eqn:E.
    + apply N.ltb_lt in E. exists t, (insert_desc x rest).
      repeat split; [ now right | ].
      intros u [<- | Hu]; [ lia | now apply Hmax ].
    + apply N.ltb_ge in E. exists x, (t :: rest).
      repeat split; [ now left | ].
      intros u [<- | Hu]; [ lia | ]. specialize (Hmax u Hu). lia.
Qed.

(** What [find_best_csv] does: the state is left as it was, and the
    outcome is read off the file system in three steps. *)
Lemma find_best_csv_run base_dir preferred fs log :
  glob_sound fs (os_path_join base_dir "*.csv") ->
  let pref_path := os_path_join base_dir preferred in
  let csvs := fs_glob fs (os_path_join base_dir "*.csv") in
  find_best_csv base_dir preferred (mk_world fs log)
  = (if usable fs pref_path then Ok pref_path
     else if usable fs DATA_FILE then Ok DATA_FILE
     else match csvs with
          | [] => Raise (FileNotFoundError_NoCsv base_dir)
          | _ =>
              match sort_desc (map (fun p => (p, size_of fs p)) (filter (usable fs) csvs)) with
              | t :: _ => Ok (fst t)
              | [] => Raise (ValueError_AllEmpty base_dir csvs)
              end
          end,
     mk_world fs log).
Proof.
  intros Hglob pref_path csvs. unfold find_best_csv. fold pref_path.
  rewrite bind_unfold, exists_nonempty_run.
  destruct (usable fs pref_path); [ reflexivity | ].
  rewrite bind_unfold, exists_nonempty_run.
  destruct (usable fs DATA_FILE); [ reflexivity | ].
  rewrite bind_unfold. unfold glob at 1. cbn [w_fs]. fold csvs.
  destruct csvs as [|p rest] eqn:Ecsvs; [ reflexivity | ].
  rewrite bind_unfold, non_empty_of_run by (intros q Hq; apply Hglob; fold csvs; now rewrite Ecsvs).
  destruct (map _ (filter (usable fs) (p :: rest))) as [|t ts] eqn:Ene; [ reflexivity | ].
  destruct (sort_desc_head (t :: ts)) as (t' & rest' & -> & _); [ discriminate | ].
  reflexivity.
Qed.

(** The three steps of [find_best_csv] when every listed path is
    present. *)
Lemma find_best_csv_steps base_dir preferred w :
  glob_sound (w_fs w) (os_path_join base_dir "*.csv") ->
  let fs := w_fs w in
  let pref_path := os_path_join base_dir preferred in
  let csvs := fs_glob fs (os_path_join base_dir "*.csv") in
  let r := fst (find_best_csv base_dir preferred w) in
  snd (find_best_csv base_dir preferred w) = w /\
  (usable fs pref_path = true -> r = Ok pref_path) /\
  (usable fs pref_path = false -> usable fs DATA_FILE = true -> r = Ok DATA_FILE) /\
  (usable fs pref_path = false -> usable fs DATA_FILE = false ->
     (exists q, In q csvs /\ usable fs q = true) ->
     exists p, r = Ok p /\ In p csvs /\ usable fs p = true /\
               forall q, In q csvs -> (size_of fs q <= size_of fs p)%N) /\
  (usable fs pref_path = false -> usable fs DATA_FILE = false ->
     csvs = [] -> r = Raise (FileNotFoundError_NoCsv base_dir)) /\
  (usable fs pref_path = false -> usable fs DATA_FILE = false ->
     csvs <> [] -> (forall q, In q csvs -> size_of fs q = 0%N) ->
     r = Raise (ValueError_AllEmpty base_dir csvs)).
Proof.
  destruct w as [fs log]. cbn [w_fs]. intros Hglob. cbv zeta.
  rewrite (find_best_csv_run base_dir preferred fs log Hglob).
  set (pref_path := os_path_join base_dir preferred).
  set (csvs := fs_glob fs (os_path_join base_dir "*.csv")).
  cbn [fst snd].
  split; [ reflexivity | ].
  split; [ intros ->; reflexivity | ].
  split; [ intros -> ->; reflexivity | ].
  split; [ | split ].
  - intros -> -> (q & Hq & Hu).
    destruct csvs as [|c cs] eqn:Ecsvs; [ contradiction | ].
    set (ne := map (fun p => (p, size_of fs p)) (filter (usable fs) (c :: cs))).
    assert (Hne : ne <> []).
    { subst ne. intros E. apply map_eq_nil in E.
      assert (Hin : In q (filter (usable fs) (c :: cs))) by (apply filter_In; auto).
      rewrite E in Hin. contradiction. }
    destruct (sort_desc_head ne Hne) as (t & rest & -> & Hin & Hmax).
    exists (fst t). split; [ reflexivity | ].
    subst ne. apply in_map_iff in Hin. destruct Hin as (p & <- & Hp).
    apply filter_In in Hp. destruct Hp as [Hp Hup]. cbn [fst].
    split; [ exact Hp | ]. split; [ exact Hup | ].
    intros q' Hq'. destruct (usable fs q') eqn:Eq'.
    + specialize (Hmax (q', size_of fs q')). cbn [snd] in Hmax. apply Hmax.
      apply in_map_iff. exists q'. split; [ reflexivity | ]. apply filter_In; auto.
    + unfold usable in Eq'. apply N.ltb_ge in Eq'. lia.
  - intros -> -> ->. reflexivity.
  - intros -> -> Hne Hzero.
    destruct csvs as [|c cs] eqn:Ecsvs; [ contradiction | ].
    assert (E : filter (usable fs) (c :: cs) = []).
    { destruct (filter (usable fs) (c :: cs)) as [|x xs] eqn:Ef; [ reflexivity | ].
      assert (Hx : In x (filter (usable fs) (c :: cs))) by (rewrite Ef; now left).
      apply filter_In in Hx. destruct Hx as [Hx Hu].
      unfold usable in Hu. rewrite (Hzero x Hx) in Hu. discriminate. }
    rewrite E. reflexivity.
Qed.

(** The list comprehension of [find_best_csv] keeps usable files only, and
    the only exception it lets out is the [OSError] of
    [os.path.getsize]. *)
Lemma non_empty_of_cases csvs fs log :
  snd (non_empty_of csvs (mk_world fs log)) = mk_world fs log /\
  match fst (non_empty_of csvs (mk_world fs log)) with
  | Ok l => forall t, In t l -> usable fs (fst t) = true
  | Raise (OSError _) => True
  | Raise _ => False
  end.
Proof.
  induction csvs as [|p csvs IH]; cbn [non_empty_of].
  - split; [ reflexivity | intros t [] ].
  - rewrite bind_unfold, os_path_getsize_run.
    destruct (fs_node fs p) as [n|] eqn:E; [ | split; [ reflexivity | exact I ] ].
    destruct (0 <? node_size n)%N eqn:Epos; [ | exact IH ].
    rewrite bind_unfold, os_path_getsize_run, E. rewrite bind_unfold.
    destruct IH as [Hw IH].
    destruct (non_empty_of csvs (mk_world fs log)) as [[l|e] w1]; cbn [fst snd] in *.
    + subst w1. split; [ reflexivity | ]. cbn [fst].
      intros t [<- | Ht]; [ | now apply IH ].
      cbn [fst]. unfold usable, size_of. now rewrite E.
    + split; [ exact Hw | exact IH ].
Qed.

(** [find_best_csv] leaves the state as it was; a path it returns is a
    usable file; it raises its own two exceptions or the [OSError] of
    [os.path.getsize]. *)
Lemma find_best_csv_cases base_dir preferred w r w' :
  find_best_csv base_dir preferred w = (r, w') ->
  w' = w /\
  match r with
  | Ok p => usable (w_fs w) p = true
  | Raise (FileNotFoundError_NoCsv _) | Raise (ValueError_AllEmpty _ _)
  | Raise (OSError _) => True
  | Raise _ => False
  end.
Proof.
  destruct w as [fs log]. cbn [w_fs]. unfold find_best_csv.
  rewrite bind_unfold, exists_nonempty_run.
  destruct (usable fs (os_path_join base_dir preferred)) eqn:Ep.
  { intros H; inversion H; subst. split; [ reflexivity | exact Ep ]. }
  rewrite bind_unfold, exists_nonempty_run.
  destruct (usable fs DATA_FILE) eqn:Ed.
  { intros H; inversion H; subst. split; [ reflexivity | exact Ed ]. }
  rewrite bind_unfold. unfold glob at 1. cbn [w_fs].
  destruct (fs_glob fs (os_path_join base_dir "*.csv")) as [|c cs].
  { intros H; inversion H; subst. split; [ reflexivity | exact I ]. }
  rewrite bind_unfold.
  destruct (non_empty_of_cases (c :: cs) fs log) as [Hw Hl].
  destruct (non_empty_of (c :: cs) (mk_world fs log)) as [[l|e] w1]; cbn [fst snd] in *.
  - subst w1. destruct l as [|t l].
    { intros H; inversion H; subst. split; [ reflexivity | exact I ]. }
    destruct (sort_desc_head (t :: l)) as (t' & rest & -> & Hin & _); [ discriminate | ].
    intros H; inversion H; subst. split; [ reflexivity | ]. now apply Hl.
  - intros H; inversion H; subst. split; [ reflexivity | ].
    destruct e; try contradiction; exact I.
Qed.

(** The first two steps and the empty listing, whatever is listed. *)
Lemma find_best_csv_head base_dir preferred fs log :
  let pref_path := os_path_join base_dir preferred in
  (usable fs pref_path = true ->
   find_best_csv base_dir preferred (mk_world fs log) = (Ok pref_path, mk_world fs log)) /\
  (usable fs pref_path = false -> usable fs DATA_FILE = true ->
   find_best_csv base_dir preferred (mk_world fs log) = (Ok DATA_FILE, mk_world fs log)) /\
  (usable fs pref_path = false -> usable fs DATA_FILE = false ->
   fs_glob fs (os_path_join base_dir "*.csv") = [] ->
   find_best_csv base_dir preferred (mk_world fs log)
   = (Raise (FileNotFoundError_NoCsv base_dir), mk_world fs log)).
Proof.
  intros pref_path. unfold find_best_csv. fold pref_path.
  rewrite bind_unfold, exists_nonempty_run.
  split; [ intros ->; reflexivity | ].
  split.
  - intros -> Hd. rewrite bind_unfold, exists_nonempty_run, Hd. reflexivity.
  - intros -> Hd Hg. rewrite bind_unfold, exists_nonempty_run, Hd.
    rewrite bind_unfold. unfold glob at 1. cbn [w_fs]. rewrite Hg. reflexivity.
Qed.

(** C6 (amended): [find_best_csv] leaves the state as it was and selects,
    in order, (a) the preferred file when it is present and not empty,
    (b) otherwise the fixed fallback file [DATA_FILE] when it is present
    and not empty, (c) otherwise, provided every path the pattern [*.csv]
    lists in the directory is present, a largest non-empty file among
    those listed; when neither (a) nor (b) applies it raises
    [FileNotFoundError] if the pattern lists no file at all, and the
    [ValueError] of empty input if it lists files and every one of them is
    present with zero bytes. *)
Theorem find_best_csv_selection base_dir preferred w :
  let fs := w_fs w in
  let pref_path := os_path_join base_dir preferred in
  let csvs := fs_glob fs (os_path_join base_dir "*.csv") in
  let r := fst (find_best_csv base_dir preferred w) in
  snd (find_best_csv base_dir preferred w) = w /\
  (usable fs pref_path = true -> r = Ok pref_path) /\
  (usable fs pref_path = false -> usable fs DATA_FILE = true -> r = Ok DATA_FILE) /\
  (usable fs pref_path = false -> usable fs DATA_FILE = false ->
     (forall q, In q csvs -> fs_node fs q <> None) ->
     (exists q, In q csvs /\ usable fs q = true) ->
     exists p, r = Ok p /\ In p csvs /\ usable fs p = true /\
               forall q, In q csvs -> (size_of fs q <= size_of fs p)%N) /\
  (usable fs pref_path = false -> usable fs DATA_FILE = false ->
     csvs = [] -> r = Raise (FileNotFoundError_NoCsv base_dir)) /\
  (usable fs pref_path = false -> usable fs DATA_FILE = false ->
     csvs <> [] ->
     (forall q, In q csvs -> exists n, fs_node fs q = Some n /\ node_size n = 0%N) ->
     r = Raise (ValueError_AllEmpty base_dir csvs)).
Proof.
  destruct w as [fs log]. cbn [w_fs]. cbv zeta.
  destruct (find_best_csv_head base_dir preferred fs log) as (Ha & Hb & Hd).
  split.
  { destruct (find_best_csv base_dir preferred (mk_world fs log)) as [r w'] eqn:E.
    apply (find_best_csv_cases _ _ _ _ _ E). }
  split; [ intros Hp; now rewrite (Ha Hp) | ].
  split; [ intros Hp Hf; now rewrite (Hb Hp Hf) | ].
  split; [ | split ].
  - intros Hp Hf Hglob Hex.
    exact (proj1 (proj2 (proj2 (proj2
             (find_best_csv_steps base_dir preferred (mk_world fs log) Hglob))))
             Hp Hf Hex).
  - intros Hp Hf Hg. now rewrite (Hd Hp Hf Hg).
  - intros Hp Hf Hne Hzero.
    assert (Hglob : glob_sound fs (os_path_join base_dir "*.csv")).
    { intros q Hq. destruct (Hzero q Hq) as (n & -> & _). discriminate. }
    apply (proj2 (proj2 (proj2 (proj2 (proj2
             (find_best_csv_steps base_dir preferred (mk_world fs log) Hglob)))))
             Hp Hf Hne).
    intros q Hq. destruct (Hzero q Hq) as (n & Hn & Hz).
    unfold size_of. cbn [w_fs]. now rewrite Hn.
Qed.

(** C10: the fallback of step (b) is the constant [DATA_FILE], the file
    [air_quality_data.csv] of the module's directory [BASE_DIR], whatever
    [base_dir] is given; step (a) looks at [preferred] in [base_dir], and
    step (c) at what the pattern [*.csv] lists in [base_dir]. *)
Theorem fallback_is_module_file base_dir preferred w :
  glob_sound (w_fs w) (os_path_join base_dir "*.csv") ->
  let fs := w_fs w in
  let r := fst (find_best_csv base_dir preferred w) in
  DATA_FILE = os_path_join BASE_DIR "air_quality_data.csv" /\
  (usable fs (os_path_join base_dir preferred) = true ->
     r = Ok (os_path_join base_dir preferred)) /\
  (usable fs (os_path_join base_dir preferred) = false ->
     usable fs (os_path_join BASE_DIR "air_quality_data.csv") = true ->
     r = Ok (os_path_join BASE_DIR "air_quality_data.csv")) /\
  (usable fs (os_path_join base_dir preferred) = false ->
     usable fs (os_path_join BASE_DIR "air_quality_data.csv") = false ->
     forall p, r = Ok p -> In p (fs_glob fs (os_path_join base_dir "*.csv"))).
Proof.
  intros Hglob.
  destruct (find_best_csv_steps base_dir preferred w Hglob)
    as (_ & Ha & Hb & Hc & Hd & He).
  cbv zeta. set (fs := w_fs w) in *. set (r := fst (find_best_csv base_dir preferred w)) in *.
  split; [ reflexivity | ]. split; [ exact Ha | ]. split; [ exact Hb | ].
  intros Hp Hf p Hr. fold DATA_FILE in Hf.
  destruct (fs_glob fs (os_path_join base_dir "*.csv")) as [|c cs] eqn:Ecsvs.
  - subst r. rewrite (Hd Hp Hf eq_refl) in Hr. discriminate.
  - destruct (existsb (usable fs) (c :: cs)) eqn:Ex.
    + apply existsb_exists in Ex. destruct (Hc Hp Hf Ex) as (p' & Hr' & Hin & _).
      subst r. rewrite Hr' in Hr. inversion Hr; subst. exact Hin.
    + assert (Hz : forall q, In q (c :: cs) -> size_of fs q = 0%N).
      { intros q Hq. destruct (usable fs q) eqn:Eq.
        - assert (existsb (usable fs) (c :: cs) = true)
            by (apply existsb_exists; eauto). congruence.
        - unfold usable in Eq. apply N.ltb_ge in Eq. lia. }
      subst r. rewrite (He Hp Hf) in Hr; [ discriminate | discriminate | exact Hz ].
Qed.

(* ===================================================================== *)
(** ** Empty input, empty result, repeated calls *)
(* ===================================================================== *)

(** C7: given a path at which nothing is present, [load_data] raises
    [FileNotFoundError]; given a path to a file of zero bytes, it raises
    the [ValueError] of empty input; in both cases the state is left as it
    was, so that no parsing strategy was begun and nothing was printed.
    Called without a path, it takes the file [find_best_csv] selects,
    which is never an empty one, and an exception of [find_best_csv]
    (a [FileNotFoundError] or the [ValueError] of empty input) ends the
    call in the same way. *)
Theorem load_data_empty_input w :
  (forall path, fs_node (w_fs w) path = None ->
     load_data (Some path) w = (Raise (FileNotFoundError_DataFile path), w)) /\
  (forall path, fs_node (w_fs w) path <> None -> size_of (w_fs w) path = 0%N ->
     load_data (Some path) w = (Raise (ValueError_EmptyFile path), w)) /\
  (glob_sound (w_fs w) (os_path_join BASE_DIR "*.csv") ->
     match fst (find_best_csv BASE_DIR PREFERRED_FILENAME w) with
     | Ok p => usable (w_fs w) p = true
     | Raise e =>
         load_data None w = (Raise e, w) /\
         (class_of e = cls_FileNotFoundError \/ class_of e = cls_ValueError)
     end).
Proof.
  destruct w as [fs log]. cbn [w_fs]. split; [ | split ].
  - intros path Hnone. unfold load_data.
    rewrite bind_unfold. unfold ret at 1. cbv beta iota.
    rewrite bind_unfold, os_path_exists_run, Hnone. reflexivity.
  - intros path Hsome Hzero. unfold load_data.
    rewrite bind_unfold. unfold ret at 1. cbv beta iota.
    rewrite bind_unfold, os_path_exists_run.
    unfold size_of in Hzero.
    destruct (fs_node fs path) as [n|] eqn:E; [ | congruence ].
    cbn [negb]. rewrite bind_unfold, os_path_getsize_run, E, Hzero. reflexivity.
  - intros Hglob.
    pose proof (find_best_csv_steps BASE_DIR PREFERRED_FILENAME (mk_world fs log) Hglob)
      as (Hsnd & Ha & Hb & Hc & Hd & He).
    cbn [w_fs] in *.
    destruct (find_best_csv BASE_DIR PREFERRED_FILENAME (mk_world fs log)) as [r w'] eqn:Er.
    cbn [fst snd] in *. subst w'.
    set (pref_path := os_path_join BASE_DIR PREFERRED_FILENAME) in *.
    set (csvs := fs_glob fs (os_path_join BASE_DIR "*.csv")) in *.
    destruct (usable fs pref_path) eqn:Ep.
    { rewrite (Ha eq_refl). exact Ep. }
    destruct (usable fs DATA_FILE) eqn:Ed.
    { rewrite (Hb eq_refl eq_refl). exact Ed. }
    destruct csvs as [|c cs] eqn:Ecsvs.
    { rewrite (Hd eq_refl eq_refl eq_refl) in *.
      split; [ | left; reflexivity ].
      unfold load_data. rewrite bind_unfold, Er. reflexivity. }
    destruct (existsb (usable fs) (c :: cs)) eqn:Ex.
    + apply existsb_exists in Ex.
      destruct (Hc eq_refl eq_refl Ex) as (p & -> & _ & Hu & _). exact Hu.
    + assert (Hz : forall q, In q (c :: cs) -> size_of fs q = 0%N).
      { intros q Hq. destruct (usable fs q) eqn:Eq.
        - assert (existsb (usable fs) (c :: cs) = true)
            by (apply existsb_exists; eauto). congruence.
        - unfold usable in Eq. apply N.ltb_ge in Eq. lia. }
      assert (Hr : r = Raise (ValueError_AllEmpty BASE_DIR (c :: cs)))
        by (apply He; [ reflexivity | reflexivity | discriminate | exact Hz ]).
      rewrite Hr in *. split; [ | right; reflexivity ].
      unfold load_data. rewrite bind_unfold, Er. reflexivity.
Qed.






(** C9: the outcome of [load_data] and the lines it prints depend on the
    file system alone, not on what earlier calls left in the state; a call
    leaves the file system as it found it; so a second call on the
    unchanged files returns what the first returned and prints the same
    lines again. *)
Theorem load_data_repeatable path fs log log' :
  fst (load_data path (mk_world fs log)) = fst (load_data path (mk_world fs log')) /\
  let '(r1, w1) := load_data path (mk_world fs log) in
  let '(r2, w2) := load_data path w1 in
  r1 = r2 /\ w_fs w1 = fs /\ w_fs w2 = fs /\
  exists evs, w_log w1 = log ++ evs /\ w_log w2 = (log ++ evs) ++ evs.
Proof.
  destruct (reads_only_fs_load_data path fs) as (r & evs & H).
  split; [ now rewrite !H | ].
  rewrite H, H. repeat split; auto. exists evs. auto.
Qed.

(* ===================================================================== *)
(** ** Finding the column *)
(* ===================================================================== *)

Lemma string_eqb_eq a b : String.eqb a b = true <-> a = b.
Proof. apply String.eqb_eq. Qed.

Lemma get_make_col_map cols k :
  PyDict.get String.eqb (make_col_map cols) k = last_with_lower cols k.
Proof.
  unfold make_col_map, last_with_lower.
  induction cols as [|c cols IH] using rev_ind; [ reflexivity | ].
  rewrite fold_left_app, rev_app_distr. cbn [fold_left rev app find].
  destruct (String.eqb (PyStr.lower c) k) eqn:E.
  - apply String.eqb_eq in E; subst k. apply (get_set_same String.eqb string_eqb_eq).
  - rewrite (get_set_other String.eqb string_eqb_eq); [ exact IH | ].
    intros ->. rewrite String.eqb_refl in E. discriminate.
Qed.

Lemma is_some_find {A} (f : A -> bool) l : is_some (find f l) = existsb f l.
Proof.
  induction l as [|a l IH]; [ reflexivity | ]. cbn [find existsb].
  destruct (f a); [ reflexivity | exact IH ].
Qed.

Lemma existsb_rev_eq {A} (f : A -> bool) l : existsb f (rev l) = existsb f l.
Proof.
  destruct (existsb f l) eqn:E.
  - apply existsb_exists in E. destruct E as (x & Hx & Hf).
    apply existsb_exists. exists x. split; [ now apply in_rev in Hx | exact Hf ].
  - destruct (existsb f (rev l)) eqn:E'; [ | reflexivity ].
    apply existsb_exists in E'. destruct E' as (x & Hx & Hf).
    assert (existsb f l = true)
      by (apply existsb_exists; exists x; split; [ now apply in_rev | exact Hf ]).
    congruence.
Qed.

Lemma mem_make_col_map cols k :
  PyDict.mem String.eqb (make_col_map cols) k
  = existsb (fun h => String.eqb (PyStr.lower h) k) cols.
Proof.
  unfold PyDict.mem. rewrite get_make_col_map. unfold last_with_lower.
  rewrite <- existsb_rev_eq, <- is_some_find.
  destruct (find _ (rev cols)); reflexivity.
Qed.

Lemma match_candidates_spec cols cands :
  match_candidates (make_col_map cols) cands
  = match find (fun a => existsb (fun h => String.eqb (PyStr.lower h) (PyStr.lower a)) cols)
               cands with
    | Some a => last_with_lower cols (PyStr.lower a)
    | None => None
    end.
Proof.
  induction cands as [|a cands IH]; [ reflexivity | ].
  cbn [match_candidates find]. rewrite mem_make_col_map.
  destruct (existsb _ cols); [ apply get_make_col_map | exact IH ].
Qed.

Lemma getitem_present (df : DataFrame cell) c : In c (columns df) -> exists s, getitem df c = Ok s.
Proof.
  unfold columns, getitem. intros Hin. apply in_map_iff in Hin.
  destruct Hin as ([k col] & Hk & Hin). cbn [fst] in Hk. subst k.
  assert (H : In (c, col) (filter (fun kc => String.eqb (fst kc) c) (df_cols df)))
    by (apply filter_In; split; [ exact Hin | apply String.eqb_refl ]).
  destruct (filter _ (df_cols df)) as [|[k1 c1] [|kc2 l]]; [ contradiction | eauto | eauto ].
Qed.

Lemma is_numeric_dtype_run (df : DataFrame cell) c w :
  In c (columns df) -> is_numeric_dtype df c w = (Ok (numeric_label df c), w).
Proof.
  intros Hin. destruct (getitem_present df c Hin) as (s & Hs).
  unfold is_numeric_dtype, numeric_label. rewrite bind_unfold. unfold lift. rewrite Hs.
  destruct s; reflexivity.
Qed.

Lemma numeric_cols_of_run (df : DataFrame cell) cols w :
  incl cols (columns df) ->
  numeric_cols_of df cols w = (Ok (filter (numeric_label df) cols), w).
Proof.
  induction cols as [|c cols IH]; intros Hincl; [ reflexivity | ].
  cbn [numeric_cols_of filter].
  rewrite bind_unfold, is_numeric_dtype_run by (apply Hincl; now left).
  rewrite bind_unfold, IH by (intros x Hx; apply Hincl; now right).
  reflexivity.
Qed.

Lemma columns_set_columns (df : DataFrame cell) labels :
  length labels = length (df_cols df) -> columns (set_columns df labels) = labels.
Proof.
  unfold columns, set_columns. cbn [df_cols]. intros H.
  assert (H' : length labels = length (map snd (df_cols df))) by now rewrite length_map.
  revert H'. generalize (map snd (df_cols df)). clear H.
  induction labels as [|a labels IH]; intros [|b l] H; simpl in *; try discriminate; auto.
  f_equal. apply IH. lia.
Qed.

Lemma columns_trimmed (df : DataFrame cell) :
  columns (set_columns df (map PyStr.strip (columns df))) = map PyStr.strip (columns df).
Proof. apply columns_set_columns. unfold columns. now rewrite !length_map. Qed.

(** [select_column] goes through its four steps in their order; the
    third one takes the only entry of [numeric_cols]. *)
Lemma select_column_run (df : DataFrame cell) w :
  let df' := set_columns df (map PyStr.strip (columns df)) in
  let cols := map PyStr.strip (columns df) in
  select_column df w
  = match rule_alias cols with
    | Some c => (Ok (df', c), w)
    | None =>
        match rule_substring cols with
        | Some c => (Ok (df', c), w)
        | None =>
            match single_numeric_col df' with
            | Some c => (Ok (df', c), extend w [EvPrint (MsgSingleNumeric c)])
            | None =>
                match rule_generic cols with
                | Some c => (Ok (df', c), w)
                | None => (Raise (KeyError_NoColumn cols), w)
                end
            end
        end
    end.
Proof.
  intros df' cols. unfold select_column. fold df'.
  assert (Hc : columns df' = cols) by apply columns_trimmed.
  rewrite !Hc.
  rewrite match_candidates_spec. fold (rule_alias cols).
  destruct (rule_alias cols) as [c|]; [ reflexivity | ].
  fold (rule_substring cols).
  destruct (rule_substring cols) as [c|]; [ reflexivity | ].
  rewrite bind_unfold, bind_unfold.
  rewrite numeric_cols_of_run by (rewrite Hc; apply incl_refl).
  unfold single_numeric_col, numeric_cols. rewrite Hc.
  destruct (filter (numeric_label df') cols) as [|c [|c2 l]].
  - rewrite !mem_make_col_map, !get_make_col_map. unfold rule_generic.
    unfold last_with_lower at 1. rewrite <- (existsb_rev_eq _ cols), <- is_some_find.
    fold (last_with_lower cols "value").
    destruct (last_with_lower cols "value") as [h|]; [ reflexivity | ].
    cbn [is_some]. unfold last_with_lower at 1.
    rewrite <- (existsb_rev_eq _ cols), <- is_some_find.
    fold (last_with_lower cols "measurement").
    destruct (last_with_lower cols "measurement") as [h|]; reflexivity.
  - destruct w; reflexivity.
  - rewrite !mem_make_col_map, !get_make_col_map. unfold rule_generic.
    unfold last_with_lower at 1. rewrite <- (existsb_rev_eq _ cols), <- is_some_find.
    fold (last_with_lower cols "value").
    destruct (last_with_lower cols "value") as [h|]; [ reflexivity | ].
    cbn [is_some]. unfold last_with_lower at 1.
    rewrite <- (existsb_rev_eq _ cols), <- is_some_find.
    fold (last_with_lower cols "measurement").
    destruct (last_with_lower cols "measurement") as [h|]; reflexivity.
Qed.

Lemma find_first {A} (f : A -> bool) pre x post :
  (forall y, In y pre -> f y = false) -> f x = true -> find f (pre ++ x :: post) = Some x.
Proof.
  intros Hpre Hx. induction pre as [|y pre IH]; cbn [app find].
  - now rewrite Hx.
  - rewrite (Hpre y) by now left. apply IH. intros; apply Hpre; now right.
Qed.

Lemma filter_key_distinct {B} (l : list (string * B)) k v :
  NoDup (map fst l) -> In (k, v) l ->
  filter (fun kc => String.eqb (fst kc) k) l = [(k, v)].
Proof.
  induction l as [|[k' v'] l IH]; intros Hnd Hin; [ contradiction | ].
  cbn [map fst] in Hnd. inversion Hnd as [|? ? Hk' Hnd']; subst.
  cbn [filter fst]. destruct Hin as [Heq | Hin].
  - inversion Heq; subst. rewrite String.eqb_refl. f_equal.
    clear IH Hnd' Hnd. induction l as [|[k1 v1] l IHl]; [ reflexivity | ].
    cbn [filter fst]. destruct (String.eqb_spec k1 k) as [-> | _].
    + exfalso. apply Hk'. now left.
    + apply IHl. intros H. apply Hk'. now right.
  - destruct (String.eqb_spec k' k) as [-> | _].
    + exfalso. apply Hk'. apply (in_map fst) in Hin. exact Hin.
    + now apply IH.
Qed.

Lemma getitem_distinct (df : DataFrame cell) k col :
  NoDup (columns df) -> In (k, col) (df_cols df) -> getitem df k = Ok (Series col).
Proof.
  intros Hnd Hin. unfold getitem. now rewrite (filter_key_distinct _ k col Hnd Hin).
Qed.

Lemma filter_map_fst {A B} (f : A -> bool) (g : A * B -> bool) (l : list (A * B)) :
  (forall kc, In kc l -> f (fst kc) = g kc) ->
  filter f (map fst l) = map fst (filter g l).
Proof.
  induction l as [|kc l IH]; intros H; [ reflexivity | ].
  cbn [map filter]. rewrite (H kc) by now left.
  rewrite IH by (intros; apply H; now right).
  destruct (g kc); reflexivity.
Qed.

(** When no two columns carry the same label, [numeric_cols] holds the
    labels of the numeric columns. *)
Lemma numeric_cols_distinct (df : DataFrame cell) :
  NoDup (columns df) -> numeric_cols df = numeric_columns df.
Proof.
  intros Hnd. unfold numeric_cols, numeric_columns, columns.
  apply filter_map_fst. intros [k col] Hin. cbn [fst snd]. unfold numeric_label.
  now rewrite (getitem_distinct df k col Hnd Hin).
Qed.

(** On a table whose trimmed headers are distinct, [select_column] first
    trims the headers, then applies the rules in this order until one
    resolves: the exact alias match, case ignored, in the order of the
    alias list; the substring test on the lowercase header; the only
    numeric column, with a warning printed; the headers [value], then
    [measurement]; when none resolves it raises the [KeyError] that lists
    the trimmed headers.  On every table, the header [PM2.5 (ug/m3)] is no
    alias and passes the substring test, so a table in which no header is
    an alias and no earlier header passes the test resolves to it by the
    second rule. *)
Lemma select_column_rule_order :
  (forall df w,
     let df' := set_columns df (map PyStr.strip (columns df)) in
     let cols := map PyStr.strip (columns df) in
     NoDup cols ->
     columns df' = cols /\
     select_column df w
     = match rule_alias cols with
       | Some c => (Ok (df', c), w)
       | None =>
           match rule_substring cols with
           | Some c => (Ok (df', c), w)
           | None =>
               match rule_single_numeric df' with
               | Some c => (Ok (df', c), extend w [EvPrint (MsgSingleNumeric c)])
               | None =>
                   match rule_generic cols with
                   | Some c => (Ok (df', c), w)
                   | None => (Raise (KeyError_NoColumn cols), w)
                   end
               end
           end
       end) /\
  (forall a, In a candidates -> PyStr.lower a <> PyStr.lower "PM2.5 (ug/m3)") /\
  looks_like_pm25 "PM2.5 (ug/m3)" = true /\
  (forall df w pre post,
     map PyStr.strip (columns df) = pre ++ "PM2.5 (ug/m3)" :: post ->
     rule_alias (pre ++ "PM2.5 (ug/m3)" :: post) = None ->
     (forall h, In h pre -> looks_like_pm25 h = false) ->
     select_column df w
     = (Ok (set_columns df (pre ++ "PM2.5 (ug/m3)" :: post), "PM2.5 (ug/m3)"), w)).
Proof.
  split; [ | split; [ | split ] ].
  - intros df w df' cols Hnd. split; [ apply columns_trimmed | ].
    rewrite select_column_run. fold df' cols.
    unfold single_numeric_col, rule_single_numeric.
    rewrite numeric_cols_distinct; [ reflexivity | ].
    unfold df'. rewrite columns_trimmed. exact Hnd.
  - intros a Ha Heq. unfold candidates in Ha. cbn [In] in Ha.
    repeat (destruct Ha as [<- | Ha]; [ vm_compute in Heq; discriminate | ]).
    contradiction.
  - reflexivity.
  - intros df w pre post Hcols Halias Hpre.
    rewrite select_column_run, Hcols, Halias.
    unfold rule_substring. rewrite (find_first looks_like_pm25 pre) by (auto; reflexivity).
    reflexivity.
Qed.

Lemma and_then_return m next w df w' :
  m w = (Ok (inl df), w') -> and_then m next w = (Ok (inl df), w').
Proof. intros H. unfold and_then. rewrite bind_unfold, H. reflexivity. Qed.

Lemma lower_alias_false cols k :
  (forall h, In h cols -> PyStr.lower h <> k) ->
  existsb (fun h => String.eqb (PyStr.lower h) k) cols = false.
Proof.
  intros H. destruct (existsb _ cols) eqn:E; [ | reflexivity ].
  apply existsb_exists in E. destruct E as (h & Hh & Heq).
  apply String.eqb_eq in Heq. exfalso. exact (H h Hh Heq).
Qed.

(** C8 (amended): when the strict UTF-8 parse with the default comma
    yields a table, [_try_read] returns that table after this one
    [read_csv] and begins no other strategy; when one of its trimmed
    headers is [pm2_5], no header reads [pm25] or [pm_25] when case is
    ignored, and the last header that reads [pm2_5] when case is ignored
    is spelled [pm2_5], the exact alias rule resolves to [pm2_5]. *)
Theorem pm2_5_on_first_strategy path w df :
  yields (w_fs w) path strict_utf8 df ->
  let cols := map PyStr.strip (columns df) in
  In "pm2_5" cols ->
  (forall h, In h cols -> PyStr.lower h <> "pm25" /\ PyStr.lower h <> "pm_25") ->
  last_with_lower cols "pm2_5" = Some "pm2_5" ->
  _try_read path w
  = (Ok df,
     extend w [start_event path strict_utf8;
               EvPrint (MsgReaderSuccess "utf-8 (default engine)" (ncols df) (nrows df))]) /\
  rule_alias cols = Some "pm2_5" /\
  forall w', select_column df w' = (Ok (set_columns df cols, "pm2_5"), w').
Proof.
  destruct w as [fs log]. intros Hy cols Hin Hno Hlast.
  unfold extend; cbn [w_fs w_log] in *.
  assert (Halias : rule_alias cols = Some "pm2_5").
  { unfold rule_alias, candidates. cbn [find].
    change (PyStr.lower "pm25") with "pm25".
    change (PyStr.lower "pm_25") with "pm_25".
    change (PyStr.lower "pm2_5") with "pm2_5".
    rewrite !lower_alias_false by (intros h Hh; apply (Hno h Hh)).
    assert (E : existsb (fun h => String.eqb (PyStr.lower h) "pm2_5") cols = true).
    { apply existsb_exists. exists "pm2_5". split; [ exact Hin | reflexivity ]. }
    rewrite E. exact Hlast. }
  split; [ | split; [ exact Halias | ] ].
  - unfold yields in Hy. cbn [strategy_kwargs] in Hy. destruct Hy as [Hread Hpos].
    unfold _try_read. rewrite bind_unfold.
    erewrite and_then_return; [ reflexivity | ].
    unfold attempts. cbn [attempts_loop].
    apply and_then_return. rewrite attempt_strict_run. cbn [att_kwargs att_label].
    rewrite Hread. destruct (ncols df =? 0) eqn:E; [ apply Nat.eqb_eq in E; lia | ].
    unfold columns, ncols. rewrite length_map. reflexivity.
  - intros w'. rewrite select_column_run. fold cols. rewrite Halias. reflexivity.
Qed.

End Properties.

(* ===================================================================== *)
(** * Further properties *)
(* ===================================================================== *)

(* ===================================================================== *)
(** ** The training windows *)
(* ===================================================================== *)

Section Windows.
Context {A : Type}.

Lemma skipn_nth_error (l : list A) k v :
  nth_error l k = Some v -> skipn k l = v :: skipn (S k) l.
Proof.
  revert l; induction k as [|k IH]; intros [|a l] H; try discriminate.
  - inversion H; reflexivity.
  - cbn [nth_error] in H. cbn [skipn]. rewrite (IH l H). reflexivity.
Qed.

Lemma slice_window (data : list A) i ts :
  slice data i (i + ts) = firstn ts (skipn i data).
Proof. unfold slice. now replace (i + ts - i) with ts by lia. Qed.

Lemma prepare_loop_seq (data : list A) ts m a X y :
  (m <> 0 -> a + m + ts <= length data) ->
  prepare_loop data ts (seq a m) X y
  = Ok (X ++ map (fun i => firstn ts (skipn i data)) (seq a m),
        y ++ firstn m (skipn (a + ts) data)).
Proof.
  revert a X y; induction m as [|m IH]; intros a X y H.
  - cbn [seq prepare_loop map firstn]. now rewrite !app_nil_r.
  - cbn [seq prepare_loop]. unfold item.
    assert (Hlen : a + S m + ts <= length data) by (apply H; discriminate).
    destruct (nth_error data (a + ts)) as [v|] eqn:E.
    + rewrite IH by lia. rewrite slice_window, <- !app_assoc.
      cbn [map app]. rewrite (skipn_nth_error data (a + ts) v E).
      replace (S a + ts) with (S (a + ts)) by lia. reflexivity.
    + apply nth_error_None in E. lia.
Qed.

(** The closed form of [prepare_data]: with [m] the number of rounds,
    the windows start at 0, 1, ..., m - 1 and the targets are the [m]
    values from position [time_step] on. *)
Lemma prepare_data_closed (data : list A) ts :
  prepare_data data ts
  = Ok (map (fun i => firstn ts (skipn i data)) (seq 0 (length data - ts - 1)),
        firstn (length data - ts - 1) (skipn ts data)).
Proof.
  unfold prepare_data. rewrite prepare_loop_seq by lia. reflexivity.
Qed.

(** X1: [prepare_data] never raises, and it returns as many windows as
    targets: [len(data) - time_step - 1] of each, none when that number is
    not positive. *)
Theorem prepare_data_counts (data : list A) ts :
  exists X y,
    prepare_data data ts = Ok (X, y) /\
    length X = length data - ts - 1 /\
    length y = length data - ts - 1 /\
    (length data <= ts + 1 -> X = [] /\ y = []).
Proof.
  rewrite prepare_data_closed. eexists _, _. split; [ reflexivity | ].
  rewrite length_map, length_seq, length_firstn, length_skipn.
  split; [ reflexivity | ]. split; [ lia | ].
  intros H. replace (length data - ts - 1) with 0 by lia. split; reflexivity.
Qed.

(** X2: Every window holds exactly [time_step] consecutive values, its target
    is the value that follows it in the series, and each window is the one
    before it moved on by one place: without its first value and with the
    target of the one before at the end. *)
Theorem prepare_data_windows (data : list A) ts X y :
  prepare_data data ts = Ok (X, y) ->
  forall i, i < length data - ts - 1 ->
    exists win v,
      nth_error X i = Some win /\ nth_error y i = Some v /\
      length win = ts /\
      win ++ [v] = firstn (ts + 1) (skipn i data) /\
      (S i < length data - ts - 1 -> nth_error X (S i) = Some (tl (win ++ [v]))).
Proof.
  rewrite prepare_data_closed. intros H i Hi. inversion H; subst X y; clear H.
  assert (Hv : exists v, nth_error data (i + ts) = Some v).
  { destruct (nth_error data (i + ts)) as [v|] eqn:E; [ eauto | ].
    apply nth_error_None in E. lia. }
  destruct Hv as (v & Hv).
  assert (Hwin : forall j, j < length data - ts - 1 ->
             nth_error (map (fun i => firstn ts (skipn i data)) (seq 0 (length data - ts - 1))) j
             = Some (firstn ts (skipn j data))).
  { intros j Hj. rewrite nth_error_map, nth_error_seq.
    destruct (Nat.ltb_spec j (length data - ts - 1)); [ reflexivity | lia ]. }
  assert (Hrun : firstn ts (skipn i data) ++ [v] = firstn (ts + 1) (skipn i data)).
  { assert (Hs : skipn i data
                 = firstn ts (skipn i data) ++ v :: skipn (S (i + ts)) data).
    { rewrite <- (skipn_nth_error data (i + ts) v Hv).
      rewrite Nat.add_comm, <- skipn_skipn. symmetry. apply firstn_skipn. }
    rewrite Hs at 2.
    assert (Hl : length (firstn ts (skipn i data)) = ts)
      by (rewrite length_firstn, length_skipn; lia).
    rewrite firstn_app, Hl. replace (ts + 1 - ts) with 1 by lia.
    rewrite (firstn_all2 (n := ts + 1) (firstn ts (skipn i data))) by lia.
    reflexivity. }
  exists (firstn ts (skipn i data)), v.
  split; [ now apply Hwin | ].
  split.
  { rewrite nth_error_firstn.
    destruct (Nat.ltb_spec i (length data - ts - 1)); [ | lia ].
    rewrite nth_error_skipn. now rewrite Nat.add_comm. }
  split; [ rewrite length_firstn, length_skipn; lia | ].
  split; [ exact Hrun | ].
  intros Hi'. rewrite Hwin by exact Hi'. f_equal.
  rewrite Hrun.
  assert (Hd : exists d rest, skipn i data = d :: rest /\ skipn (S i) data = rest).
  { destruct (nth_error data i) as [d|] eqn:E.
    - exists d, (skipn (S i) data). split; [ now apply skipn_nth_error | reflexivity ].
    - apply nth_error_None in E. lia. }
  destruct Hd as (d & rest & -> & ->).
  replace (ts + 1) with (S ts) by lia. reflexivity.
Qed.

(** X3: The last value of the series is never used: neither in a window nor
    as a target.  The result for a series that ends in [v] is the same for
    every [v]: all windows of the series before [v], with the values that
    follow them. *)
Theorem prepare_data_ignores_last (d : list A) (v : A) ts :
  prepare_data (d ++ [v]) ts
  = Ok (map (fun i => firstn ts (skipn i d)) (seq 0 (length d - ts)), skipn ts d).
Proof.
  rewrite prepare_data_closed, length_app. cbn [length].
  replace (length d + 1 - ts - 1) with (length d - ts) by lia.
  f_equal. f_equal.
  - apply map_ext_in. intros i Hi. apply in_seq in Hi.
    rewrite skipn_app, firstn_app, length_skipn.
    replace (ts - (length d - i)) with 0 by lia.
    cbn [firstn]. now rewrite app_nil_r.
  - rewrite skipn_app, firstn_app, length_skipn.
    replace (length d - ts - (length d - ts)) with 0 by lia.
    cbn [firstn]. rewrite app_nil_r. apply firstn_all2. rewrite length_skipn. lia.
Qed.

End Windows.

(* ===================================================================== *)
(** ** Training *)
(* ===================================================================== *)

Section TrainingProperties.
Context {hst : Host} {skl : Sklearn}.

Lemma array_size_windows {A} (data : list A) ts m :
  m + ts <= length data ->
  array_size (map (fun i => firstn ts (skipn i data)) (seq 0 m)) = m * ts.
Proof.
  intros H. unfold array_size. rewrite map_map.
  rewrite (map_ext_in _ (fun _ => ts)).
  - clear H. generalize 0. induction m as [|m IH]; intros a; [ reflexivity | ].
    change (ts + list_sum (map (fun _ : nat => ts) (seq (S a) m)) = S m * ts).
    rewrite IH. lia.
  - intros i Hi. apply in_seq in Hi. rewrite length_firstn, length_skipn. lia.
Qed.

(** X4: [train_model] needs twelve values.  When the loader returns [data]
    and the scaler is fitted: with at most 11 values it raises the
    [ValueError] of too little data, and nothing is fitted or saved; with
    12 or more it goes on to fit and save, on [len(data) - 11] windows of
    10 scaled values each and as many targets, which are what
    [prepare_data] makes of the scaled data. *)
Theorem train_model_needs_twelve {R : Type}
    (fit_and_save : (float -> float) -> list (list float) -> list float -> world -> R)
    (w w' : world) (data : list float) (scaler : float -> float) :
  load_data None w = (Ok data, w') ->
  fit_scaler data = Some scaler ->
  (length data <= 11 -> train_model fit_and_save w = (NotEnoughData, w')) /\
  (12 <= length data ->
     exists X y,
       train_model fit_and_save w = (Reached (fit_and_save scaler X y w'), w') /\
       prepare_data (map scaler data) 10 = Ok (X, y) /\
       length X = length data - 11 /\
       length y = length data - 11 /\
       Forall (fun win => length win = 10) X).
Proof.
  intros Hload Hfit. unfold train_model. rewrite Hload, Hfit.
  rewrite prepare_data_closed, length_map.
  split.
  - intros Hle. replace (length data - 10 - 1) with 0 by lia. reflexivity.
  - intros Hge. eexists _, _.
    rewrite array_size_windows by (rewrite length_map; lia).
    destruct (Nat.eqb_spec ((length data - 10 - 1) * 10) 0) as [E|_]; [ lia | ].
    split; [ reflexivity | ]. split; [ reflexivity | ].
    rewrite length_map, length_seq, length_firstn, length_skipn, length_map.
    split; [ lia | ]. split; [ lia | ].
    apply Forall_forall. intros win Hin. apply in_map_iff in Hin.
    destruct Hin as (i & <- & Hi). apply in_seq in Hi.
    rewrite length_firstn, length_skipn, length_map. lia.
Qed.

End TrainingProperties.

(* ===================================================================== *)
(** ** More on choosing the file *)
(* ===================================================================== *)

(** An entry that is larger than everything before it and at least as
    large as everything after it comes first in the sorted list. *)
Lemma sort_desc_first_max pre t post :
  (forall u, In u pre -> (snd u < snd t)%N) ->
  (forall u, In u post -> (snd u <= snd t)%N) ->
  exists rest, sort_desc (pre ++ t :: post) = t :: rest.
Proof.
  intros Hpre Hpost. induction pre as [|x pre IH]; cbn [app sort_desc].
  - destruct (sort_desc post) as [|h rest] eqn:E; cbn [insert_desc]; [ eauto | ].
    assert (Hh : In h post).
    { apply (Permutation_in h (Permutation_sym (sort_desc_perm post))).
      rewrite E. now left. }
    apply Hpost in Hh. destruct (N.ltb_spec (snd t) (snd h)); [ lia | eauto ].
  - destruct IH as (rest & ->); [ intros u Hu; apply Hpre; now right | ].
    cbn [insert_desc]. specialize (Hpre x (or_introl eq_refl)).
    destruct (N.ltb_spec (snd x) (snd t)); [ eauto | lia ].
Qed.

Section ChoosingProperties.
Context {hst : Host}.

(** What the list comprehension of [find_best_csv] does at the first
    listed path at which nothing is present. *)
Lemma non_empty_of_missing pre p post fs log :
  (forall q, In q pre -> fs_node fs q <> None) ->
  fs_node fs p = None ->
  non_empty_of (pre ++ p :: post) (mk_world fs log) = (Raise (OSError p), mk_world fs log).
Proof.
  intros Hpre Hp. induction pre as [|q pre IH]; cbn [app non_empty_of].
  - rewrite bind_unfold, os_path_getsize_run, Hp. reflexivity.
  - rewrite bind_unfold, os_path_getsize_run.
    destruct (fs_node fs q) as [n|] eqn:E;
      [ | exfalso; apply (Hpre q); [ now left | exact E ] ].
    assert (IH' := IH (fun q' Hq' => Hpre q' (or_intror Hq'))).
    destruct (0 <? node_size n)%N; [ | exact IH' ].
    rewrite bind_unfold, os_path_getsize_run, E.
    rewrite bind_unfold, IH'. reflexivity.
Qed.

(** X5: Among the listed files, ties go to the first listed.  When neither
    the preferred file nor the fallback file is usable and every listed
    path is present, [find_best_csv] returns the non-empty listed file
    that is larger than every file listed before it and at least as large
    as every file listed after it: of several largest files, the one the
    listing names first.  The state is left as it was. *)
Theorem find_best_csv_first_largest base_dir preferred w pre p post :
  let fs := w_fs w in
  glob_sound fs (os_path_join base_dir "*.csv") ->
  usable fs (os_path_join base_dir preferred) = false ->
  usable fs DATA_FILE = false ->
  fs_glob fs (os_path_join base_dir "*.csv") = pre ++ p :: post ->
  usable fs p = true ->
  (forall q, In q pre -> (size_of fs q < size_of fs p)%N) ->
  (forall q, In q post -> (size_of fs q <= size_of fs p)%N) ->
  find_best_csv base_dir preferred w = (Ok p, w).
Proof.
  destruct w as [fs log]. cbn [w_fs]. intros Hglob Hpref Hdata Hcsvs Hp Hpre Hpost.
  rewrite (find_best_csv_run base_dir preferred fs log Hglob).
  rewrite Hpref, Hdata, Hcsvs.
  rewrite filter_app. cbn [filter]. rewrite Hp, map_app. cbn [map].
  destruct (sort_desc_first_max
              (map (fun q => (q, size_of fs q)) (filter (usable fs) pre))
              (p, size_of fs p)
              (map (fun q => (q, size_of fs q)) (filter (usable fs) post)))
    as (rest & ->).
  - intros u Hu. apply in_map_iff in Hu. destruct Hu as (q & <- & Hq).
    apply filter_In in Hq. cbn [snd]. apply Hpre, Hq.
  - intros u Hu. apply in_map_iff in Hu. destruct Hu as (q & <- & Hq).
    apply filter_In in Hq. cbn [snd]. apply Hpost, Hq.
  - destruct pre; reflexivity.
Qed.

(** X6: A listed path at which nothing is present stops the search.  When
    neither the preferred file nor the fallback file is usable and the
    listing names a path that is not there (a dangling link, a file
    removed in between), [find_best_csv] raises the [OSError] of
    [os.path.getsize] for the first such path, whatever other files the
    listing holds. *)
Theorem find_best_csv_listed_missing base_dir preferred w pre p post :
  let fs := w_fs w in
  usable fs (os_path_join base_dir preferred) = false ->
  usable fs DATA_FILE = false ->
  fs_glob fs (os_path_join base_dir "*.csv") = pre ++ p :: post ->
  (forall q, In q pre -> fs_node fs q <> None) ->
  fs_node fs p = None ->
  find_best_csv base_dir preferred w = (Raise (OSError p), w).
Proof.
  destruct w as [fs log]. cbn [w_fs]. intros Hpref Hdata Hcsvs Hpre Hp.
  unfold find_best_csv.
  rewrite bind_unfold, exists_nonempty_run, Hpref.
  rewrite bind_unfold, exists_nonempty_run, Hdata.
  rewrite bind_unfold. unfold glob at 1. cbn [w_fs]. rewrite Hcsvs.
  assert (E : non_empty_of (pre ++ p :: post) (mk_world fs log)
              = (Raise (OSError p), mk_world fs log))
    by now apply non_empty_of_missing.
  destruct (pre ++ p :: post) as [|c cs] eqn:El; [ now destruct pre | ].
  rewrite bind_unfold, E. reflexivity.
Qed.

End ChoosingProperties.

(* ===================================================================== *)
(** ** The exceptions of the reader *)
(* ===================================================================== *)

Section ReaderProperties.
Context {hst : Host}.

(** A block is calm when it leaves the file system alone, lets no
    exception out, and, when it does not return a table, leaves an
    exception recorded in [last_exc]. *)
Local Notation "'calm' x w" :=
  (w_fs (snd x) = w_fs w /\
   match fst x with
   | Ok (inl _) => True
   | Ok (inr (Some _)) => True
   | Ok (inr None) => False
   | Raise _ => False
   end) (at level 10, x at level 9, w at level 9, only parsing).

Lemma and_then_calm (m : M flow) (next : option exn -> M flow) w :
  calm (m w) w ->
  (forall e w', w_fs w' = w_fs w -> calm (next (Some e) w') w') ->
  calm (and_then m next w) w.
Proof.
  intros [Hfs Hm] Hnext. unfold and_then. rewrite bind_unfold.
  destruct (m w) as [[[df|[e|]]|e] w1]; cbn [fst snd] in *; try contradiction.
  - split; [ exact Hfs | exact I ].
  - destruct (Hnext e w1 Hfs) as [Hfs' Hn]. split; [ congruence | exact Hn ].
Qed.

Lemma attempt_strict_calm path att w : calm (attempt_strict path att w) w.
Proof.
  destruct w as [fs log]. rewrite attempt_strict_run.
  destruct (read_outcome fs path (att_kwargs att)) as [df|e];
    [ destruct (ncols df =? 0) | ]; split; reflexivity || exact I.
Qed.

Lemma attempt_lenient_calm path kw msg e w :
  calm (attempt_lenient path kw msg (Some e) w) w.
Proof.
  destruct w as [fs log]. rewrite attempt_lenient_run.
  destruct (read_outcome fs path kw) as [df|e'];
    [ destruct (0 <? ncols df) | ]; split; reflexivity || exact I.
Qed.

Lemma attempts_loop_calm path atts last_exc w :
  atts <> [] \/ last_exc <> None ->
  calm (attempts_loop path atts last_exc w) w.
Proof.
  revert last_exc w. induction atts as [|att atts IH]; intros last_exc w H.
  - destruct H as [H | H]; [ congruence | ].
    destruct last_exc; [ split; reflexivity || exact I | congruence ].
  - cbn [attempts_loop]. apply and_then_calm; [ apply attempt_strict_calm | ].
    intros e w' _. apply IH. right. discriminate.
Qed.

(** The last resort on a path that is not a regular file of fewer than
    2000 lines. *)
Lemma modal_calm path e w :
  (forall content, fs_node (w_fs w) path = Some (RegFile content) ->
                   2000 <= length (decode_lines content)) ->
  calm ((sample_lines <- read_sample path ;; modal_stage path sample_lines (Some e)) w) w.
Proof.
  destruct w as [fs log]. cbn [w_fs]. intros Hlong.
  rewrite bind_unfold, read_sample_run. unfold sample_of.
  destruct (fs_node fs path) as [[content|sz]|] eqn:Hnode;
    [ | split; reflexivity || exact I .. ].
  specialize (Hlong content eq_refl).
  rewrite next_lines_long by exact Hlong.
  assert (Hne : firstn 2000 (decode_lines content) <> []).
  { intros E. apply (f_equal (@length string)) in E.
    rewrite length_firstn in E. cbn [length] in E. lia. }
  remember (firstn 2000 (decode_lines content)) as sample eqn:Es. clear Es.
  destruct sample as [|ln lines]; [ congruence | ]. cbn [modal_stage].
  remember (ln :: lines) as sample eqn:Es. clear Es.
  rewrite modal_clean_run.
  destruct (modal_count_spec "," sample Hne) as (n1 & f1 & -> & _).
  destruct (modal_count_spec ";" sample Hne) as (n2 & f2 & -> & _).
  cbv zeta. rewrite Hnode.
  destruct (length _ =? 0); [ split; reflexivity || exact I | ].
  destruct (pandas_read_csv _ _) as [df|e'];
    [ destruct (ncols df =? 0) | ]; split; reflexivity || exact I.
Qed.

(** When the last resort lets an exception out, it is the
    [UnboundLocalError] of the sample, on a regular file of fewer than
    2000 lines. *)
Lemma modal_raise_cases path e w r w' :
  (sample_lines <- read_sample path ;; modal_stage path sample_lines (Some e)) w = (r, w') ->
  match r with
  | Ok (inl _) => True
  | Ok (inr (Some _)) => True
  | Ok (inr None) => False
  | Raise e' =>
      e' = UnboundLocalError "sample_lines" /\
      exists content, fs_node (w_fs w) path = Some (RegFile content) /\
                      length (decode_lines content) < 2000
  end.
Proof.
  intros Hrun.
  destruct (fs_node (w_fs w) path) as [[content|sz]|] eqn:Hnode.
  1: destruct (Nat.ltb_spec (length (decode_lines content)) 2000) as [Hshort | Hlong].
  1: { destruct w as [fs log]. cbn [w_fs] in Hnode.
       rewrite bind_unfold, read_sample_run in Hrun. unfold sample_of in Hrun.
       rewrite Hnode, next_lines_short in Hrun by exact Hshort.
       cbn [modal_stage] in Hrun. inversion Hrun; subst. eauto. }
  all: assert (Hc : calm ((sample_lines <- read_sample path ;;
                           modal_stage path sample_lines (Some e)) w) w)
         by (apply modal_calm; intros c Hc; rewrite Hnode in Hc; inversion Hc; subst;
             assumption || discriminate).
  all: rewrite Hrun in Hc; destruct Hc as [_ Hc]; cbn [fst] in Hc.
  all: destruct r as [[df|[e1|]]|e1]; try exact I; contradiction.
Qed.

(** The cases in which [_try_read] raises. *)
Lemma try_read_raise_cases path w e w' :
  _try_read path w = (Raise e, w') ->
  (exists last, e = RuntimeError_Failed path (Some last)) \/
  (e = UnboundLocalError "sample_lines" /\
   exists content, fs_node (w_fs w) path = Some (RegFile content) /\
                   length (decode_lines content) < 2000).
Proof.
  unfold _try_read. rewrite bind_unfold. unfold and_then at 1. rewrite bind_unfold.
  pose proof (attempts_loop_calm path attempts None w) as [Hfs1 H1];
    [ left; discriminate | ].
  destruct (attempts_loop path attempts None w) as [[[df|[e1|]]|e1] w1];
    cbn [fst snd] in *; try contradiction.
  { unfold ret. discriminate. }
  unfold and_then at 1. rewrite bind_unfold.
  pose proof (attempt_lenient_calm path kwargs_skip MsgSkipSuccess e1 w1) as [Hfs2 H2].
  destruct (attempt_lenient path kwargs_skip MsgSkipSuccess (Some e1) w1)
    as [[[df|[e2|]]|e2] w2]; cbn [fst snd] in *; try contradiction.
  { unfold ret. discriminate. }
  unfold and_then at 1. rewrite bind_unfold.
  pose proof (attempt_lenient_calm path kwargs_quote_none MsgQuoteNoneSuccess e2 w2)
    as [Hfs3 H3].
  destruct (attempt_lenient path kwargs_quote_none MsgQuoteNoneSuccess (Some e2) w2)
    as [[[df|[e3|]]|e3] w3]; cbn [fst snd] in *; try contradiction.
  { unfold ret. discriminate. }
  destruct ((sample_lines <- read_sample path ;; modal_stage path sample_lines (Some e3)) w3)
    as [r w4] eqn:Em.
  pose proof (modal_raise_cases path e3 w3 r w4 Em) as Hr.
  assert (Hfs : w_fs w3 = w_fs w) by congruence. rewrite Hfs in Hr.
  destruct r as [[df|[e4|]]|e4]; try contradiction.
  - unfold ret. discriminate.
  - unfold raise. intros H; inversion H; subst. left. eauto.
  - intros H; inversion H; subst. right. exact Hr.
Qed.

(** X7: The only exceptions [_try_read] lets out are the [RuntimeError] that
    names the path and carries a recorded last exception, never none, and
    the [UnboundLocalError] of the variable [sample_lines], which needs a
    regular file of fewer than 2000 lines.  No exception of the library or
    of the operating system escapes. *)
Theorem try_read_exceptions path w :
  match fst (_try_read path w) with
  | Ok _ => True
  | Raise (RuntimeError_Failed p last_exc) => p = path /\ last_exc <> None
  | Raise (UnboundLocalError name) =>
      name = "sample_lines" /\
      exists content, fs_node (w_fs w) path = Some (RegFile content) /\
                      length (decode_lines content) < 2000
  | Raise _ => False
  end.
Proof.
  destruct (_try_read path w) as [[df|e] w'] eqn:E; cbn [fst]; [ exact I | ].
  destruct (try_read_raise_cases path w e w' E) as [(last & ->) | (-> & H)].
  - split; [ reflexivity | discriminate ].
  - split; [ reflexivity | exact H ].
Qed.

End ReaderProperties.

(* ===================================================================== *)
(** ** The exceptions of the loader *)
(* ===================================================================== *)

Section LoaderProperties.
Context {hst : Host}.

Lemma last_with_lower_In cols k c : last_with_lower cols k = Some c -> In c cols.
Proof.
  unfold last_with_lower. intros H. apply find_some in H. apply in_rev, H.
Qed.

(** The label [select_column] settles on is one of the trimmed headers of
    the table it returns. *)
Lemma select_column_label (df : DataFrame cell) w df' c w' :
  select_column df w = (Ok (df', c), w') ->
  w_fs w' = w_fs w /\
  columns df' = map PyStr.strip (columns df) /\ In c (columns df').
Proof.
  rewrite select_column_run. cbv zeta.
  pose proof (columns_trimmed df) as Hc.
  set (cols := map PyStr.strip (columns df)) in *.
  destruct (rule_alias cols) as [c1|] eqn:E1.
  { intros H; inversion H; subst. rewrite Hc.
    repeat split. unfold rule_alias in E1.
    destruct (find _ candidates); [ | discriminate ].
    now apply last_with_lower_In in E1. }
  destruct (rule_substring cols) as [c2|] eqn:E2.
  { intros H; inversion H; subst. rewrite Hc.
    repeat split. apply find_some in E2. apply E2. }
  destruct (single_numeric_col _) as [c3|] eqn:E3.
  { intros H; inversion H; subst. rewrite Hc.
    repeat split. unfold single_numeric_col, numeric_cols in E3. rewrite Hc in E3.
    destruct (filter _ cols) as [|c4 [|c5 l]] eqn:Ef; try discriminate.
    inversion E3; subst c4.
    assert (Hin : In c (filter (numeric_label (set_columns df cols)) cols))
      by (rewrite Ef; now left).
    apply filter_In in Hin. apply Hin. }
  destruct (rule_generic cols) as [c4|] eqn:E4; [ | discriminate ].
  intros H; inversion H; subst. rewrite Hc.
  repeat split. unfold rule_generic in E4.
  destruct (last_with_lower cols "value") as [h|] eqn:Ev.
  - inversion E4; subst. now apply last_with_lower_In in Ev.
  - now apply last_with_lower_In in E4.
Qed.

(** Lines 146 to 193 raise nothing but the [KeyError] of no column found,
    the [ValueError] of no numeric value and, when several headers carry
    the label found, the [TypeError] of [to_numeric]. *)
Lemma column_stage_cases (df : DataFrame cell) w :
  match fst ((sel <- select_column df ;; coerce_column (fst sel) (snd sel)) w) with
  | Ok _ => True
  | Raise (KeyError_NoColumn _) | Raise (ValueError_NoNumeric _)
  | Raise TypeError_NotSeries => True
  | Raise _ => False
  end.
Proof.
  rewrite bind_unfold.
  destruct (select_column df w) as [[[df' c]|e] w1] eqn:Es.
  - apply select_column_label in Es. destruct Es as (_ & _ & Hin).
    cbn [fst snd]. unfold coerce_column. rewrite bind_unfold. unfold lift.
    destruct (getitem_present df' c Hin) as (s & ->).
    destruct s as [col|cs]; [ | exact I ].
    destruct (coerce_dropna (col_cells col)); [ exact I | ].
    rewrite bind_unfold. unfold print, emit, ret. exact I.
  - rewrite select_column_run in Es. cbv zeta in Es.
    destruct (rule_alias _); [ discriminate | ].
    destruct (rule_substring _); [ discriminate | ].
    destruct (single_numeric_col _); [ discriminate | ].
    destruct (rule_generic _); [ discriminate | ].
    inversion Es; subst. exact I.
Qed.

(** X9: The exceptions of [load_data].  The two exceptions of
    [find_best_csv], and the [OSError] of a listed path that is not
    there, come only from a call without a path; the [FileNotFoundError]
    and the [ValueError] of lines 138 to 141 only from a call with that
    path; the others are the [RuntimeError] of the reader, which always
    carries a last exception, the [UnboundLocalError] of [sample_lines],
    the [KeyError] of no column found, the [ValueError] of no numeric
    value and the [TypeError] of a label that several headers carry.  No
    exception of [read_csv] or of [open] escapes, and the label found is
    never missing from the table. *)
Theorem load_data_exceptions path w :
  match fst (load_data path w) with
  | Ok _ => True
  | Raise e =>
      match e with
      | FileNotFoundError_NoCsv _ | ValueError_AllEmpty _ _ | OSError _ => path = None
      | FileNotFoundError_DataFile p | ValueError_EmptyFile p => path = Some p
      | RuntimeError_Failed _ last_exc => last_exc <> None
      | UnboundLocalError name => name = "sample_lines"
      | KeyError_NoColumn _ | ValueError_NoNumeric _ | TypeError_NotSeries => True
      | _ => False
      end
  end.
Proof.
  assert (Htail : forall p sz w0,
    match fst ((print (MsgUsingFile p sz) ;;
                df <- _try_read p ;;
                sel <- select_column df ;;
                coerce_column (fst sel) (snd sel)) w0) with
    | Ok _ => True
    | Raise e =>
        match e with
        | RuntimeError_Failed _ last_exc => last_exc <> None
        | UnboundLocalError name => name = "sample_lines"
        | KeyError_NoColumn _ | ValueError_NoNumeric _ | TypeError_NotSeries => True
        | _ => False
        end
    end).
  { intros p sz w0. rewrite bind_unfold. unfold print at 1, emit at 1.
    rewrite bind_unfold.
    destruct (_try_read p _) as [[df|e] w1] eqn:Et.
    - pose proof (column_stage_cases df w1) as Hs.
      destruct (fst _) as [arr|e]; [ exact I | ].
      destruct e; try contradiction; exact I.
    - apply try_read_raise_cases in Et.
      destruct Et as [(last & ->) | (-> & _)]; cbn [fst]; [ discriminate | reflexivity ]. }
  unfold load_data. destruct w as [fs log]. destruct path as [p|].
  - rewrite bind_unfold. unfold ret at 1.
    rewrite bind_unfold, os_path_exists_run.
    destruct (fs_node fs p) as [n|] eqn:E; cbn [negb]; [ | reflexivity ].
    rewrite bind_unfold, os_path_getsize_run, E.
    destruct (node_size n =? 0)%N; [ reflexivity | ].
    rewrite bind_unfold, os_path_getsize_run, E.
    specialize (Htail p (node_size n) (mk_world fs log)).
    destruct (fst _) as [arr|e]; [ exact I | ].
    destruct e; try exact Htail; contradiction.
  - rewrite bind_unfold.
    destruct (find_best_csv BASE_DIR PREFERRED_FILENAME (mk_world fs log))
      as [r w1] eqn:Ef.
    destruct (find_best_csv_cases BASE_DIR PREFERRED_FILENAME _ r w1 Ef) as [Hw Hf].
    destruct r as [p|e].
    + subst w1. cbn [w_fs] in Hf.
      rewrite bind_unfold, os_path_exists_run.
      unfold usable, size_of in Hf.
      destruct (fs_node fs p) as [n|] eqn:E; [ | discriminate ].
      cbn [negb]. rewrite bind_unfold, os_path_getsize_run, E.
      apply N.ltb_lt in Hf.
      destruct (N.eqb_spec (node_size n) 0) as [Hz|_]; [ lia | ].
      rewrite bind_unfold, os_path_getsize_run, E.
      specialize (Htail p (node_size n) (mk_world fs log)).
      destruct (fst _) as [arr|e]; [ exact I | ].
      destruct e; try exact Htail; contradiction.
    + destruct e; try contradiction; reflexivity.
Qed.

(** Every block of [_try_read] on a path that cannot be read. *)
Lemma try_read_unreadable path fs log :
  (forall kw, read_outcome fs path kw = Raise (OSError path)) ->
  (forall content, fs_node fs path <> Some (RegFile content)) ->
  _try_read path (mk_world fs log)
  = (Raise (RuntimeError_Failed path (Some (OSError path))),
     mk_world fs
       (log ++ map (EvReadCsv (SrcPath path))
                 (map att_kwargs attempts ++ [kwargs_skip; kwargs_quote_none])
            ++ [EvPrint MsgModalAttempt; EvOpen path])).
Proof.
  intros Hro Hnode. unfold _try_read, attempts. cbn [attempts_loop map app].
  rewrite bind_unfold.
  assert (Hs : forall att log0,
             attempt_strict path att (mk_world fs log0)
             = (Ok (inr (Some (OSError path))),
                mk_world fs (log0 ++ [EvReadCsv (SrcPath path) (att_kwargs att)])))
    by (intros; now rewrite attempt_strict_run, Hro).
  assert (Hl : forall kw msg last_exc log0,
             attempt_lenient path kw msg last_exc (mk_world fs log0)
             = (Ok (inr (Some (OSError path))),
                mk_world fs (log0 ++ [EvReadCsv (SrcPath path) kw])))
    by (intros; now rewrite attempt_lenient_run, Hro).
  erewrite and_then_continue;
    [ | erewrite and_then_continue by apply Hs;
        erewrite and_then_continue by apply Hs;
        erewrite and_then_continue by apply Hs;
        erewrite and_then_continue by apply Hs;
        reflexivity ].
  erewrite and_then_continue by apply Hl.
  erewrite and_then_continue by apply Hl.
  rewrite bind_unfold, read_sample_run.
  assert (Hsample : sample_of fs path = Bound None).
  { unfold sample_of. destruct (fs_node fs path) as [[content|sz]|] eqn:E;
      [ exfalso; apply (Hnode content); reflexivity | reflexivity | reflexivity ]. }
  rewrite Hsample. cbn [modal_stage]. unfold ret, raise.
  rewrite <- !app_assoc. reflexivity.
Qed.

(** X10: A path that is there but is no readable file.  Given a path to
    something that has a size and cannot be opened (a directory, a file
    without read permission), [load_data] announces the file, begins all
    six [read_csv] strategies and the modal cleaner, and raises the
    [RuntimeError] of the reader carrying the [OSError] of the last
    [read_csv]; the failed [open] of the modal cleaner leaves no trace in
    the exception. *)
Theorem load_data_unreadable_path path w sz :
  fs_node (w_fs w) path = Some (Special sz) ->
  (0 < sz)%N ->
  load_data (Some path) w
  = (Raise (RuntimeError_Failed path (Some (OSError path))),
     extend w (EvPrint (MsgUsingFile path sz)
               :: map (EvReadCsv (SrcPath path))
                    (map att_kwargs attempts ++ [kwargs_skip; kwargs_quote_none])
               ++ [EvPrint MsgModalAttempt; EvOpen path])).
Proof.
  destruct w as [fs log]. cbn [w_fs]. intros Hnode Hsz.
  unfold load_data, extend. cbn [w_fs w_log].
  rewrite bind_unfold. unfold ret at 1.
  rewrite bind_unfold, os_path_exists_run, Hnode. cbn [negb].
  rewrite bind_unfold, os_path_getsize_run, Hnode. cbn [node_size].
  destruct (N.eqb_spec sz 0) as [Hz|_]; [ lia | ].
  rewrite bind_unfold, os_path_getsize_run, Hnode. cbn [node_size].
  rewrite bind_unfold. unfold print at 1, emit at 1. cbn [w_fs w_log].
  rewrite bind_unfold, try_read_unreadable.
  - rewrite <- !app_assoc. reflexivity.
  - intros kw. unfold read_outcome. now rewrite Hnode.
  - intros content. rewrite Hnode. discriminate.
Qed.

(** X11: What a successful call prints.  When [load_data] returns an array
    for a given path, the first thing it did was to announce that path
    with the size of the file, and the last was to report the number of
    rows loaded, which is the length of the array it returns; the file
    system is as it was. *)
Theorem load_data_reports_rows path w arr w' :
  load_data (Some path) w = (Ok arr, w') ->
  exists evs found_col,
    w' = extend w (EvPrint (MsgUsingFile path (size_of (w_fs w) path))
                   :: evs ++ [EvPrint (MsgLoaded (length arr) found_col)]).
Proof.
  destruct w as [fs log]. cbn [w_fs]. unfold load_data, extend. cbn [w_fs w_log].
  rewrite bind_unfold. unfold ret at 1.
  rewrite bind_unfold, os_path_exists_run. unfold size_of.
  destruct (fs_node fs path) as [n|] eqn:E; cbn [negb]; [ | discriminate ].
  rewrite bind_unfold, os_path_getsize_run, E.
  destruct (node_size n =? 0)%N; [ discriminate | ].
  rewrite bind_unfold, os_path_getsize_run, E.
  rewrite bind_unfold. unfold print at 1, emit at 1. cbn [w_fs w_log].
  rewrite bind_unfold.
  destruct (reads_only_fs_try_read path fs) as (r1 & evs1 & H1). rewrite H1.
  destruct r1 as [df|e]; [ | discriminate ].
  rewrite bind_unfold.
  destruct (reads_only_fs_select_column df fs) as (r2 & evs2 & H2). rewrite H2.
  destruct r2 as [[df' c]|e]; [ | discriminate ].
  cbn [fst snd]. unfold coerce_column. rewrite bind_unfold. unfold lift.
  destruct (getitem df' c) as [[col|cs]|e]; try discriminate.
  destruct (coerce_dropna (col_cells col)) as [|v series] eqn:Ec; [ discriminate | ].
  rewrite bind_unfold. unfold print, emit, ret. cbn [w_fs w_log].
  intros H; inversion H; subst. exists (evs1 ++ evs2), c.
  rewrite <- !app_assoc. reflexivity.
Qed.

(** X12: Calling without a path is calling with the path chosen.  When
    [find_best_csv] returns a path for the module directory and the
    preferred name, it has left the state as it was, and [load_data]
    without a path does exactly what [load_data] with that path does: the
    same outcome and the same lines printed. *)
Theorem load_data_default_path w p w' :
  find_best_csv BASE_DIR PREFERRED_FILENAME w = (Ok p, w') ->
  w' = w /\ load_data None w = load_data (Some p) w.
Proof.
  intros Hf. destruct (find_best_csv_cases _ _ _ _ _ Hf) as [-> _].
  split; [ reflexivity | ].
  unfold load_data. rewrite !bind_unfold, Hf. reflexivity.
Qed.

End LoaderProperties.

(* ===================================================================== *)
(** ** Ties in the modal column count *)
(* ===================================================================== *)

(** [max] returns the first of the items whose key is largest. *)
Lemma max_by_fold_first {A} (key : A -> nat) (l : list A) (x m : A) :
  fold_left (fun best y => if key best <? key y then y else best) l x = m ->
  exists pre post,
    x :: l = pre ++ m :: post /\
    (forall y, In y pre -> key y < key m) /\
    (forall y, In y post -> key y <= key m).
Proof.
  revert x. induction l as [|a l IH]; intros x H; cbn [fold_left] in H.
  - subst m. exists [], []. repeat split; intros y [].
  - destruct (Nat.ltb_spec (key x) (key a)) as [Hlt | Hge].
    + destruct (IH a H) as (pre & post & E & Hpre & Hpost).
      exists (x :: pre), post. rewrite E. split; [ reflexivity | ].
      split; [ | exact Hpost ].
      assert (Ha : key a <= key m).
      { assert (Hin : In a (pre ++ m :: post)) by (rewrite <- E; now left).
        apply in_app_or in Hin. destruct Hin as [Hin | [<- | Hin]];
          [ apply Hpre in Hin; lia | lia | now apply Hpost ]. }
      intros y [<- | Hy]; [ lia | now apply Hpre ].
    + destruct (IH x H) as (pre & post & E & Hpre & Hpost).
      clear H IH.
      destruct pre as [|x' pre]; cbn [app] in E; injection E as E1 E2.
      * subst x l. exists [], (a :: post). split; [ reflexivity | ].
        split; [ intros y [] | ].
        intros y [<- | Hy]; [ exact Hge | now apply Hpost ].
      * subst x' l. exists (x :: a :: pre), post. split; [ reflexivity | ].
        split; [ | exact Hpost ].
        assert (Hx : key x < key m) by (apply Hpre; now left).
        intros y [<- | [<- | Hy]]; [ exact Hx | lia | apply Hpre; now right ].
Qed.

Lemma max_by_first {A} (key : A -> nat) (l : list A) (m : A) :
  PyDict.max_by key l = Some m ->
  exists pre post,
    l = pre ++ m :: post /\
    (forall y, In y pre -> key y < key m) /\
    (forall y, In y post -> key y <= key m).
Proof.
  destruct l as [|x l]; cbn [PyDict.max_by]; [ discriminate | ].
  intros H; inversion H as [H']. now apply max_by_fold_first.
Qed.

(** The keys of [counts] after one more line: a field count seen before
    keeps its place, a new one goes to the end. *)
Lemma keys_count_fields sep counts ln :
  map fst (count_fields sep counts ln)
  = if PyDict.mem Nat.eqb counts (nfields sep ln) then map fst counts
    else map fst counts ++ [nfields sep ln].
Proof.
  unfold count_fields. rewrite split_length. set (n := nfields sep ln).
  rewrite (keys_set Nat.eqb). unfold PyDict.setdefault.
  destruct (PyDict.mem Nat.eqb counts n) eqn:E; [ now rewrite E | ].
  unfold PyDict.mem at 1. rewrite (get_set_same Nat.eqb nat_eqb_eq).
  rewrite (keys_set Nat.eqb), E. reflexivity.
Qed.

(** The keys of [counts] are the field counts of the sample. *)
Lemma counts_keys sep sample k :
  In k (map fst (fold_left (count_fields sep) sample []))
  <-> exists l, In l sample /\ nfields sep l = k.
Proof.
  destruct (counts_spec sep sample) as [Hnd Hget]. cbv zeta in *.
  set (counts := fold_left (count_fields sep) sample []) in *.
  specialize (Hget k). unfold frequency in Hget.
  split.
  - intros Hin. destruct (filter _ sample) as [|l ls] eqn:Ef.
    + cbn [length Nat.eqb] in Hget.
      now apply (get_None_keys Nat.eqb nat_eqb_eq) in Hget.
    + assert (H : In l (filter (fun ln => nfields sep ln =? k) sample))
        by (rewrite Ef; now left).
      apply filter_In in H. destruct H as [H1 H2]. apply Nat.eqb_eq in H2. eauto.
  - intros (l & Hl & Hk).
    assert (H : In l (filter (fun ln => nfields sep ln =? k) sample))
      by (apply filter_In; split; [ exact Hl | now apply Nat.eqb_eq ]).
    destruct (filter _ sample) as [|l0 ls]; [ contradiction | ].
    cbn [length Nat.eqb] in Hget. apply (get_In Nat.eqb nat_eqb_eq) in Hget.
    apply (in_map fst) in Hget. exact Hget.
Qed.

(** The keys of [counts] are in the order in which the field counts first
    occur in the sample: every line before the first line with a given
    field count has a field count that comes earlier among the keys. *)
Lemma counts_keys_order sep sample k1 a k2 :
  map fst (fold_left (count_fields sep) sample []) = k1 ++ a :: k2 ->
  exists pre ln post,
    sample = pre ++ ln :: post /\ nfields sep ln = a /\
    forall l, In l pre -> In (nfields sep l) k1.
Proof.
  revert k1 a k2. induction sample as [|ln' sample IH] using rev_ind; intros k1 a k2 Hk.
  - destruct k1; discriminate.
  - rewrite fold_left_app in Hk. cbn [fold_left] in Hk.
    rewrite keys_count_fields in Hk.
    set (counts := fold_left (count_fields sep) sample []) in *.
    destruct (PyDict.mem Nat.eqb counts (nfields sep ln')) eqn:Em.
    + destruct (IH k1 a k2 Hk) as (pre & ln & post & -> & Ha & Hpre).
      exists pre, ln, (post ++ [ln']). rewrite <- app_assoc. auto.
    + assert (Hnew : ~ In (nfields sep ln') (map fst counts)).
      { unfold PyDict.mem in Em.
        destruct (PyDict.get Nat.eqb counts (nfields sep ln')) eqn:Eg; [ discriminate | ].
        now apply (get_None_keys Nat.eqb nat_eqb_eq) in Eg. }
      destruct k2 as [|b k2] using rev_ind.
      * assert (E : map fst counts = k1 /\ nfields sep ln' = a).
        { change (k1 ++ [a]) with (k1 ++ [a]) in Hk.
          apply app_inj_tail in Hk. exact Hk. }
        destruct E as [E1 E2]. exists sample, ln', []. split; [ reflexivity | ].
        split; [ exact E2 | ]. intros l Hl. rewrite <- E1.
        apply counts_keys. eauto.
      * clear IHk2.
        assert (E : map fst counts = k1 ++ a :: k2 /\ nfields sep ln' = b).
        { change (k1 ++ a :: k2 ++ [b]) with (k1 ++ (a :: k2) ++ [b]) in Hk.
          rewrite app_assoc in Hk. apply app_inj_tail in Hk. exact Hk. }
        destruct E as [E1 E2].
        destruct (IH k1 a k2 E1) as (pre & ln & post & -> & Ha & Hpre).
        exists pre, ln, (post ++ [ln']). rewrite <- app_assoc. auto.
Qed.

(** X8: Ties between field counts go to the one seen first.  The field count
    [modal_count] returns is the most frequent one whose first line comes
    earliest in the sample: it is returned with its frequency, and every
    line before the first line that has it has a field count that is
    strictly less frequent. *)
Theorem modal_count_first_seen sep sample n f :
  modal_count sample sep = Some (n, f) ->
  f = frequency sep sample n /\
  (forall m, frequency sep sample m <= f) /\
  exists pre ln post,
    sample = pre ++ ln :: post /\ nfields sep ln = n /\
    forall l, In l pre -> frequency sep sample (nfields sep l) < f.
Proof.
  intros Hm.
  assert (Hne : sample <> []) by (intros ->; discriminate).
  destruct (modal_count_spec sep sample Hne) as (n' & f' & Hm' & Hf & _ & Hmax).
  rewrite Hm in Hm'. injection Hm' as <- <-.
  split; [ exact Hf | ]. split; [ exact Hmax | ].
  unfold modal_count in Hm. apply max_by_first in Hm.
  destruct Hm as (cpre & cpost & Ec & Hpre & _).
  destruct (counts_spec sep sample) as [Hnd Hget]. cbv zeta in *.
  destruct (counts_keys_order sep sample (map fst cpre) n (map fst cpost))
    as (pre & ln & post & Es & Hn & Hbefore).
  { rewrite Ec, map_app. reflexivity. }
  exists pre, ln, post. split; [ exact Es | ]. split; [ exact Hn | ].
  intros l Hl. apply Hbefore in Hl. apply in_map_iff in Hl.
  destruct Hl as ([b v] & Hb & Hin). cbn [fst] in Hb. subst b.
  pose proof (Hpre _ Hin) as Hlt. cbn [snd] in Hlt.
  assert (Hc : In (nfields sep l, v) (fold_left (count_fields sep) sample []))
    by (rewrite Ec; apply in_or_app; now left).
  apply (In_get Nat.eqb nat_eqb_eq _ _ _ Hnd) in Hc.
  rewrite Hget in Hc.
  destruct (frequency sep sample (nfields sep l) =? 0); [ discriminate | ].
  inversion Hc; subst v. exact Hlt.
Qed.

(** C1, at a file the first six strategies refuse: a blank first line,
    which stops the delimiter detection of the three lenient strategies,
    then 400 rows of four fields and 1600 rows of five, of which the
    first row of five stops the three strict strategies.  The cleaner
    does not keep the rows of five fields only: no line holds a
    semicolon, so the semicolon wins with one column in all 2000 sampled
    lines against 1599 for the comma, every line of the file is kept and
    handed to the parser, and 2001 kept of 2001 is reported. *)
Lemma ragged_file_keeps_every_row :
  let lines := lines_of ragged_content in
  length lines = 2001 /\
  frequency "," lines 5 = 1600 /\
  frequency "," lines 4 = 400 /\
  modal_count (firstn 2000 lines) "," = Some (5, 1599) /\
  modal_count (firstn 2000 lines) ";" = Some (1, 2000) /\
  (forall s, In s (firstn 6 ladder) ->
     fails (hst := toy_host pandas_like) fs_ragged "/data/ragged.csv" s) /\
  _try_read (hst := toy_host pandas_like) "/data/ragged.csv" (mk_world fs_ragged [])
  = (Ok (table_of (fields_of ";" lines)),
     mk_world fs_ragged
       (map (start_event "/data/ragged.csv") (firstn 6 ladder)
        ++ [EvPrint MsgModalAttempt; EvOpen "/data/ragged.csv"; EvOpen "/data/ragged.csv";
            EvReadCsv (SrcStringIO (PyStr.join_empty lines)) (kwargs_sep ";");
            EvPrint (MsgModalKept 2001 2001 ";" 1)])).
Proof.
  cbv zeta. split; [ vm_compute; reflexivity | ].
  split; [ vm_compute; reflexivity | ].
  split; [ vm_compute; reflexivity | ].
  split; [ vm_compute; reflexivity | ].
  split; [ vm_compute; reflexivity | ].
  split.
  - intros s Hs df Hy. cbn [firstn ladder In] in Hs.
    repeat (destruct Hs as [<- | Hs];
            [ destruct Hy as [Hy _]; vm_compute in Hy; discriminate | ]).
    contradiction.
  - vm_compute. reflexivity.
Qed.

(** C4, at the table of the header [reading, reading]: once the headers
    are trimmed both columns are labelled [reading]; exactly one column of
    the table is numeric and neither the alias rule nor the substring rule
    resolves, yet [select_column] does not take the numeric column: it
    finds no numeric label and raises the [KeyError] of no column found,
    and so does [load_data] on the file. *)
Lemma repeated_header_hides_numeric_column :
  let df' := set_columns df_repeated (map PyStr.strip (columns df_repeated)) in
  columns df' = ["reading"; "reading"] /\
  rule_alias (columns df') = None /\
  rule_substring (columns df') = None /\
  rule_single_numeric (hst := toy_host pandas_like) df' = Some "reading" /\
  select_column (hst := toy_host pandas_like) df_repeated (mk_world fs_table [])
  = (Raise (KeyError_NoColumn ["reading"; "reading"]), mk_world fs_table []) /\
  read_outcome (hst := toy_host pandas_like) fs_repeated "/data/repeated.csv"
    (mk_kwargs (Some utf_8) None None None None None)
  = Ok df_repeated /\
  fst (load_data (hst := toy_host pandas_like) (Some "/data/repeated.csv")
         (mk_world fs_repeated []))
  = Raise (KeyError_NoColumn ["reading"; "reading"]).
Proof. cbv zeta. repeat split; vm_compute; reflexivity. Qed.

(** C3, at a file of one empty line, on which every [read_csv] fails:
    [_try_read] ends in an [UnboundLocalError], not in the [RuntimeError]
    that carries the last exception. *)
Lemma blank_file_unbound_local :
  fst (_try_read (hst := toy_host pandas_refuses) "/data/blank.csv" (mk_world fs_blank []))
  = Raise (UnboundLocalError "sample_lines") /\
  class_of (UnboundLocalError "sample_lines") <> cls_RuntimeError.
Proof. split; [ vm_compute; reflexivity | discriminate ]. Qed.

(** A table with the headers [ timestamp] and [PM2.5 (ug/m3) ] resolves
    to [PM2.5 (ug/m3)] by the second rule. *)
Lemma select_column_rule_order_witness :
  select_column (hst := toy_host pandas_refuses) df_units (mk_world fs_table [])
  = (Ok (set_columns df_units ["timestamp"; "PM2.5 (ug/m3)"], "PM2.5 (ug/m3)"),
     mk_world fs_table []).
Proof.
  apply (proj2 (proj2 (proj2 (select_column_rule_order (hst := toy_host pandas_refuses))))
           df_units (mk_world fs_table []) ["timestamp"] []).
  - reflexivity.
  - vm_compute; reflexivity.
  - intros h [<- | []]. vm_compute; reflexivity.
Defined.


(** C6, the claim as stated fails: the fallback file of the module
    directory is present with zero bytes and nothing else is, and
    likewise the preferred file alone is present with zero bytes; every
    candidate present is empty, yet the error is [FileNotFoundError], not
    the [ValueError] of empty input. *)
Lemma empty_candidate_reported_as_not_found :
  (fs_node fs_empty_fallback (DATA_FILE (hst := toy_host pandas_refuses)) = Some (RegFile []) /\
   fst (find_best_csv (hst := toy_host pandas_refuses) "/data" PREFERRED_FILENAME (mk_world fs_empty_fallback []))
   = Raise (FileNotFoundError_NoCsv "/data")) /\
  (fs_node fs_empty_preferred (os_path_join "/app" "readings.txt") = Some (RegFile []) /\
   fst (find_best_csv (hst := toy_host pandas_refuses) "/app" "readings.txt" (mk_world fs_empty_preferred []))
   = Raise (FileNotFoundError_NoCsv "/app")).
Proof. repeat split; vm_compute; reflexivity. Qed.

(** Among three listed files of 3, 10 and 0 bytes, with no preferred and
    no fallback file, a largest non-empty one is selected. *)
Lemma find_best_csv_selection_witness :
  exists p,
    fst (find_best_csv (hst := toy_host pandas_refuses) "/data" PREFERRED_FILENAME (mk_world fs_three [])) = Ok p /\
    In p ["/data/a.csv"; "/data/b.csv"; "/data/c.csv"] /\
    usable fs_three p = true /\
    forall q, In q ["/data/a.csv"; "/data/b.csv"; "/data/c.csv"] ->
              (size_of fs_three q <= size_of fs_three p)%N.
Proof.
  apply (proj1 (proj2 (proj2 (proj2
           (find_best_csv_selection (hst := toy_host pandas_refuses) "/data" PREFERRED_FILENAME
              (mk_world fs_three [])))))).
  - vm_compute; reflexivity.
  - vm_compute; reflexivity.
  - intros p Hp. vm_compute in Hp.
    repeat (destruct Hp as [<- | Hp]; [ vm_compute; discriminate | ]). contradiction.
  - exists "/data/a.csv". split; [ now left | vm_compute; reflexivity ].
Defined.

(** A file of zero bytes ends [load_data] before anything is parsed. *)
Lemma load_data_empty_input_witness :
  load_data (hst := toy_host pandas_refuses) (Some "/data/empty.csv") (mk_world fs_one_empty [])
  = (Raise (ValueError_EmptyFile "/data/empty.csv"), mk_world fs_one_empty []).
Proof.
  apply (proj1 (proj2 (load_data_empty_input (hst := toy_host pandas_refuses)
                         (mk_world fs_one_empty [])))).
  - vm_compute; discriminate.
  - vm_compute; reflexivity.
Defined.

(** C8, the claim as stated fails: the strict UTF-8 parse yields a table
    with a column named exactly [pm2_5], and the column selected is
    [pm25], the alias that comes first in the list. *)
Lemma pm25_selected_before_pm2_5 :
  fst (_try_read (hst := toy_host (pandas_returns df_both)) "/data/table.csv"
         (mk_world fs_table []))
  = Ok df_both /\
  In "pm2_5" (columns df_both) /\
  (forall w, select_column (hst := toy_host (pandas_returns df_both)) df_both w = (Ok (df_both, "pm25"), w)) /\
  fst (load_data (hst := toy_host (pandas_returns df_both)) (Some "/data/table.csv")
         (mk_world fs_table []))
  = Ok [1%N; 2%N].
Proof.
  split; [ vm_compute; reflexivity | ].
  split; [ vm_compute; tauto | ].
  split; [ intros [fs log]; reflexivity | vm_compute; reflexivity ].
Qed.

(** A table with the headers [timestamp], [ pm2_5] and [pm10] is
    returned by the first strategy and resolves to [pm2_5]. *)
Lemma pm2_5_on_first_strategy_witness :
  _try_read (hst := toy_host (pandas_returns df_plain)) "/data/table.csv" (mk_world fs_table [])
  = (Ok df_plain,
     mk_world fs_table
       [start_event "/data/table.csv" strict_utf8;
        EvPrint (MsgReaderSuccess "utf-8 (default engine)" 3 2)]) /\
  rule_alias ["timestamp"; "pm2_5"; "pm10"] = Some "pm2_5".
Proof.
  assert (Hy : yields (hst := toy_host (pandas_returns df_plain))
                 (w_fs (mk_world fs_table [])) "/data/table.csv" strict_utf8 df_plain)
    by (split; [ reflexivity | vm_compute; lia ]).
  destruct (pm2_5_on_first_strategy (hst := toy_host (pandas_returns df_plain))
              "/data/table.csv" (mk_world fs_table []) df_plain Hy) as (Hrun & Halias & _).
  - vm_compute; tauto.
  - intros h Hh. vm_compute in Hh.
    repeat (destruct Hh as [<- | Hh]; [ split; vm_compute; discriminate | ]).
    contradiction.
  - vm_compute; reflexivity.
  - split; [ exact Hrun | exact Halias ].
Defined.

(** Called for the directory [/data] while the module is in [/app], with
    a fallback file in both, step (b) returns the one in [/app]. *)
Lemma fallback_is_module_file_witness :
  fst (find_best_csv (hst := toy_host pandas_refuses) "/data" PREFERRED_FILENAME (mk_world fs_two_fallbacks []))
  = Ok "/app/air_quality_data.csv".
Proof.
  assert (Hglob : glob_sound (w_fs (mk_world fs_two_fallbacks []))
                    (os_path_join "/data" "*.csv")).
  { intros p Hp. vm_compute in Hp.
    repeat (destruct Hp as [<- | Hp]; [ vm_compute; discriminate | ]). contradiction. }
  apply (proj1 (proj2 (proj2
           (fallback_is_module_file (hst := toy_host pandas_refuses) "/data" PREFERRED_FILENAME
              (mk_world fs_two_fallbacks []) Hglob)))).
  - vm_compute; reflexivity.
  - vm_compute; reflexivity.
Defined.

(* ===================================================================== *)
(** ** Runs of the further properties *)
(* ===================================================================== *)

(** Fourteen values and a time step of 10 give three windows; the first
    one, with its target, is the first eleven values, and the second one is
    the first one moved on by one place. *)
Lemma prepare_data_windows_witness :
  exists win v,
    nth_error [seq 1 10; seq 2 10; seq 3 10] 0 = Some win /\
    nth_error [11; 12; 13] 0 = Some v /\
    length win = 10 /\
    win ++ [v] = firstn (10 + 1) (skipn 0 (seq 1 14)) /\
    (1 < length (seq 1 14) - 10 - 1 ->
     nth_error [seq 1 10; seq 2 10; seq 3 10] 1 = Some (tl (win ++ [v]))).
Proof.
  apply (prepare_data_windows (seq 1 14) 10 [seq 1 10; seq 2 10; seq 3 10] [11; 12; 13]).
  - vm_compute. reflexivity.
  - vm_compute. lia.
Defined.

(** With fourteen readings in the preferred file, [train_model] reaches
    fitting with three windows and three targets. *)
Lemma train_model_needs_twelve_witness :
  exists X y,
    train_model (hst := toy_host (pandas_returns df_readings))
      (skl := toy_sklearn (pandas_returns df_readings))
      (fun _ X y _ => (X, y)) (mk_world fs_live [])
    = (Reached (X, y),
       snd (load_data (hst := toy_host (pandas_returns df_readings)) None
              (mk_world fs_live []))) /\
    length X = 3 /\ length y = 3.
Proof.
  assert (Hload : load_data (hst := toy_host (pandas_returns df_readings)) None
                    (mk_world fs_live [])
                  = (Ok [12; 15; 11; 18; 21; 19; 14; 13; 17; 22; 25; 20; 16; 10]%N,
                     snd (load_data (hst := toy_host (pandas_returns df_readings)) None
                            (mk_world fs_live []))))
    by (vm_compute; reflexivity).
  destruct (proj2 (train_model_needs_twelve
                     (hst := toy_host (pandas_returns df_readings))
                     (skl := toy_sklearn (pandas_returns df_readings))
                     (fun _ X y _ => (X, y)) _ _ _ (fun x => x) Hload eq_refl))
    as (X & y & Ht & _ & HX & Hy & _).
  - cbn [length]. lia.
  - exists X, y. split; [ exact Ht | ]. split; [ exact HX | exact Hy ].
Defined.

(** Of the two files of five bytes, the one listed first is chosen. *)
Lemma find_best_csv_first_largest_witness :
  find_best_csv (hst := toy_host pandas_refuses) "/data" PREFERRED_FILENAME
    (mk_world fs_ties [])
  = (Ok "/data/b.csv", mk_world fs_ties []).
Proof.
  apply (find_best_csv_first_largest (hst := toy_host pandas_refuses)
           "/data" PREFERRED_FILENAME (mk_world fs_ties [])
           ["/data/a.csv"] "/data/b.csv" ["/data/c.csv"; "/data/d.csv"]).
  - intros p Hp. vm_compute in Hp.
    repeat (destruct Hp as [<- | Hp]; [ vm_compute; discriminate | ]). contradiction.
  - vm_compute. reflexivity.
  - vm_compute. reflexivity.
  - vm_compute. reflexivity.
  - vm_compute. reflexivity.
  - intros q [<- | []]. vm_compute. reflexivity.
  - intros q [<- | [<- | []]]; vm_compute; discriminate.
Defined.

(** The listing names [/data/gone.csv], which is not there: the search
    ends in its [OSError] although two usable files are listed. *)
Lemma find_best_csv_listed_missing_witness :
  find_best_csv (hst := toy_host pandas_refuses) "/data" PREFERRED_FILENAME
    (mk_world fs_dangling [])
  = (Raise (OSError "/data/gone.csv"), mk_world fs_dangling []).
Proof.
  apply (find_best_csv_listed_missing (hst := toy_host pandas_refuses)
           "/data" PREFERRED_FILENAME (mk_world fs_dangling [])
           ["/data/a.csv"] "/data/gone.csv" ["/data/b.csv"]).
  - vm_compute. reflexivity.
  - vm_compute. reflexivity.
  - vm_compute. reflexivity.
  - intros q [<- | []]. vm_compute. discriminate.
  - vm_compute. reflexivity.
Defined.

(** Given a directory, [load_data] ends in the [RuntimeError] of the
    reader. *)
Lemma load_data_unreadable_path_witness :
  load_data (hst := toy_host pandas_refuses) (Some "/data/readings")
    (mk_world fs_directory [])
  = (Raise (RuntimeError_Failed "/data/readings" (Some (OSError "/data/readings"))),
     extend (mk_world fs_directory [])
       (EvPrint (MsgUsingFile "/data/readings" 4096)
        :: map (EvReadCsv (SrcPath "/data/readings"))
             (map att_kwargs attempts ++ [kwargs_skip; kwargs_quote_none])
        ++ [EvPrint MsgModalAttempt; EvOpen "/data/readings"])).
Proof.
  apply (load_data_unreadable_path (hst := toy_host pandas_refuses)
           "/data/readings" (mk_world fs_directory []) 4096).
  - vm_compute. reflexivity.
  - vm_compute. reflexivity.
Defined.

(** A load of two values reports two rows. *)
Lemma load_data_reports_rows_witness :
  exists evs found_col,
    snd (load_data (hst := toy_host (pandas_returns df_plain)) (Some "/data/table.csv")
           (mk_world fs_table []))
    = extend (mk_world fs_table [])
        (EvPrint (MsgUsingFile "/data/table.csv" (size_of fs_table "/data/table.csv"))
         :: evs ++ [EvPrint (MsgLoaded 2 found_col)]).
Proof.
  apply (load_data_reports_rows (hst := toy_host (pandas_returns df_plain))
           "/data/table.csv" (mk_world fs_table []) [12; 15]%N).
  vm_compute. reflexivity.
Defined.

(** Two lines of two fields and two lines of one field: the count of the
    first line is returned. *)
Lemma modal_count_first_seen_witness :
  2 = frequency "," ["a,b"; "c"; "d,e"; "f"] 2 /\
  (forall m, frequency "," ["a,b"; "c"; "d,e"; "f"] m <= 2) /\
  exists pre ln post,
    ["a,b"; "c"; "d,e"; "f"] = pre ++ ln :: post /\ nfields "," ln = 2 /\
    forall l, In l pre -> frequency "," ["a,b"; "c"; "d,e"; "f"] (nfields "," l) < 2.
Proof.
  apply (modal_count_first_seen "," ["a,b"; "c"; "d,e"; "f"] 2 2).
  vm_compute. reflexivity.
Defined.

(** The preferred file of the module directory is what a call without a
    path loads. *)
Lemma load_data_default_path_witness :
  load_data (hst := toy_host (pandas_returns df_readings)) None (mk_world fs_live [])
  = load_data (hst := toy_host (pandas_returns df_readings))
      (Some "/app/live_air_quality.csv") (mk_world fs_live []).
Proof.
  apply (load_data_default_path (hst := toy_host (pandas_returns df_readings))
           (mk_world fs_live []) "/app/live_air_quality.csv" (mk_world fs_live [])).
  vm_compute. reflexivity.
Defined.
